(** * Camlistore upload and JSON-sign handlers

    A shallow embedding of
    - [pkg/blobserver/handlers/upload.go]: [handleMultiPartUpload],
      [commonUploadResponse], [wrapReceiveConfiger], [vivify];
    - [pkg/jsonsign/signhandler]: [Handler], [uploadPublicKey],
      [DiscoveryMap], [ServeHTTP], [handleVerify], [handleSign], [Sign].

    Go values are modelled as follows.  An [error] is its [Error()] text.  A
    function returning [(T, error)] returns a [result T]; one returning only
    [error] returns an [option error] ([None] is [nil]).  Interfaces are
    records of closures over the state of the storage collaborator, with an
    [option] field for every capability obtained by a type assertion.  Go maps
    are [gmap]s, a nil map or nil interface is [None].  Handlers run in a state
    monad over a [World]: the storage state, the response writer, and the
    trace of calls that leave the handler (log lines, storage writes, stats,
    signing requests).  A Go panic is the [Panic] outcome. *)

From Stdlib Require Import ZArith String Ascii.
From stdpp Require Import base option list gmap strings pretty.

Set Warnings "-register-all".
Set Default Proof Using "Type*".

Local Open Scope Z_scope.


(** ** Strings *)

Definition nl : string := String "010"%char EmptyString.
Definition dquote : string := String "034"%char EmptyString.

(** [len(s)] of a Go string, in bytes. *)
Definition len (s : string) : Z := Z.of_nat (String.length s).

(** [strings.Contains(s, substr)]. *)
Definition strings_Contains (s substr : string) : bool :=
  match String.index 0 substr s with
  | Some _ => true
  | None => false
  end.

(** [strings.HasPrefix(s, prefix)]. *)
Fixpoint strings_HasPrefix (s prefix : string) {struct prefix} : bool :=
  match prefix, s with
  | EmptyString, _ => true
  | String a prefix, String b s => Ascii.eqb a b && strings_HasPrefix s prefix
  | String _ _, EmptyString => false
  end.

(** ** Errors, results, JSON values *)

Definition error : Type := string.

Inductive result (A : Type) : Type :=
| Ok (a : A)
| Err (e : error).
Arguments Ok {A} a.
Arguments Err {A} e.

(** Values stored in a [map[string]interface{}] that is rendered as JSON. *)
Inductive JSON : Type :=
| JNull
| JInt (z : Z)
| JStr (s : string)
| JArr (l : list JSON)
| JObj (m : gmap string JSON).

(** ** HTTP requests and responses *)

(** [http.Header] and [url.Values]: a key has a list of values; [Get]
    returns the first one, or the empty string. *)
Definition Values_Get (h : gmap string (list string)) (key : string) : string :=
  match h !! key with
  | Some (v :: _) => v
  | _ => ""
  end.

Definition Values_Add (h : gmap string (list string)) (key value : string)
  : gmap string (list string) :=
  <[key := default [] (h !! key) ++ [value]]> h.

(** One section of a multipart body, as [multipart.Part]. *)
Record Part : Type := {
  PartHeader : gmap string (list string);
  PartBody : string
}.

(** A [multipart.Reader]: the outcomes of the successive [NextPart] calls;
    once the list is exhausted [NextPart] returns [io.EOF]. *)
Definition MultipartReader : Type := list (result Part).

Record Request : Type := {
  Method : string;
  URL_Path : string;
  Header : gmap string (list string);
  Form : gmap string (list string);
  (** the outcome of [req.MultipartReader()] *)
  Multipart : result MultipartReader
}.

Definition FormValue (req : Request) (key : string) : string :=
  Values_Get (Form req) key.

Inductive Chunk : Type :=
| Text (s : string)
| JSONDoc (data : JSON).

(** An [http.ResponseWriter], as the response it produces: the header that
    goes out with the status line, the status line once it has been sent,
    and the chunks written to the body. *)
Record ResponseWriter : Type := {
  rwHeader : gmap string (list string);
  rwStatus : option Z;
  rwBody : list Chunk
}.

Definition newResponseWriter : ResponseWriter :=
  {| rwHeader := ∅; rwStatus := None; rwBody := [] |}.

Definition StatusOK : Z := 200.
Definition StatusFound : Z := 302.
Definition StatusBadRequest : Z := 400.
Definition StatusInternalServerError : Z := 500.

(** [rw.WriteHeader(code)]: only the first status line is sent. *)
Definition rw_WriteHeader (code : Z) (rw : ResponseWriter) : ResponseWriter :=
  {| rwHeader := rwHeader rw;
     rwStatus := Some (default code (rwStatus rw));
     rwBody := rwBody rw |}.

(** [rw.Write(b)]: sends [StatusOK] first when no status line was sent. *)
Definition rw_Write (c : Chunk) (rw : ResponseWriter) : ResponseWriter :=
  {| rwHeader := rwHeader rw;
     rwStatus := Some (default StatusOK (rwStatus rw));
     rwBody := rwBody rw ++ [c] |}.

(** [rw.Header().Add(key, value)]: the header is sent with the status line,
    and what is changed in the map after that has no effect on the
    response. *)
Definition rw_HeaderAdd (key value : string) (rw : ResponseWriter) : ResponseWriter :=
  match rwStatus rw with
  | Some _ => rw
  | None =>
    {| rwHeader := Values_Add (rwHeader rw) key value;
       rwStatus := None;
       rwBody := rwBody rw |}
  end.

(** [rw.Header().Set(key, value)], likewise. *)
Definition rw_HeaderSet (key value : string) (rw : ResponseWriter) : ResponseWriter :=
  match rwStatus rw with
  | Some _ => rw
  | None =>
    {| rwHeader := <[key := [value]]> (rwHeader rw);
       rwStatus := None;
       rwBody := rwBody rw |}
  end.

(** ** Types owned by other packages *)

Class BaseTypes : Type := {
  (** [blob.Ref] *)
  Ref : Type;
  (** [time.Time] *)
  time_Time : Type;
  (** the public key fetcher of the sign handler (a [blob.MemoryStore]) *)
  Fetcher : Type;
  (** [openpgp.Entity] *)
  Entity : Type;
  (** the state of the storage collaborator *)
  Store : Type
}.

Section Model.
Context `{BT : BaseTypes}.

(** [blob.SizedRef] *)
Record SizedRef : Type := {
  sr_Ref : Ref;
  sr_Size : Z
}.

(** The part of the file schema blob that [vivify] reads. *)
Record FileSchema : Type := {
  UnixMtime : string;
  FileName : string
}.

(** A [schema.FileReader] opened on a store state: the size declared by the
    file's description, its schema, and what reading it to the end delivers
    (the bytes, and the error that stopped the read if any). *)
Record FileReader : Type := {
  fr_Size : Z;
  fr_FileSchema : FileSchema;
  fr_Read : string * option error
}.

(** Modelled from the spec: [schema.Builder] is not under src/.  A builder is
    an unsigned object "with a declared signer and claim date", plus the rest
    of its fields. *)
Record Builder : Type := {
  bb_m : gmap string JSON;
  bb_camliSigner : option Ref;
  bb_claimDate : option time_Time
}.

Definition SetSigner (signer : Ref) (bb : Builder) : Builder :=
  {| bb_m := bb_m bb; bb_camliSigner := Some signer; bb_claimDate := bb_claimDate bb |}.

Definition SetClaimDate (t : time_Time) (bb : Builder) : Builder :=
  {| bb_m := bb_m bb; bb_camliSigner := bb_camliSigner bb; bb_claimDate := Some t |}.

Definition MissingFieldError (field : string) : error :=
  "schema: missing field " +:+ field.

Definition IsMissingField (e : error) : bool :=
  strings_HasPrefix e "schema: missing field ".

(** Modelled from the spec: [bb.Blob().ClaimDate()], the claim timestamp
    "if the payload declares one". *)
Definition Blob_ClaimDate (bb : Builder) : result time_Time :=
  match bb_claimDate bb with
  | Some t => Ok t
  | None => Err (MissingFieldError "claimDate")
  end.

(** [jsonsign.SignRequest]; a zero [SignatureTime] is [None]. *)
Record SignRequest : Type := {
  UnsignedJSON : string;
  sreq_Fetcher : Fetcher;
  ServerMode : bool;
  SecretKeyringPath : string;
  SignatureTime : option time_Time
}.

(** ** Storage interfaces *)

Definition ReceiveFn : Type := Ref → string → Store → Store * result SizedRef.

(** [blobserver.Storage], as far as [uploadPublicKey] uses it. *)
Record Storage : Type := {
  sto_ReceiveBlob : ReceiveFn;
  (** [blobserver.StatBlob(sto, ref)], a query *)
  sto_StatBlob : Ref → Store → result SizedRef
}.

(** [signhandler.Handler] *)
Record Handler : Type := {
  secretRing : string;
  pubKeyBlobRef : Ref;
  pubKeyFetcher : Fetcher;
  pubKeyBlobRefServeSuffix : string;
  (** [pubKeyHandler.ServeHTTP(rw, req)] *)
  pubKeyHandler : Request → ResponseWriter → ResponseWriter;
  pubKeyDest : option Storage;
  pubKeyWritten : bool;
  entity : Entity
}.

(** What [FindHandlerByType] can hand back: the type assertion
    to a pointer to [signhandler.Handler] succeeds on the first form only. *)
Inductive HttpHandler : Type :=
| SignHandler (h : Handler)
| OtherHandler.

(** [blobserver.Config] *)
Record Config : Type := {
  URLBase : string;
  (** [hf.FindHandlerByType(name)] returns [(prefix, handler, err)] *)
  HandlerFinder : option (string → string * option HttpHandler * option error)
}.

(** [blobserver.BlobReceiveConfiger], with the capabilities the upload
    handler asks for by type assertion, and what [WrapContext] returns: a
    storage that either is itself a [BlobReceiveConfiger] or only receives. *)
Inductive BlobReceiveConfiger : Type :=
  mkBlobReceiveConfiger
    (ReceiveBlob : ReceiveFn)
    (Config_ : option Config)
    (StreamingFetcher : option (Ref → Store → result string))
    (ContextWrapper : option (Request → Wrapped))
with Wrapped : Type :=
| IsReceiveConfiger (brc : BlobReceiveConfiger)
| OnlyReceiver (recv : ReceiveFn).

Definition ReceiveBlob (r : BlobReceiveConfiger) : ReceiveFn :=
  match r with mkBlobReceiveConfiger f _ _ _ => f end.
Definition Config_ (r : BlobReceiveConfiger) : option Config :=
  match r with mkBlobReceiveConfiger _ c _ _ => c end.
Definition StreamingFetcher (r : BlobReceiveConfiger) : option (Ref → Store → result string) :=
  match r with mkBlobReceiveConfiger _ _ sf _ => sf end.
Definition ContextWrapper (r : BlobReceiveConfiger) : option (Request → Wrapped) :=
  match r with mkBlobReceiveConfiger _ _ _ cw => cw end.

(** ** Functions owned by other packages *)

Class Externals : Type := {
  Ref_String : Ref → string;
  Ref_Valid : Ref → bool;
  blob_Parse : string → option Ref;
  blob_SHA1FromString : string → Ref;
  (** [%v] of a [blob.SizedRef] *)
  SizedRef_String : SizedRef → string;
  (** [%q] of a string *)
  fmt_q : string → string;
  (** [mime.ParseMediaType(v)] returns [(mediatype, params, err)] *)
  mime_ParseMediaType : string → result (string * gmap string string);
  time_Parse_RFC3339 : string → result time_Time;
  MaxBlobSize : Z;
  httputil_BaseURL : string → Request → result string;
  httputil_PathBase : Request → string;
  httputil_PathSuffix : Request → string;
  (** [schema.NewFileReader(fetcher, ref)] over a seekable fetcher *)
  schema_NewFileReader : (Ref → result string) → Ref → result FileReader;
  (** [schema.NewHashPlannedPermanode(h)], from the bytes written to [h] *)
  schema_NewHashPlannedPermanode : string → Builder;
  schema_NewSetAttributeClaim : Ref → string → string → Builder;
  (** [bb.JSON()] *)
  Builder_JSON : Builder → result string;
  (** [sreq.Sign()] returns [(signedJSON, err)] *)
  jsonsign_Sign : SignRequest → string * option error;
  (** [NewVerificationRequest(sjson, fetcher).Verify()]: the signer key id
      and payload map, or the text of [vreq.Err] *)
  jsonsign_Verify : string → Fetcher → result (string * gmap string JSON);
  (** [entity.PrimaryKey.KeyIdString()] *)
  KeyIdString : Entity → string
}.

Context `{EX : Externals}.

(** ** The world a handler runs in *)

Inductive Event : Type :=
| Log (format : string) (args : list string)
| CallReceiveBlob (ref : Ref) (data : string) (res : result SizedRef)
| CallStatBlob (ref : Ref) (res : result SizedRef)
| CallSign (sreq : SignRequest).

Record World : Type := {
  sto : Store;
  trace : list Event;
  conn : ResponseWriter
}.

Inductive outcome (A : Type) : Type :=
| Done (a : A)
| Panic (msg : string).
#[global] Arguments Done {A} a.
#[global] Arguments Panic {A} msg.

Definition M (A : Type) : Type := World → outcome A * World.

#[export] Instance M_ret : MRet M := λ A a w, (Done a, w).

#[export] Instance M_bind : MBind M := λ A B k c w,
  match c w with
  | (Done a, w') => k a w'
  | (Panic msg, w') => (Panic msg, w')
  end.

Definition panic {A : Type} (msg : string) : M A := λ w, (Panic msg, w).

Definition emit (e : Event) : M unit := λ w,
  (Done tt, {| sto := sto w; trace := trace w ++ [e]; conn := conn w |}).

Definition getStore : M Store := λ w, (Done (sto w), w).

Definition setStore (s : Store) : M unit := λ w,
  (Done tt, {| sto := s; trace := trace w; conn := conn w |}).

Definition onConn (f : ResponseWriter → ResponseWriter) : M unit := λ w,
  (Done tt, {| sto := sto w; trace := trace w; conn := f (conn w) |}).

Definition log_Printf (format : string) (args : list string) : M unit :=
  emit (Log format args).

(** [http.Error(rw, msg, code)] *)
Definition http_Error (msg : string) (code : Z) : M unit :=
  onConn (rw_WriteHeader code);; onConn (rw_Write (Text msg)).

(** Modelled from the spec: [httputil.BadRequestError] is not under src/; it
    answers with "a client error" carrying the message. *)
Definition httputil_BadRequestError (errorMessage : string) : M unit :=
  onConn (rw_WriteHeader StatusBadRequest);; onConn (rw_Write (Text errorMessage)).

(** Modelled from the spec: [httputil.ServeError] is not under src/; it
    surfaces a server-side failure as a request-level error. *)
Definition httputil_ServeError (req : Request) (err : error) : M unit :=
  onConn (rw_WriteHeader StatusInternalServerError);; onConn (rw_Write (Text err)).

(** Modelled from the spec: [httputil.ReturnJSON] is not under src/; it
    writes the value as the JSON body of the response. *)
Definition httputil_ReturnJSON (data : JSON) : M unit :=
  onConn (rw_Write (JSONDoc data)).

(** A call of [ReceiveBlob] on a storage, recorded in the trace. *)
Definition callReceive (f : ReceiveFn) (ref : Ref) (data : string) : M (result SizedRef) :=
  s ← getStore;
  let '(s', res) := f ref data s in
  setStore s';;
  emit (CallReceiveBlob ref data res);;
  mret res.

(** [blobReceiver.ReceiveBlob(ref, source)] through an interface value. *)
Definition BlobReceiver_ReceiveBlob (blobReceiver : option BlobReceiveConfiger)
    (ref : Ref) (data : string) : M (result SizedRef) :=
  match blobReceiver with
  | None => panic "invalid memory address or nil pointer dereference"
  | Some r => callReceive (ReceiveBlob r) ref data
  end.

(** [sreq.Sign()], recorded in the trace. *)
Definition SignRequest_Sign (sreq : SignRequest) : M (string * option error) :=
  emit (CallSign sreq);;
  mret (jsonsign_Sign sreq).

(** ** signhandler: signing on behalf of another component *)

(** [Handler.DiscoveryMap] *)
Definition DiscoveryMap (h : Handler) (base : string) : gmap string JSON :=
  let m : gmap string JSON :=
    {[ "publicKeyId" := JStr (KeyIdString (entity h));
       "signHandler" := JStr (base +:+ "camli/sig/sign");
       "verifyHandler" := JStr (base +:+ "camli/sig/verify") ]} in
  if Ref_Valid (pubKeyBlobRef h) then
    let m := <["publicKeyBlobRef" := JStr (Ref_String (pubKeyBlobRef h))]> m in
    <["publicKey" := JStr (base +:+ pubKeyBlobRefServeSuffix h)]> m
  else m.

(** [Handler.Sign] *)
Definition Handler_Sign (h : Handler) (bb : Builder) : M (string * option error) :=
  let bb := SetSigner (pubKeyBlobRef h) bb in
  match Builder_JSON bb with
  | Err err => mret ("", Some err)
  | Ok unsigned =>
    let sreq (t : option time_Time) :=
      {| UnsignedJSON := unsigned;
         sreq_Fetcher := pubKeyFetcher h;
         ServerMode := true;
         SecretKeyringPath := secretRing h;
         SignatureTime := t |} in
    match Blob_ClaimDate bb with
    | Err err =>
      if negb (IsMissingField err) then mret ("", Some err)
      else SignRequest_Sign (sreq None)
    | Ok claimTime => SignRequest_Sign (sreq (Some claimTime))
    end
  end.

(** ** upload.go *)

Definition oldAppEngineHappySpec : bool := false.

(** [wrapReceiveConfiger]: the re-bound storage when it is a
    [BlobReceiveConfiger], otherwise a [mixAndMatch] of its receiver and the
    old configer (which has no other capability). *)
Definition wrapReceiveConfiger (cw : Request → Wrapped) (req : Request)
    (oldRC : BlobReceiveConfiger) : BlobReceiveConfiger :=
  match cw req with
  | IsReceiveConfiger brc => brc
  | OnlyReceiver newRC => mkBlobReceiveConfiger newRC (Config_ oldRC) None None
  end.

(** [blob.MustParse] panics on a string that is no blob ref. *)
Definition blob_MustParse (s : string) : M Ref :=
  match blob_Parse s with
  | Some ref => mret ref
  | None => panic ("Invalid blobref " +:+ s)
  end.

(** [sha1.New()] followed by writes: the hash state is the bytes written. *)
Definition sha1_New : string := "".

(** [io.Copy(h, fr)] returns the number of bytes copied and the read error. *)
Definition io_Copy (h : string) (fr : FileReader) : string * Z * option error :=
  let '(bytes, err) := fr_Read fr in
  (h +:+ bytes, len bytes, err).

(** [vivify] *)
Definition vivify (blobReceiver : option BlobReceiveConfiger) (fileblob : SizedRef)
    : M (option error) :=
  let refStr := Ref_String (sr_Ref fileblob) in
  match blobReceiver ≫= StreamingFetcher with
  | None => mret (Some "BlobReceiver is not a StreamingFetcher")
  | Some sf =>
  s ← getStore;
  let fetcher := λ r, sf r s in
  match schema_NewFileReader fetcher (sr_Ref fileblob) with
  | Err err => mret (Some ("Filereader error for blobref " +:+ refStr +:+ ": " +:+ err))
  | Ok fr =>
  let '(h, n, err) := io_Copy sha1_New fr in
  match err with
  | Some err => mret (Some ("Could not read all file of blobref " +:+ refStr +:+ ": " +:+ err))
  | None =>
  if negb (n =? fr_Size fr) then
    mret (Some ("Could not read all file of blobref " +:+ refStr +:+ ". Wanted "
                +:+ pretty (fr_Size fr) +:+ ", got " +:+ pretty n))
  else
  match blobReceiver ≫= Config_ with
  | None => mret (Some "blobReceiver has no config")
  | Some config =>
  match HandlerFinder config with
  | None => mret (Some "blobReceiver config has no HandlerFinder")
  | Some hf =>
  let '(JSONSignRoot, sh, err) := hf "jsonsign" in
  match err, sh with
  | Some _, _ | _, None => mret (Some "jsonsign handler not found")
  | None, Some OtherHandler => mret (Some "handler is not a JSON signhandler")
  | None, Some (SignHandler sigHelper) =>
  let discoMap := DiscoveryMap sigHelper JSONSignRoot in
  match discoMap !! "publicKeyBlobRef" with
  | Some (JStr publicKeyBlobRef) =>
    match time_Parse_RFC3339 (UnixMtime (fr_FileSchema fr)) with
    | Err err =>
      mret (Some ("While parsing modtime for file " +:+ FileName (fr_FileSchema fr)
                  +:+ ": " +:+ err))
    | Ok claimDate =>
      let permanodeBB := schema_NewHashPlannedPermanode h in
      signer ← blob_MustParse publicKeyBlobRef;
      let permanodeBB := SetSigner signer permanodeBB in
      let permanodeBB := SetClaimDate claimDate permanodeBB in
      '(permanodeSigned, err) ← Handler_Sign sigHelper permanodeBB;
      match err with
      | Some err => mret (Some ("Signing permanode " +:+ permanodeSigned +:+ ": " +:+ err))
      | None =>
        let permanodeRef := blob_SHA1FromString permanodeSigned in
        res ← BlobReceiver_ReceiveBlob blobReceiver permanodeRef permanodeSigned;
        match res with
        | Err err =>
          mret (Some ("While uploading signed permanode " +:+ Ref_String permanodeRef
                      +:+ ", " +:+ permanodeSigned +:+ ": " +:+ err))
        | Ok _ =>
          let contentClaimBB :=
            schema_NewSetAttributeClaim permanodeRef "camliContent" refStr in
          signer ← blob_MustParse publicKeyBlobRef;
          let contentClaimBB := SetSigner signer contentClaimBB in
          let contentClaimBB := SetClaimDate claimDate contentClaimBB in
          '(contentClaimSigned, err) ← Handler_Sign sigHelper contentClaimBB;
          match err with
          | Some err => mret (Some ("Signing camliContent claim: " +:+ err))
          | None =>
            let contentClaimRef := blob_SHA1FromString contentClaimSigned in
            res ← BlobReceiver_ReceiveBlob blobReceiver contentClaimRef contentClaimSigned;
            match res with
            | Err err =>
              mret (Some ("While uploading signed camliContent claim "
                          +:+ Ref_String contentClaimRef +:+ ", " +:+ contentClaimSigned
                          +:+ ": " +:+ err))
            | Ok _ => mret None
            end
          end
        end
      end
    end
  | _ => mret (Some "Discovery: json decoding error: <nil>")
  end
  end
  end
  end
  end
  end
  end.

(** The closure [addError] of [handleMultiPartUpload], with [errText] passed
    in and out. *)
Definition addError (errText : string) (s : string) : M string :=
  log_Printf "Client error: %s" [s];;
  if (errText =? "")%string then mret s
  else mret (errText +:+ nl +:+ s).

(** The [for] loop over [multipart.NextPart()].  It returns the received
    blobs, the error text and the part of the stream it did not read. *)
Fixpoint ingestLoop (blobReceiver : option BlobReceiveConfiger)
    (multipart : MultipartReader) (receivedBlobs : list SizedRef) (errText : string)
    : M (list SizedRef * string * MultipartReader) :=
  match multipart with
  | [] => mret (receivedBlobs, errText, [])
  | Err err :: rest =>
    errText ← addError errText ("Error reading multipart section: " +:+ err);
    mret (receivedBlobs, errText, rest)
  | Ok mimePart :: rest =>
    match mime_ParseMediaType (Values_Get (PartHeader mimePart) "Content-Disposition") with
    | Err _ =>
      errText ← addError errText "invalid Content-Disposition";
      mret (receivedBlobs, errText, rest)
    | Ok (contentDisposition, params) =>
      if negb (contentDisposition =? "form-data")%string then
        errText ← addError errText
          ("Expected Content-Disposition of " +:+ dquote +:+ "form-data" +:+ dquote
           +:+ "; got " +:+ fmt_q contentDisposition);
        mret (receivedBlobs, errText, rest)
      else
        let formName := default "" (params !! "name") in
        match blob_Parse formName with
        | None =>
          errText ← addError errText ("Ignoring form key " +:+ fmt_q formName);
          ingestLoop blobReceiver rest receivedBlobs errText
        | Some ref =>
          if oldAppEngineHappySpec && negb (bool_decide (is_Some (PartHeader mimePart !! "Content-Type"))) then
            errText ← addError errText
              ("Expected Content-Type header for blobref " +:+ Ref_String ref +:+ "; see spec");
            ingestLoop blobReceiver rest receivedBlobs errText
          else if oldAppEngineHappySpec && negb (bool_decide (is_Some (params !! "filename"))) then
            errText ← addError errText
              ("Expected 'filename' Content-Disposition parameter for blobref "
               +:+ Ref_String ref +:+ "; see spec");
            ingestLoop blobReceiver rest receivedBlobs errText
          else
            res ← BlobReceiver_ReceiveBlob blobReceiver ref (PartBody mimePart);
            match res with
            | Err err =>
              errText ← addError errText
                ("Error receiving blob " +:+ Ref_String ref +:+ ": " +:+ err +:+ nl);
              mret (receivedBlobs, errText, rest)
            | Ok blobGot =>
              log_Printf ("Received blob %v" +:+ nl) [SizedRef_String blobGot];;
              ingestLoop blobReceiver rest (receivedBlobs ++ [blobGot]) errText
            end
        end
    end
  end.

(** [commonUploadResponse] returns [(ret, err)]. *)
Definition commonUploadResponse (configer : option BlobReceiveConfiger) (req : Request)
    : M (option (gmap string JSON) * option error) :=
  let ret : gmap string JSON :=
    <["uploadUrlExpirationSeconds" := JInt 86400]> {[ "maxUploadSize" := JInt MaxBlobSize ]} in
  match configer with
  | None =>
    let err := "Cannot build uploadUrl: configer is nil" in
    log_Printf "%v" [err];;
    mret (None, Some err)
  | Some configer =>
    match Config_ configer with
    | Some config =>
      match httputil_BaseURL (URLBase config) req with
      | Err err =>
        let errStr := "Cannot build uploadUrl: " +:+ err in
        log_Printf errStr [];;
        mret (Some ret, Some errStr)
      | Ok baseURL =>
        mret (Some (<["uploadUrl" := JStr (baseURL +:+ "/camli/upload")]> ret), None)
      end
    | None =>
      let err := "Cannot build uploadUrl: configer.Config is nil" in
      log_Printf "%v" [err];;
      mret (None, Some err)
    end
  end.

(** [m[key] = value] on a map that may be nil. *)
Definition map_assign (m : option (gmap string JSON)) (key : string) (value : JSON)
    : M (option (gmap string JSON)) :=
  match m with
  | None => panic "assignment to entry in nil map"
  | Some m => mret (Some (<[key := value]> m))
  end.

(** The blob receiver after lines 150-152: re-bound to the request when it
    is a [ContextWrapper]. *)
Definition rebind (req : Request) (blobReceiver : option BlobReceiveConfiger)
    : option BlobReceiveConfiger :=
  match blobReceiver ≫= ContextWrapper, blobReceiver with
  | Some w, Some r => Some (wrapReceiveConfiger w req r)
  | _, _ => blobReceiver
  end.

(** The [range receivedBlobs] loop of the vivify step. *)
Fixpoint vivifyLoop (blobReceiver : option BlobReceiveConfiger)
    (receivedBlobs : list SizedRef) (errText : string) : M string :=
  match receivedBlobs with
  | [] => mret errText
  | got :: rest =>
    err ← vivify blobReceiver got;
    errText ← match err with
              | Some err =>
                addError errText ("Error vivifying blob " +:+ Ref_String (sr_Ref got)
                                  +:+ ": " +:+ err +:+ nl)
              | None =>
                onConn (rw_HeaderAdd "X-Camlistore-Vivified" (Ref_String (sr_Ref got)));;
                mret errText
              end;
    vivifyLoop blobReceiver rest errText
  end.

Definition receivedJSON (got : SizedRef) : JSON :=
  JObj (<["size" := JInt (sr_Size got)]> {[ "blobRef" := JStr (Ref_String (sr_Ref got)) ]}).

Definition JSON_of_map (m : option (gmap string JSON)) : JSON :=
  match m with
  | Some m => JObj m
  | None => JNull
  end.

(** [handleMultiPartUpload] *)
Definition handleMultiPartUpload (req : Request) (blobReceiver : option BlobReceiveConfiger)
    : M unit :=
  let blobReceiver := rebind req blobReceiver in
  if negb ((Method req =? "POST")%string && strings_Contains (URL_Path req) "/camli/upload") then
    log_Printf "Inconfigured handler upload handler" [];;
    httputil_BadRequestError "Inconfigured handler."
  else
    match Multipart req with
    | Err err =>
      httputil_BadRequestError ("Expected multipart/form-data POST request; " +:+ err)
    | Ok multipart =>
      '(receivedBlobs, errText, _) ← ingestLoop blobReceiver multipart [] "";
      '(ret, err) ← commonUploadResponse blobReceiver req;
      match err with
      | Some err => httputil_ServeError req err
      | None => mret tt
      end;;
      let received := receivedJSON <$> receivedBlobs in
      ret ← map_assign ret "received" (JArr received);
      errText ← (if (Values_Get (Header req) "X-Camlistore-Vivify" =? "1")%string
                 then vivifyLoop blobReceiver receivedBlobs errText
                 else mret errText);
      ret ← (if negb (errText =? "")%string
             then map_assign ret "errorText" (JStr errText)
             else mret ret);
      httputil_ReturnJSON (JSON_of_map ret)
    end.

(** ** signhandler: key publication and the HTTP interface *)

Definition kMaxJSONLength : Z := 1024 * 1024.

(** [Handler.uploadPublicKey] *)
Definition uploadPublicKey (h : Handler) (sto : Storage) (key : string) : M (option error) :=
  s ← getStore;
  let res := sto_StatBlob sto (pubKeyBlobRef h) s in
  emit (CallStatBlob (pubKeyBlobRef h) res);;
  match res with
  | Ok _ => mret None
  | Err _ =>
    res ← callReceive (sto_ReceiveBlob sto) (pubKeyBlobRef h) key;
    match res with
    | Ok _ => mret None
    | Err err => mret (Some err)
    end
  end.

(** [http.Redirect(rw, req, url, code)] *)
Definition http_Redirect (url : string) (code : Z) : M unit :=
  onConn (rw_HeaderSet "Location" url);; onConn (rw_WriteHeader code).

(** [Handler.handleVerify] *)
Definition handleVerify (h : Handler) (req : Request) : M unit :=
  let sjson := FormValue req "sjson" in
  if (sjson =? "")%string then
    http_Error ("missing " +:+ dquote +:+ "sjson" +:+ dquote +:+ " parameter") StatusBadRequest
  else
    let m : gmap string JSON := ∅ in
    let fetcher := pubKeyFetcher h in
    let m :=
      match jsonsign_Verify sjson fetcher with
      | Ok (SignerKeyId, PayloadMap) =>
        let m := <["signatureValid" := JInt 1]> m in
        let m := <["signerKeyId" := JStr SignerKeyId]> m in
        <["verifiedData" := JObj PayloadMap]> m
      | Err errStr =>
        let m := <["signatureValid" := JInt 0]> m in
        <["errorMessage" := JStr errStr]> m
      end in
    onConn (rw_WriteHeader StatusOK);;
    httputil_ReturnJSON (JObj m).

(** [Handler.handleSign] *)
Definition handleSign (h : Handler) (req : Request) : M unit :=
  let badReq (s : string) : M unit :=
    http_Error s StatusBadRequest;;
    log_Printf "bad request: %s" [s] in
  let jsonStr := FormValue req "json" in
  if (jsonStr =? "")%string then
    badReq ("missing " +:+ dquote +:+ "json" +:+ dquote +:+ " parameter")
  else if len jsonStr >? kMaxJSONLength then
    badReq ("parameter " +:+ dquote +:+ "json" +:+ dquote +:+ " too large")
  else
    let sreq :=
      {| UnsignedJSON := jsonStr;
         sreq_Fetcher := pubKeyFetcher h;
         ServerMode := true;
         SecretKeyringPath := secretRing h;
         SignatureTime := None |} in
    '(signedJSON, err) ← SignRequest_Sign sreq;
    match err with
    | Some err => badReq err
    | None => onConn (rw_Write (Text signedJSON))
    end.

(** [Handler.ServeHTTP] *)
Definition ServeHTTP (h : Handler) (req : Request) : M unit :=
  let base := httputil_PathBase req in
  let subPath := httputil_PathSuffix req in
  let unsupported := http_Error "Unsupported path or method." StatusBadRequest in
  if (Method req =? "GET")%string then
    if (subPath =? "")%string then
      http_Redirect (base +:+ "camli/sig/discovery") StatusFound
    else if (subPath =? pubKeyBlobRefServeSuffix h)%string then
      onConn (pubKeyHandler h req)
    else if (subPath =? "camli/sig/sign")%string || (subPath =? "camli/sig/verify")%string then
      http_Error "POST required" 400
    else if (subPath =? "camli/sig/discovery")%string then
      httputil_ReturnJSON (JObj (DiscoveryMap h base))
    else unsupported
  else if (Method req =? "POST")%string then
    if (subPath =? "camli/sig/sign")%string then handleSign h req
    else if (subPath =? "camli/sig/verify")%string then handleVerify h req
    else unsupported
  else unsupported.

(** ** signhandler: construction from configuration *)

(** [jsonconfig.Obj], as the constructor reads it: what each accessor
    returns, and what [Validate] reports after them. *)
Record jsonconfig_Obj : Type := {
  OptionalString : string → string → string;
  RequiredString : string → string;
  Validate : option error
}.

(** A storage handed out by the loader: the storage itself and, when it is
    a [blobserver.ContextWrapper], its [WrapContext]. *)
Record LoadedStorage : Type := {
  ls_Storage : Storage;
  ls_ContextWrapper : option (Request → Storage)
}.

(** [blobserver.Loader]: [GetStorage(prefix)] returns [(sto, err)], where
    [sto] may be nil; [GetRequestContext()] returns [(req, ok)]. *)
Record Loader : Type := {
  GetStorage : string → result (option LoadedStorage);
  GetRequestContext : option Request
}.

(** What the constructor takes from the process and from other packages. *)
Record Startup : Type := {
  os_Getenv : string → string;
  filepath_Join : list string → string;
  (** [jsonsign.EntityFromSecring(keyId, keyFile)] *)
  jsonsign_EntityFromSecring : string → string → result Entity;
  (** [jsonsign.ArmoredPublicKey(entity)] returns [(armored, err)] *)
  jsonsign_ArmoredPublicKey : Entity → string * option error;
  (** [new(blob.MemoryStore)] followed by [AddBlob(crypto.SHA1, blob)]: the
      ref of the blob and the store that holds it *)
  MemoryStore_AddBlob : string → result (Ref * Fetcher);
  (** [gethandler.Handler{Fetcher: ms}.ServeHTTP] *)
  gethandler_ServeHTTP : Fetcher → Request → ResponseWriter → ResponseWriter
}.

(** [Handler.secretRingPath], on the [secretRing] field. *)
Definition secretRingPath (env : Startup) (secretRing : string) : string :=
  if negb (secretRing =? "")%string then secretRing
  else filepath_Join env [os_Getenv env "HOME"; ".gnupg"; "secring.gpg"].

(** [newJSONSignFromConfig] *)
Definition newJSONSignFromConfig (env : Startup) (ld : Loader) (conf : jsonconfig_Obj)
    : M (result Handler) :=
  let pubKeyDestPrefix := OptionalString conf "publicKeyDest" "" in
  let keyId := RequiredString conf "keyId" in
  let h_secretRing := OptionalString conf "secretRing" "" in
  match Validate conf with
  | Some err => mret (Err err)
  | None =>
  match jsonsign_EntityFromSecring env keyId (secretRingPath env h_secretRing) with
  | Err err => mret (Err err)
  | Ok h_entity =>
  let '(armoredPublicKey, _) := jsonsign_ArmoredPublicKey env h_entity in
  match MemoryStore_AddBlob env armoredPublicKey with
  | Err err => mret (Err err)
  | Ok (h_pubKeyBlobRef, ms) =>
  let h (dest : option Storage) : Handler :=
    {| secretRing := h_secretRing;
       pubKeyBlobRef := h_pubKeyBlobRef;
       pubKeyFetcher := ms;
       pubKeyBlobRefServeSuffix := "camli/" +:+ Ref_String h_pubKeyBlobRef;
       pubKeyHandler := gethandler_ServeHTTP env ms;
       pubKeyDest := dest;
       pubKeyWritten := false;
       entity := h_entity |} in
  if negb (pubKeyDestPrefix =? "")%string then
    match GetStorage ld pubKeyDestPrefix with
    | Err err => mret (Err err)
    | Ok None => mret (Ok (h None))
    | Ok (Some loaded) =>
      let sto :=
        match GetRequestContext ld, ls_ContextWrapper loaded with
        | Some ctxReq, Some w => w ctxReq
        | _, _ => ls_Storage loaded
        end in
      err ← uploadPublicKey (h (Some (ls_Storage loaded))) sto armoredPublicKey;
      match err with
      | Some err => mret (Err ("Error seeding self public key in storage: " +:+ err))
      | None => mret (Ok (h (Some (ls_Storage loaded))))
      end
    end
  else mret (Ok (h None))
  end
  end
  end.

End Model.


(** ** A concrete instance

    An in-memory blob store keyed by the text of the blob ref, with toy
    versions of the collaborators, on which the handlers can be run. *)

Module Demo.

Definition types : BaseTypes :=
  {| Ref := string; time_Time := string; Fetcher := unit; Entity := unit;
     Store := gmap string string |}.
#[local] Existing Instance types.

(** The toy digest of a blob is its content behind the hash name. *)
Definition digest (data : string) : string := "sha1-" +:+ data.

Definition parseRef (s : string) : option string :=
  if strings_HasPrefix s "sha1-" then Some s else None.

Definition refString (r : Ref) : string := r.

Definition sizedRefString (sr : SizedRef) : string :=
  "[" +:+ refString (sr_Ref sr) +:+ "; " +:+ pretty (sr_Size sr) +:+ " bytes]".

(** A disposition is either exactly [form-data], or [form-data; name=]
    followed by the name; anything else that is not empty is another kind. *)
Definition parseMediaType (v : string) : result (string * gmap string string) :=
  if (v =? "")%string then Err "mime: no media type"
  else if strings_HasPrefix v "form-data; name=" then
    Ok ("form-data", {[ "name" := String.substring 16 (String.length v - 16) v ]})
  else Ok (v, ∅).

Definition parseTime (s : string) : result time_Time :=
  if (s =? "")%string then Err "cannot parse" else Ok s.

(** Every file description declares five bytes, modified at a fixed time. *)
Definition newFileReader (fetcher : Ref → result string) (ref : Ref) : result FileReader :=
  match fetcher ref with
  | Err e => Err e
  | Ok bytes =>
    Ok {| fr_Size := 5;
          fr_FileSchema := {| UnixMtime := "2013-01-01T00:00:00Z"; FileName := "hello.txt" |};
          fr_Read := (bytes, None) |}
  end.

Definition plannedPermanode (h : string) : Builder :=
  {| bb_m := {[ "key" := JStr h ]}; bb_camliSigner := None; bb_claimDate := None |}.

(** A fresh claim is dated "now" until [SetClaimDate] overrides it. *)
Definition setAttributeClaim (permanode : Ref) (attr value : string) : Builder :=
  {| bb_m := {[ "key" := JStr (refString permanode +:+ "." +:+ attr +:+ "=" +:+ value) ]};
     bb_camliSigner := None;
     bb_claimDate := Some ("now" : time_Time) |}.

Definition builderJSON (bb : Builder) : result string :=
  Ok (match bb_m bb !! "key" with Some (JStr k) => k | _ => "" end
      +:+ "," +:+ default "" (refString <$> bb_camliSigner bb)
      +:+ "," +:+ default "" ((λ t : time_Time, t : string) <$> bb_claimDate bb)).

Definition sign (sreq : SignRequest) : string * option error :=
  (UnsignedJSON sreq +:+ ",sig@"
   +:+ default "now" ((λ t : time_Time, t : string) <$> SignatureTime sreq), None).

Definition verify (sjson : string) (fetcher : Fetcher) : result (string * gmap string JSON) :=
  if strings_HasPrefix sjson "signed:" then Ok ("26F5ABDA", ∅) else Err "bad signature".

Definition baseURL (base : string) (req : Request) : result string :=
  if (base =? "")%string then Err "no host" else Ok base.

Definition externals : Externals :=
  {| Ref_String := refString;
     Ref_Valid := (λ r, strings_HasPrefix r "sha1-") : Ref → bool;
     blob_Parse := parseRef : string → option Ref;
     blob_SHA1FromString := digest : string → Ref;
     SizedRef_String := sizedRefString;
     fmt_q := λ s, dquote +:+ s +:+ dquote;
     mime_ParseMediaType := parseMediaType;
     time_Parse_RFC3339 := parseTime;
     MaxBlobSize := 16777216;
     httputil_BaseURL := baseURL;
     httputil_PathBase := λ _, "/";
     httputil_PathSuffix := URL_Path;
     schema_NewFileReader := newFileReader;
     schema_NewHashPlannedPermanode := plannedPermanode;
     schema_NewSetAttributeClaim := setAttributeClaim;
     Builder_JSON := builderJSON;
     jsonsign_Sign := sign;
     jsonsign_Verify := verify;
     KeyIdString := λ _, "26F5ABDA" |}.
#[local] Existing Instance externals.

(** The store accepts a blob only under the digest of its content. *)
Definition receive : ReceiveFn := λ ref data s,
  if (ref =? digest data)%string
  then (<[ref := data]> s, Ok {| sr_Ref := ref; sr_Size := len data |})
  else (s, Err "digest mismatch").

Definition fetch (ref : Ref) (s : gmap string string) : result string :=
  match s !! ref with
  | Some data => Ok data
  | None => Err "file does not exist"
  end.

Definition stat (ref : Ref) (s : gmap string string) : result SizedRef :=
  match s !! ref with
  | Some data => Ok {| sr_Ref := ref; sr_Size := len data |}
  | None => Err "file does not exist"
  end.

Definition storage : Storage := {| sto_ReceiveBlob := receive; sto_StatBlob := stat |}.


Definition signer : Handler :=
  {| secretRing := "";
     pubKeyBlobRef := "sha1-pubkey" : Ref;
     pubKeyFetcher := tt;
     pubKeyBlobRefServeSuffix := "camli/sha1-pubkey";
     pubKeyHandler := λ _, rw_Write (Text "pubkey");
     pubKeyDest := Some storage;
     pubKeyWritten := false;
     entity := tt |}.

Definition finder (name : string) : string * option HttpHandler * option error :=
  if (name =? "jsonsign")%string then ("/sighelper/", Some (SignHandler signer), None)
  else ("", None, Some "handler not found").

Definition config : Config :=
  {| URLBase := "http://localhost:3179"; HandlerFinder := Some finder |}.

Definition receiver : BlobReceiveConfiger :=
  mkBlobReceiveConfiger receive (Some config) (Some fetch) None.

(** A receiver configured without a base URL. *)
Definition hostless : BlobReceiveConfiger :=
  mkBlobReceiveConfiger receive
    (Some {| URLBase := ""; HandlerFinder := Some finder |}) (Some fetch) None.

(** A receiver whose [Config()] is nil. *)
Definition unconfigured : BlobReceiveConfiger :=
  mkBlobReceiveConfiger receive None (Some fetch) None.

Definition world (s : gmap string string) : World :=
  {| sto := s; trace := []; conn := newResponseWriter |}.

Definition part (disposition body : string) : result Part :=
  Ok {| PartHeader := {[ "Content-Disposition" := [disposition] ]}; PartBody := body |}.

Definition upload (hdr : gmap string (list string)) (parts : MultipartReader) : Request :=
  {| Method := "POST"; URL_Path := "/bs/camli/upload"; Header := hdr; Form := ∅;
     Multipart := Ok parts |}.

Definition post (path : string) (form : gmap string (list string)) : Request :=
  {| Method := "POST"; URL_Path := path; Header := ∅; Form := form;
     Multipart := Err "request Content-Type isn't multipart/form-data" |}.

(** The parts of the example: two valid blobs around a part whose name is
    no blob ref, and a part that is not form data. *)
Definition partA : Part :=
  {| PartHeader := {[ "Content-Disposition" := ["form-data; name=sha1-hello"] ]};
     PartBody := "hello" |}.
Definition partB : Part :=
  {| PartHeader := {[ "Content-Disposition" := ["form-data; name=not-a-ref"] ]};
     PartBody := "x" |}.
Definition partC : Part :=
  {| PartHeader := {[ "Content-Disposition" := ["form-data; name=sha1-hi"] ]};
     PartBody := "hi" |}.
Definition attachment : Part :=
  {| PartHeader := {[ "Content-Disposition" := ["attachment"] ]}; PartBody := "y" |}.
(** A part without disposition, and one whose body is not what its name
    says, which the store refuses. *)
Definition bare : Part := {| PartHeader := ∅; PartBody := "z" |}.
Definition tampered : Part :=
  {| PartHeader := {[ "Content-Disposition" := ["form-data; name=sha1-hey"] ]};
     PartBody := "you" |}.

Definition blobA : SizedRef := {| sr_Ref := "sha1-hello" : Ref; sr_Size := 5 |}.
Definition blobC : SizedRef := {| sr_Ref := "sha1-hi" : Ref; sr_Size := 2 |}.

(** What receiving A, and then C, leaves in the trace and in the store. *)
Definition receivedA : list Event :=
  [CallReceiveBlob ("sha1-hello" : Ref) "hello" (Ok blobA);
   Log ("Received blob %v" +:+ nl) [SizedRef_String blobA]].
Definition receivedC : list Event :=
  [CallReceiveBlob ("sha1-hi" : Ref) "hi" (Ok blobC);
   Log ("Received blob %v" +:+ nl) [SizedRef_String blobC]].
Definition storedA : gmap string string := {[ "sha1-hello" := "hello" ]}.
Definition storedAC : gmap string string := {[ "sha1-hi" := "hi"; "sha1-hello" := "hello" ]}.

(** The example upload, asking for vivification. *)
Definition request : Request :=
  upload {[ "X-Camlistore-Vivify" := ["1"] ]} [Ok partA; Ok partB; Ok partC].

(** [s] repeated [2 ^ k] times. *)
Fixpoint doubled (k : nat) (s : string) : string :=
  match k with
  | O => s
  | S k => doubled k (s +:+ s)
  end.

(** A payload of [kMaxJSONLength + 1] bytes. *)
Definition oversized : string := String "{" (doubled 20 "a").

(** A receiver that re-binds to a request as a plain receiver. *)
Definition wrapping : BlobReceiveConfiger :=
  mkBlobReceiveConfiger receive (Some config) (Some fetch) (Some (λ _, OnlyReceiver receive)).

(** The startup environment: one key in the key ring, whose armored form
    is the text [pubkey]. *)
Definition entityFromSecring (keyId keyFile : string) : result Entity :=
  if (keyId =? "26F5ABDA")%string then Ok tt else Err "key not found in key ring".

Definition addBlob (data : string) : result (Ref * Fetcher) :=
  Ok (digest data : Ref, tt).

Definition startup : Startup :=
  {| os_Getenv := λ _, "/home/camli";
     filepath_Join := String.concat "/";
     jsonsign_EntityFromSecring := entityFromSecring;
     jsonsign_ArmoredPublicKey := λ _, ("pubkey", None);
     MemoryStore_AddBlob := addBlob;
     gethandler_ServeHTTP := λ _ _, rw_Write (Text "pubkey") |}.

Definition loader : Loader :=
  {| GetStorage := λ prefix,
       if (prefix =? "/bs/")%string
       then Ok (Some {| ls_Storage := storage; ls_ContextWrapper := None |})
       else Err "no such storage";
     GetRequestContext := None |}.

(** A configuration with a key id and a destination for the public key. *)
Definition conf : jsonconfig_Obj :=
  {| OptionalString := λ key def, if (key =? "publicKeyDest")%string then "/bs/" else def;
     RequiredString := λ key, if (key =? "keyId")%string then "26F5ABDA" else "";
     Validate := None |}.

End Demo.


(** ** Notions used in the statements *)

Section Statements.
Context `{BT : BaseTypes} `{EX : !Externals}.

(** The messages handed to [addError], oldest first, as its log lines in a
    trace record them. *)
Fixpoint clientErrors (t : list Event) : list string :=
  match t with
  | [] => []
  | Log format [s] :: t =>
    if (format =? "Client error: %s")%string then s :: clientErrors t else clientErrors t
  | _ :: t => clientErrors t
  end.

(** [errText] after [addError(s)]. *)
Definition errTextAfter (errText s : string) : string :=
  if (errText =? "")%string then s else errText +:+ nl +:+ s.

(** The error message of each kind of failure in the ingestion loop. *)
Definition msgBadName (formName : string) : string :=
  "Ignoring form key " +:+ fmt_q formName.
Definition msgBadDisposition (contentDisposition : string) : string :=
  "Expected Content-Disposition of " +:+ dquote +:+ "form-data" +:+ dquote
  +:+ "; got " +:+ fmt_q contentDisposition.
Definition msgReceive (ref : Ref) (err : error) : string :=
  "Error receiving blob " +:+ Ref_String ref +:+ ": " +:+ err +:+ nl.
Definition msgVivify (got : SizedRef) (err : error) : string :=
  "Error vivifying blob " +:+ Ref_String (sr_Ref got) +:+ ": " +:+ err +:+ nl.

(** The disposition and the form name of a part, as the loop reads them. *)
Definition disposition (mimePart : Part) : result (string * gmap string string) :=
  mime_ParseMediaType (Values_Get (PartHeader mimePart) "Content-Disposition").
Definition formNameOf (params : gmap string string) : string :=
  default "" (params !! "name").

(** A stream-framing error at a part, met in store state [s]: the message
    recorded, the store state left, and the storage call made on the way. *)
Inductive FramingError (blobReceiver : option BlobReceiveConfiger) (mimePart : Part)
    (s : Store) : string → Store → list Event → Prop :=
| framing_unparsed (err : error) :
    disposition mimePart = Err err →
    FramingError blobReceiver mimePart s "invalid Content-Disposition" s []
| framing_other_kind (contentDisposition : string) (params : gmap string string) :
    disposition mimePart = Ok (contentDisposition, params) →
    contentDisposition ≠ "form-data" →
    FramingError blobReceiver mimePart s (msgBadDisposition contentDisposition) s []
| framing_receive (r : BlobReceiveConfiger) (params : gmap string string) (ref : Ref)
    (s' : Store) (err : error) :
    blobReceiver = Some r →
    disposition mimePart = Ok ("form-data", params) →
    blob_Parse (formNameOf params) = Some ref →
    ReceiveBlob r ref (PartBody mimePart) s = (s', Err err) →
    FramingError blobReceiver mimePart s (msgReceive ref err) s'
      [CallReceiveBlob ref (PartBody mimePart) (Err err)].

(** A run of valid parts, met in store state [s]: each part is form data,
    its name parses as a blob ref, and the receiver stores its body under
    that ref.  The run leaves the blobs the receiver returned, in the order
    of the parts, the events of the calls, and a store state. *)
Inductive Received (r : BlobReceiveConfiger) :
    MultipartReader → Store → list SizedRef → list Event → Store → Prop :=
| received_none (s : Store) : Received r [] s [] [] s
| received_part (mimePart : Part) (params : gmap string string) (ref : Ref)
    (s s1 s2 : Store) (got : SizedRef) (rest : MultipartReader)
    (blobs : list SizedRef) (t : list Event) :
    disposition mimePart = Ok ("form-data", params) →
    blob_Parse (formNameOf params) = Some ref →
    ReceiveBlob r ref (PartBody mimePart) s = (s1, Ok got) →
    Received r rest s1 blobs t s2 →
    Received r (Ok mimePart :: rest) s (got :: blobs)
      (CallReceiveBlob ref (PartBody mimePart) (Ok got)
       :: Log ("Received blob %v" +:+ nl) [SizedRef_String got] :: t) s2.

(** What a run of the ingestion loop leaves behind: the sequence of received
    blobs it returns (none if it panicked) and the [ReceiveBlob] calls made. *)
Definition receivedOf (r : outcome (list SizedRef * string * MultipartReader) * World)
    : option (list SizedRef) :=
  match r.1 with
  | Done (receivedBlobs, _, _) => Some receivedBlobs
  | Panic _ => None
  end.

(** A [ReceiveBlob] call that stored the blob. *)
Definition isWrite (e : Event) : bool :=
  match e with
  | CallReceiveBlob _ _ (Ok _) => true
  | _ => false
  end.

Definition isReceiveCall (e : Event) : bool :=
  match e with
  | CallReceiveBlob _ _ _ => true
  | _ => false
  end.

Definition isSignCall (e : Event) : bool :=
  match e with
  | CallSign _ => true
  | _ => false
  end.

Definition receiveCalls (w : World) : list Event :=
  List.filter isReceiveCall (trace w).

(** The world after the events [t] were appended to its trace. *)
Definition logged (w : World) (t : list Event) : World :=
  {| sto := sto w; trace := trace w ++ t; conn := conn w |}.

(** A computation that leaves the response writer alone and records no
    client error. *)
Definition silent {A : Type} (c : M A) : Prop :=
  ∀ w, conn (c w).2 = conn w ∧
       ∃ t, trace (c w).2 = trace w ++ t ∧ clientErrors t = [].

(** A computation whose outcome and effect on the store depend on the store
    alone. *)
Definition storeOnly {A : Type} (c : M A) : Prop :=
  ∀ w1 w2, sto w1 = sto w2 → (c w1).1 = (c w2).1 ∧ sto (c w1).2 = sto (c w2).2.

(** [vivify] run on a store state: its outcome and the store it leaves. *)
Definition vivifyOn (blobReceiver : option BlobReceiveConfiger) (got : SizedRef) (s : Store)
    : outcome (option error) * Store :=
  let r := vivify blobReceiver got {| sto := s; trace := []; conn := newResponseWriter |} in
  (r.1, sto r.2).

(** The vivify step over the received blobs, in order, each on the store
    the former left: the outcome for each blob, and the final store. *)
Fixpoint vivifyAll (blobReceiver : option BlobReceiveConfiger) (blobs : list SizedRef)
    (s : Store) : list (SizedRef * outcome (option error)) * Store :=
  match blobs with
  | [] => ([], s)
  | got :: rest =>
    let '(o, s') := vivifyOn blobReceiver got s in
    let '(os, s'') := vivifyAll blobReceiver rest s' in
    ((got, o) :: os, s'')
  end.

(** The refs reported vivified, and the errors recorded, for such outcomes. *)
Definition vivifiedRefs (os : list (SizedRef * outcome (option error))) : list string :=
  omap (λ x, match x.2 with Done None => Some (Ref_String (sr_Ref x.1)) | _ => None end) os.

Definition vivifyErrors (os : list (SizedRef * outcome (option error))) : list string :=
  omap (λ x, match x.2 with Done (Some err) => Some (msgVivify x.1 err) | _ => None end) os.

(** The response object of the upload endpoint, as the interface describes
    it: the echoed configuration (with the upload URL when it could be
    built), the received blobs, and, when errors were recorded, their
    messages joined by newlines under [errorText]. *)
Definition configResponse (uploadUrl : option string) : gmap string JSON :=
  let ret : gmap string JSON :=
    <["uploadUrlExpirationSeconds" := JInt 86400]> {[ "maxUploadSize" := JInt MaxBlobSize ]} in
  match uploadUrl with
  | Some url => <["uploadUrl" := JStr url]> ret
  | None => ret
  end.

Definition responseOn (ret : gmap string JSON) (receivedBlobs : list SizedRef)
    (errors : list string) : gmap string JSON :=
  let ret := <["received" := JArr (receivedJSON <$> receivedBlobs)]> ret in
  match errors with
  | [] => ret
  | _ :: _ => <["errorText" := JStr (String.concat nl errors)]> ret
  end.

Definition uploadResponse (baseURL : string) (receivedBlobs : list SizedRef)
    (errors : list string) : gmap string JSON :=
  responseOn (configResponse (Some (baseURL +:+ "/camli/upload"))) receivedBlobs errors.

(** The status codes of HTTP-level client errors. *)
Definition isClientError (code : Z) : bool := (400 <=? code) && (code <? 500).

(** A request the upload handler accepts: a POST under the upload path. *)
Definition isUpload (req : Request) : Prop :=
  Method req = "POST" ∧ strings_Contains (URL_Path req) "/camli/upload" = true.

(** Whether the request asks for vivification. *)
Definition vivifyRequested (req : Request) : bool :=
  (Values_Get (Header req) "X-Camlistore-Vivify" =? "1")%string.

(** [rw.Header().Values(key)] *)
Definition headerValues (rw : ResponseWriter) (key : string) : list string :=
  default [] (rwHeader rw !! key).

(** The text of a valid blob ref parses as a blob ref. *)
Definition StringParses : Prop :=
  ∀ r : Ref, Ref_Valid r = true → is_Some (blob_Parse (Ref_String r)).

(** The blobs that the [ReceiveBlob] calls of a trace stored, oldest first. *)
Definition storedBlobs (t : list Event) : list SizedRef :=
  omap (λ e, match e with CallReceiveBlob _ _ (Ok got) => Some got | _ => None end) t.

(** An event the ingestion loop may leave for a stream: a log line, or a
    [ReceiveBlob] call for a form-data part of the stream, under the ref
    its name parses to and with its body. *)
Definition ingestionEvent (parts : MultipartReader) (e : Event) : Prop :=
  match e with
  | Log _ _ => True
  | CallReceiveBlob ref data _ =>
    ∃ mimePart params,
      Ok mimePart ∈ parts ∧
      disposition mimePart = Ok ("form-data", params) ∧
      blob_Parse (formNameOf params) = Some ref ∧
      data = PartBody mimePart
  | CallStatBlob _ _ | CallSign _ => False
  end.


(** The storage the constructor publishes the key to: the loaded storage,
    re-bound to the request context when there is one and the storage is a
    context wrapper. *)
Definition publishTo (ld : Loader) (loaded : LoadedStorage) : Storage :=
  match GetRequestContext ld, ls_ContextWrapper loaded with
  | Some ctxReq, Some w => w ctxReq
  | _, _ => ls_Storage loaded
  end.

(** The sign request [handleSign] makes for a payload. *)
Definition signRequestFor (h : Handler) (jsonStr : string) : SignRequest :=
  {| UnsignedJSON := jsonStr;
     sreq_Fetcher := pubKeyFetcher h;
     ServerMode := true;
     SecretKeyringPath := secretRing h;
     SignatureTime := None |}.

Definition isStorageCall (e : Event) : bool :=
  match e with
  | CallReceiveBlob _ _ _ | CallStatBlob _ _ => true
  | _ => false
  end.

(** [n] successive invocations of the key-publication step against one
    destination. *)
Fixpoint republish (n : nat) (h : Handler) (dest : Storage) (key : string) : M unit :=
  match n with
  | O => mret tt
  | S n => uploadPublicKey h dest key;; republish n h dest key
  end.

(** The JSON object of a verification result: [signatureValid] with either
    the signer and the verified payload, or the error message. *)
Definition verifyResponse (res : result (string * gmap string JSON)) : gmap string JSON :=
  match res with
  | Ok (signerKeyId, payload) =>
    <["verifiedData" := JObj payload]>
      (<["signerKeyId" := JStr signerKeyId]> {[ "signatureValid" := JInt 1 ]})
  | Err errorMessage =>
    <["errorMessage" := JStr errorMessage]> {[ "signatureValid" := JInt 0 ]}
  end.

(** The storage contract behind "the blob exists at the destination": a
    blob that [ReceiveBlob] stored is found by [StatBlob]. *)
Definition StatFindsReceived (dest : Storage) : Prop :=
  ∀ ref data s s' got,
    sto_ReceiveBlob dest ref data s = (s', Ok got) →
    ∃ sr, sto_StatBlob dest ref s' = Ok sr.

End Statements.

(** * Properties *)

Section Properties.
Context `{BT : BaseTypes} `{EX : !Externals}.

Ltac mstep := unfold mbind, mret, M_bind, M_ret; cbn beta iota.

(** ** Vivification *)

(** C5.  When the number of bytes obtained by reading the file back differs
    from the size its description declares, [vivify] returns an error and
    leaves the world as it found it: the store is unchanged, and no
    [ReceiveBlob] or signing call was made, so neither a permanode nor a
    claim was published. *)
Theorem vivify_size_mismatch_publishes_nothing
    (blobReceiver : option BlobReceiveConfiger) (fileblob : SizedRef) (w : World)
    (sf : Ref → Store → result string) (fr : FileReader) :
  blobReceiver ≫= StreamingFetcher = Some sf →
  schema_NewFileReader (λ r, sf r (sto w)) (sr_Ref fileblob) = Ok fr →
  len (fr_Read fr).1 ≠ fr_Size fr →
  ∃ err, vivify blobReceiver fileblob w = (Done (Some err), w).
Proof.
  intros Hsf Hfr Hn. unfold vivify. rewrite Hsf. mstep.
  unfold getStore. rewrite Hfr. unfold io_Copy.
  destruct (fr_Read fr) as [bytes [err|]]; cbn in Hn |- *.
  - eauto.
  - destruct (Z.eqb_spec (len bytes) (fr_Size fr)); [done|]. cbn. eauto.
Qed.

Lemma SignRequest_Sign_eq (sreq : SignRequest) (w : World) :
  SignRequest_Sign sreq w = (Done (jsonsign_Sign sreq), logged w [CallSign sreq]).
Proof. reflexivity. Qed.

Lemma callReceive_eq (f : ReceiveFn) (ref : Ref) (data : string) (w : World) :
  callReceive f ref data w =
  (Done (f ref data (sto w)).2,
   {| sto := (f ref data (sto w)).1;
      trace := trace w ++ [CallReceiveBlob ref data (f ref data (sto w)).2];
      conn := conn w |}).
Proof.
  unfold callReceive. mstep. unfold getStore.
  destruct (f ref data (sto w)) as [s' res]. reflexivity.
Qed.

Lemma IsMissingField_MissingFieldError (field : string) :
  IsMissingField (MissingFieldError field) = true.
Proof. reflexivity. Qed.

(** What a successful [Handler.Sign] did: one request went to the signing
    primitive, over the builder's JSON with the handler's signer injected,
    and its signature time is the claim date the builder declares. *)
Lemma Handler_Sign_ok (h : Handler) (bb : Builder) (w w' : World) (signed : string) :
  Handler_Sign h bb w = (Done (signed, None), w') →
  ∃ sreq,
    Builder_JSON (SetSigner (pubKeyBlobRef h) bb) = Ok (UnsignedJSON sreq) ∧
    SignatureTime sreq = bb_claimDate bb ∧
    signed = (jsonsign_Sign sreq).1 ∧
    w' = logged w [CallSign sreq].
Proof.
  unfold Handler_Sign, Blob_ClaimDate. cbn [SetSigner bb_claimDate].
  destruct (Builder_JSON _) as [unsigned|]; [|done].
  destruct (bb_claimDate bb) as [t|]; rewrite ?IsMissingField_MissingFieldError;
    cbn [negb]; rewrite SignRequest_Sign_eq;
    intros [= Hs <-];
    match type of Hs with jsonsign_Sign ?r = _ => exists r end;
    by rewrite Hs.
Qed.

(** C6.  A successful [vivify] made exactly two signing requests and two
    uploads, and one claim date, parsed from the modification time the file
    schema declares, is at once the signature time of the permanode's
    request, the claim date the content claim declares, and the signature
    time of the claim's request. *)
Theorem vivify_one_claim_date
    (blobReceiver : option BlobReceiveConfiger) (fileblob : SizedRef) (w w' : World) :
  vivify blobReceiver fileblob w = (Done None, w') →
  ∃ sf fr claimDate permanodeBB claimBB sreqP sreqC gotP gotC,
    blobReceiver ≫= StreamingFetcher = Some sf ∧
    schema_NewFileReader (λ r, sf r (sto w)) (sr_Ref fileblob) = Ok fr ∧
    time_Parse_RFC3339 (UnixMtime (fr_FileSchema fr)) = Ok claimDate ∧
    bb_claimDate permanodeBB = Some claimDate ∧
    Builder_JSON permanodeBB = Ok (UnsignedJSON sreqP) ∧
    SignatureTime sreqP = Some claimDate ∧
    bb_claimDate claimBB = Some claimDate ∧
    Builder_JSON claimBB = Ok (UnsignedJSON sreqC) ∧
    SignatureTime sreqC = Some claimDate ∧
    trace w' = trace w ++
      [CallSign sreqP;
       CallReceiveBlob (blob_SHA1FromString (jsonsign_Sign sreqP).1)
                       (jsonsign_Sign sreqP).1 (Ok gotP);
       CallSign sreqC;
       CallReceiveBlob (blob_SHA1FromString (jsonsign_Sign sreqC).1)
                       (jsonsign_Sign sreqC).1 (Ok gotC)].
Proof.
  unfold vivify. destruct blobReceiver as [br|]; [|done]. cbn [mbind option_bind].
  destruct (StreamingFetcher br) as [sf|] eqn:Hsf; [|done].
  mstep. unfold getStore.
  destruct (schema_NewFileReader _ _) as [fr|] eqn:Hfr; [|done].
  unfold io_Copy. destruct (fr_Read fr) as [bytes [err|]] eqn:Hread; [done|].
  destruct (negb _) eqn:Hn; [done|].
  destruct (Config_ br) as [config|] eqn:Hcfg; [|done].
  destruct (HandlerFinder config) as [hf|] eqn:Hhf; [|done].
  destruct (hf "jsonsign") as [[JSONSignRoot sh] err] eqn:Hfind.
  destruct err; [done|]. destruct sh as [[sigHelper|]|]; [|done|done].
  destruct (DiscoveryMap sigHelper JSONSignRoot !! "publicKeyBlobRef")
    as [[| | publicKeyBlobRef | |]|] eqn:Hdisco; try done.
  destruct (time_Parse_RFC3339 _) as [claimDate|] eqn:Htime; [|done].
  unfold blob_MustParse. destruct (blob_Parse publicKeyBlobRef) as [signer|] eqn:Hparse; [|done].
  mstep. cbn [BlobReceiver_ReceiveBlob].
  match goal with
  | |- context [Handler_Sign sigHelper ?bb w] =>
    destruct (Handler_Sign sigHelper bb w) as [[[permanodeSigned [e|]]|] w1] eqn:HsignP
  end; try done.
  apply Handler_Sign_ok in HsignP as (sreqP & HjsonP & HtimeP & -> & ->).
  rewrite callReceive_eq. cbn [logged sto trace conn].
  destruct (ReceiveBlob br _ _ (sto w)) as [s1 [gotP|]] eqn:HrecvP; cbn [fst snd]; [|done].
  match goal with
  | |- context [Handler_Sign sigHelper ?bb ?w1] =>
    destruct (Handler_Sign sigHelper bb w1) as [[[claimSigned [e|]]|] w2] eqn:HsignC
  end; try done.
  apply Handler_Sign_ok in HsignC as (sreqC & HjsonC & HtimeC & -> & ->).
  rewrite callReceive_eq. cbn [logged sto trace conn].
  destruct (ReceiveBlob br _ _ s1) as [s2 [gotC|]] eqn:HrecvC; cbn [fst snd]; [|done].
  intros [= <-].
  match type of HjsonP with Builder_JSON ?bbP = _ =>
    match type of HjsonC with Builder_JSON ?bbC = _ =>
      exists sf, fr, claimDate, bbP, bbC, sreqP, sreqC, gotP, gotC
    end
  end.
  split_and!; [done|done|done|done|exact HjsonP|exact HtimeP|done|exact HjsonC|exact HtimeC|].
  cbn. by rewrite <- !app_assoc.
Qed.

(** ** Key publication *)





(** ** The sign and verify endpoints *)

(** C8 (amended).  A POST to the verify endpoint that carries a non-empty
    [sjson] field is answered with status 200 and one JSON object: either
    [signatureValid = 1] with the signer key id and the verified data, or
    [signatureValid = 0] with the error message.  An invalid signature is
    never an HTTP-level error. *)
Theorem verify_post_always_200 (h : Handler) (req : Request) (w : World) :
  Method req = "POST" →
  httputil_PathSuffix req = "camli/sig/verify" →
  FormValue req "sjson" ≠ "" →
  rwStatus (conn w) = None →
  ServeHTTP h req w =
  (Done tt,
   {| sto := sto w;
      trace := trace w;
      conn := {| rwHeader := rwHeader (conn w);
                 rwStatus := Some StatusOK;
                 rwBody := rwBody (conn w) ++
                   [JSONDoc (JObj (verifyResponse
                      (jsonsign_Verify (FormValue req "sjson") (pubKeyFetcher h))))] |} |}).
Proof.
  intros Hm Hp Hs Hfresh. unfold ServeHTTP. rewrite Hm, Hp. cbn [String.eqb Ascii.eqb Bool.eqb].
  cbn -[handleVerify].
  unfold handleVerify. apply String.eqb_neq in Hs. rewrite Hs.
  mstep. unfold httputil_ReturnJSON, onConn, rw_Write, rw_WriteHeader. cbn. rewrite Hfresh. cbn.
  unfold verifyResponse.
  by destruct (jsonsign_Verify _ _) as [[keyId payload]|e].
Qed.

(** C9.  A sign request whose [json] field is longer than [kMaxJSONLength]
    is answered with a client error, and the only thing the handler did
    besides is log it: no request reached the signing primitive. *)
Theorem handleSign_rejects_oversized (h : Handler) (req : Request) (w : World) :
  len (FormValue req "json") > kMaxJSONLength →
  let msg := "parameter " +:+ dquote +:+ "json" +:+ dquote +:+ " too large" in
  handleSign h req w =
  (Done tt,
   {| sto := sto w;
      trace := trace w ++ [Log "bad request: %s" [msg]];
      conn := rw_Write (Text msg) (rw_WriteHeader StatusBadRequest (conn w)) |}).
Proof.
  intros Hlen msg. unfold handleSign.
  destruct (FormValue req "json") as [|c s] eqn:Hjson.
  - exfalso. revert Hlen. vm_compute. discriminate.
  - cbn [String.eqb]. apply Z.gtb_gt in Hlen. rewrite Hlen. reflexivity.
Qed.

(** ** The ingestion loop, one iteration at a time *)

Lemma addError_eq (errText s : string) (w : World) :
  addError errText s w =
  (Done (errTextAfter errText s), logged w [Log "Client error: %s" [s]]).
Proof.
  unfold addError, errTextAfter, log_Printf, emit, logged. mstep.
  by destruct (errText =? "")%string.
Qed.

Section Iteration.
Variables (blobReceiver : option BlobReceiveConfiger) (mimePart : Part)
  (rest : MultipartReader) (receivedBlobs : list SizedRef) (errText : string) (w : World).

Lemma ingestLoop_eof :
  ingestLoop blobReceiver [] receivedBlobs errText w = (Done (receivedBlobs, errText, []), w).
Proof. reflexivity. Qed.

Lemma ingestLoop_read_error (err : error) :
  ingestLoop blobReceiver (Err err :: rest) receivedBlobs errText w =
  (Done (receivedBlobs, errTextAfter errText ("Error reading multipart section: " +:+ err), rest),
   logged w [Log "Client error: %s" ["Error reading multipart section: " +:+ err]]).
Proof. cbn [ingestLoop]. mstep. by rewrite addError_eq. Qed.

Lemma ingestLoop_unparsed_disposition (err : error) :
  disposition mimePart = Err err →
  ingestLoop blobReceiver (Ok mimePart :: rest) receivedBlobs errText w =
  (Done (receivedBlobs, errTextAfter errText "invalid Content-Disposition", rest),
   logged w [Log "Client error: %s" ["invalid Content-Disposition"]]).
Proof.
  unfold disposition. intros Hd. cbn [ingestLoop]. rewrite Hd. mstep. by rewrite addError_eq.
Qed.

Lemma ingestLoop_other_disposition (contentDisposition : string) (params : gmap string string) :
  disposition mimePart = Ok (contentDisposition, params) →
  contentDisposition ≠ "form-data" →
  ingestLoop blobReceiver (Ok mimePart :: rest) receivedBlobs errText w =
  (Done (receivedBlobs, errTextAfter errText (msgBadDisposition contentDisposition), rest),
   logged w [Log "Client error: %s" [msgBadDisposition contentDisposition]]).
Proof.
  unfold disposition. intros Hd Hne. cbn [ingestLoop]. rewrite Hd.
  apply String.eqb_neq in Hne. rewrite Hne. cbn [negb]. mstep. by rewrite addError_eq.
Qed.

Lemma ingestLoop_bad_name (params : gmap string string) :
  disposition mimePart = Ok ("form-data", params) →
  blob_Parse (formNameOf params) = None →
  ingestLoop blobReceiver (Ok mimePart :: rest) receivedBlobs errText w =
  ingestLoop blobReceiver rest receivedBlobs
    (errTextAfter errText (msgBadName (formNameOf params)))
    (logged w [Log "Client error: %s" [msgBadName (formNameOf params)]]).
Proof.
  unfold disposition, formNameOf. intros Hd Hp. cbn [ingestLoop]. rewrite Hd.
  cbn [String.eqb Ascii.eqb Bool.eqb andb negb]. rewrite Hp. mstep. by rewrite addError_eq.
Qed.

Lemma ingestLoop_nil_receiver (params : gmap string string) (ref : Ref) :
  blobReceiver = None →
  disposition mimePart = Ok ("form-data", params) →
  blob_Parse (formNameOf params) = Some ref →
  ingestLoop blobReceiver (Ok mimePart :: rest) receivedBlobs errText w =
  (Panic "invalid memory address or nil pointer dereference", w).
Proof.
  unfold disposition, formNameOf. intros -> Hd Hp. cbn [ingestLoop]. rewrite Hd.
  cbn [String.eqb Ascii.eqb Bool.eqb andb negb]. rewrite Hp. reflexivity.
Qed.

Lemma ingestLoop_receive (r : BlobReceiveConfiger) (params : gmap string string) (ref : Ref) :
  blobReceiver = Some r →
  disposition mimePart = Ok ("form-data", params) →
  blob_Parse (formNameOf params) = Some ref →
  ingestLoop blobReceiver (Ok mimePart :: rest) receivedBlobs errText w =
  let body := PartBody mimePart in
  let res := ReceiveBlob r ref body (sto w) in
  match res.2 with
  | Err err =>
    (Done (receivedBlobs, errTextAfter errText (msgReceive ref err), rest),
     {| sto := res.1;
        trace := trace w ++ [CallReceiveBlob ref body (Err err);
                             Log "Client error: %s" [msgReceive ref err]];
        conn := conn w |})
  | Ok blobGot =>
    ingestLoop blobReceiver rest (receivedBlobs ++ [blobGot]) errText
      {| sto := res.1;
         trace := trace w ++ [CallReceiveBlob ref body (Ok blobGot);
                              Log ("Received blob %v" +:+ nl) [SizedRef_String blobGot]];
         conn := conn w |}
  end.
Proof.
  unfold disposition, formNameOf. intros -> Hd Hp. cbn [ingestLoop]. rewrite Hd.
  cbn [String.eqb Ascii.eqb Bool.eqb andb negb]. rewrite Hp.
  cbn [oldAppEngineHappySpec andb BlobReceiver_ReceiveBlob]. mstep.
  rewrite callReceive_eq. cbn zeta.
  destruct (ReceiveBlob r ref (PartBody mimePart) (sto w)) as [s' [got|err]]; cbn [fst snd].
  - unfold log_Printf, emit. cbn [sto trace conn]. by rewrite <- app_assoc.
  - rewrite addError_eq. unfold logged. cbn [sto trace conn]. by rewrite <- app_assoc.
Qed.

End Iteration.

(** ** The loop does not look at the error text *)

Lemma receiveCalls_app (s : Store) (t1 t2 : list Event) (c : ResponseWriter) :
  receiveCalls {| sto := s; trace := t1 ++ t2; conn := c |} =
  List.filter isReceiveCall t1 ++ List.filter isReceiveCall t2.
Proof. unfold receiveCalls. cbn [trace]. apply List.filter_app. Qed.

(** Case analysis on what the loop meets at the head of the stream. *)
Ltac iteration blobReceiver x :=
  let mimePart := fresh "mimePart" in
  let params := fresh "params" in
  let Hd := fresh "Hd" in
  let Hp := fresh "Hp" in
  destruct x as [mimePart|?];
  [ destruct (disposition mimePart) as [[? params]|?] eqn:Hd;
    [ match type of Hd with _ = Ok (?d, _) =>
        destruct (decide (d = "form-data")) as [->|?] end;
      [ destruct (blob_Parse (formNameOf params)) eqn:Hp;
        [ destruct blobReceiver | ]
      | ]
    | ]
  | ].

Lemma ingestLoop_indep (blobReceiver : option BlobReceiveConfiger) (parts : MultipartReader) :
  ∀ (receivedBlobs : list SizedRef) (e1 e2 : string) (w1 w2 : World),
    sto w1 = sto w2 →
    receiveCalls w1 = receiveCalls w2 →
    let r1 := ingestLoop blobReceiver parts receivedBlobs e1 w1 in
    let r2 := ingestLoop blobReceiver parts receivedBlobs e2 w2 in
    receivedOf r1 = receivedOf r2 ∧ sto r1.2 = sto r2.2 ∧ receiveCalls r1.2 = receiveCalls r2.2.
Proof.
  induction parts as [|x parts IH]; intros receivedBlobs e1 e2 w1 w2 Hsto Hcalls; cbn zeta.
  { by rewrite !ingestLoop_eof. }
  iteration blobReceiver x.
  - rewrite !(ingestLoop_receive _ _ _ _ _ _ _ _ _ eq_refl Hd Hp). cbn zeta.
    rewrite <- Hsto.
    destruct (ReceiveBlob _ _ _ (sto w1)) as [s' [got|err]]; cbn [fst snd].
    + apply IH; [done|]. rewrite !receiveCalls_app. unfold receiveCalls in Hcalls. by rewrite Hcalls.
    + split_and!; [done|done|].
      cbn [snd]. rewrite !receiveCalls_app. unfold receiveCalls in Hcalls. by rewrite Hcalls.
  - by rewrite !(ingestLoop_nil_receiver _ _ _ _ _ _ _ _ eq_refl Hd Hp).
  - rewrite !(ingestLoop_bad_name _ _ _ _ _ _ _ Hd Hp).
    apply IH; [done|]. unfold logged. rewrite !receiveCalls_app.
    unfold receiveCalls in Hcalls. by rewrite Hcalls.
  - rewrite !(ingestLoop_other_disposition _ _ _ _ _ _ _ _ Hd) by done.
    split_and!; [done|done|]. cbn [snd]. unfold logged. rewrite !receiveCalls_app.
    unfold receiveCalls in Hcalls. by rewrite Hcalls.
  - rewrite !(ingestLoop_unparsed_disposition _ _ _ _ _ _ _ Hd).
    split_and!; [done|done|]. cbn [snd]. unfold logged. rewrite !receiveCalls_app.
    unfold receiveCalls in Hcalls. by rewrite Hcalls.
  - rewrite !ingestLoop_read_error.
    split_and!; [done|done|]. cbn [snd]. unfold logged. rewrite !receiveCalls_app.
    unfold receiveCalls in Hcalls. by rewrite Hcalls.
Qed.

Lemma clientErrors_app (t1 t2 : list Event) :
  clientErrors (t1 ++ t2) = clientErrors t1 ++ clientErrors t2.
Proof.
  induction t1 as [|e t1 IH]; [done|].
  destruct e as [format [|s [|s' args]]| | |]; cbn; rewrite ?IH; try done.
  by destruct (format =? "Client error: %s")%string; cbn; rewrite ?IH.
Qed.

(** The loop goes through a run of valid parts: it calls [ReceiveBlob] for
    each and goes on with the rest of the stream, the blobs appended to the
    received ones. *)
Lemma ingestLoop_received (r : BlobReceiveConfiger) (parts : MultipartReader) (s : Store)
    (blobs : list SizedRef) (t : list Event) (s1 : Store) :
  Received r parts s blobs t s1 →
  ∀ rest receivedBlobs errText w,
    sto w = s →
    ingestLoop (Some r) (parts ++ rest) receivedBlobs errText w =
    ingestLoop (Some r) rest (receivedBlobs ++ blobs) errText
      {| sto := s1; trace := trace w ++ t; conn := conn w |}.
Proof.
  induction 1 as [s|mimePart params ref s s1 s2 got parts blobs t Hd Hp Hrecv _ IH];
    intros rest receivedBlobs errText w Hsto.
  - rewrite !app_nil_r. subst s. by destruct w.
  - cbn [app]. rewrite (ingestLoop_receive _ _ _ _ _ _ _ _ _ eq_refl Hd Hp). cbn zeta.
    rewrite Hsto, Hrecv. cbn [fst snd]. rewrite IH by done. cbn [trace conn].
    by rewrite <- !app_assoc.
Qed.

Lemma Received_clientErrors (r : BlobReceiveConfiger) (parts : MultipartReader) (s : Store)
    (blobs : list SizedRef) (t : list Event) (s1 : Store) :
  Received r parts s blobs t s1 → clientErrors t = [].
Proof. induction 1; [done|]. cbn. done. Qed.

(** C1.  A part whose name is no blob ref is skipped, alone: the loop
    records the error and goes on with the next part from an otherwise
    unchanged state.  When the parts before and after it are valid, each of
    them is handed to [ReceiveBlob] and the loop reads the stream to its
    end: its result is the blobs received from the parts before, then those
    from the parts after, the store is the one these calls left, and the
    only error recorded is that of the skipped part.  And wherever the part
    stands in a stream, the blobs received, the store and the [ReceiveBlob]
    calls are those of the same stream without it. *)
Theorem unparsable_name_skips_one_part
    (blobReceiver : option BlobReceiveConfiger) (mimePart : Part)
    (params : gmap string string) :
  disposition mimePart = Ok ("form-data", params) →
  blob_Parse (formNameOf params) = None →
  let msg := msgBadName (formNameOf params) in
  (∀ rest receivedBlobs errText w,
     ingestLoop blobReceiver (Ok mimePart :: rest) receivedBlobs errText w =
     ingestLoop blobReceiver rest receivedBlobs (errTextAfter errText msg)
       (logged w [Log "Client error: %s" [msg]])) ∧
  (∀ r pre post receivedBlobs errText w blobsPre tPre s1 blobsPost tPost s2,
     blobReceiver = Some r →
     Received r pre (sto w) blobsPre tPre s1 →
     Received r post s1 blobsPost tPost s2 →
     ingestLoop blobReceiver (pre ++ Ok mimePart :: post) receivedBlobs errText w =
     (Done (receivedBlobs ++ blobsPre ++ blobsPost, errTextAfter errText msg, []),
      {| sto := s2;
         trace := trace w ++ tPre ++ [Log "Client error: %s" [msg]] ++ tPost;
         conn := conn w |}) ∧
     clientErrors (tPre ++ [Log "Client error: %s" [msg]] ++ tPost) = [msg]) ∧
  (∀ pre post receivedBlobs errText w,
     let run := ingestLoop blobReceiver (pre ++ Ok mimePart :: post) receivedBlobs errText w in
     let without := ingestLoop blobReceiver (pre ++ post) receivedBlobs errText w in
     receivedOf run = receivedOf without ∧
     sto run.2 = sto without.2 ∧
     receiveCalls run.2 = receiveCalls without.2).
Proof.
  intros Hdisp Hname msg. split_and!.
  { intros. by apply ingestLoop_bad_name. }
  { intros r pre post receivedBlobs errText w blobsPre tPre s1 blobsPost tPost s2 -> Hpre Hpost.
    split.
    - rewrite (ingestLoop_received _ _ _ _ _ _ Hpre) by done.
      rewrite (ingestLoop_bad_name _ _ _ _ _ _ _ Hdisp Hname).
      rewrite <- (app_nil_r post).
      rewrite (ingestLoop_received _ _ _ _ _ _ Hpost) by done.
      rewrite ingestLoop_eof. unfold logged. cbn [sto trace conn].
      by rewrite <- !app_assoc.
    - rewrite !clientErrors_app, (Received_clientErrors _ _ _ _ _ _ Hpre),
        (Received_clientErrors _ _ _ _ _ _ Hpost). done. }
  induction pre as [|x pre IH]; intros post receivedBlobs errText w; cbn zeta; cbn [app].
  { rewrite (ingestLoop_bad_name _ _ _ _ _ _ _ Hdisp Hname).
    apply ingestLoop_indep; [done|]. unfold logged. rewrite receiveCalls_app.
    cbn. by rewrite app_nil_r. }
  iteration blobReceiver x.
  - rewrite !(ingestLoop_receive _ _ _ _ _ _ _ _ _ eq_refl Hd Hp). cbn zeta.
    destruct (ReceiveBlob _ _ _ (sto w)) as [s' [got|err]]; cbn [fst snd]; [apply IH|done].
  - by rewrite !(ingestLoop_nil_receiver _ _ _ _ _ _ _ _ eq_refl Hd Hp).
  - rewrite !(ingestLoop_bad_name _ _ _ _ _ _ _ Hd Hp). apply IH.
  - by rewrite !(ingestLoop_other_disposition _ _ _ _ _ _ _ _ Hd).
  - by rewrite !(ingestLoop_unparsed_disposition _ _ _ _ _ _ _ Hd).
  - by rewrite !ingestLoop_read_error.
Qed.

(** The loop stops at a framing error: what it had received is its result,
    the error is recorded, and the rest of the stream is handed back
    unread. *)
Lemma ingestLoop_framing_error (blobReceiver : option BlobReceiveConfiger)
    (mimePart : Part) (w : World) (msg : string) (s' : Store) (calls : list Event) :
  FramingError blobReceiver mimePart (sto w) msg s' calls →
  ∀ rest receivedBlobs errText,
    ingestLoop blobReceiver (Ok mimePart :: rest) receivedBlobs errText w =
    (Done (receivedBlobs, errTextAfter errText msg, rest),
     {| sto := s';
        trace := trace w ++ calls ++ [Log "Client error: %s" [msg]];
        conn := conn w |}).
Proof.
  intros [err Hd|d params Hd Hne|r params ref s1 err -> Hd Hp Hrecv] rest receivedBlobs errText.
  - by rewrite (ingestLoop_unparsed_disposition _ _ _ _ _ _ _ Hd).
  - by rewrite (ingestLoop_other_disposition _ _ _ _ _ _ _ _ Hd Hne).
  - rewrite (ingestLoop_receive _ _ _ _ _ _ _ _ _ eq_refl Hd Hp). cbn zeta.
    by rewrite Hrecv.
Qed.

(** ** What [vivify] is made of *)

(** [vivify] is built from the monad operations, reads of the store,
    [ReceiveBlob] calls and signing requests: a property of computations
    that these have and that sequencing preserves holds of [vivify]. *)
Lemma vivify_structural (P : ∀ A : Type, M A → Prop) :
  (∀ A (a : A), P A (mret a)) →
  (∀ A msg, P A (panic msg)) →
  (∀ A B (c : M A) (k : A → M B), P A c → (∀ a, P B (k a)) → P B (c ≫= k)) →
  P Store getStore →
  (∀ f ref data, P _ (callReceive f ref data)) →
  (∀ sreq, P _ (SignRequest_Sign sreq)) →
  ∀ blobReceiver fileblob, P _ (vivify blobReceiver fileblob).
Proof.
  intros Hret Hpanic Hbind Hget Hrecv Hsign blobReceiver fileblob.
  assert (HS : ∀ h bb, P _ (Handler_Sign h bb)).
  { intros h bb. unfold Handler_Sign.
    destruct (Builder_JSON _); [|apply Hret].
    destruct (Blob_ClaimDate _); [apply Hsign|].
    destruct (negb _); [apply Hret|apply Hsign]. }
  assert (HR : ∀ ref data, P _ (BlobReceiver_ReceiveBlob blobReceiver ref data)).
  { intros. unfold BlobReceiver_ReceiveBlob. destruct blobReceiver; [apply Hrecv|apply Hpanic]. }
  assert (HM : ∀ s, P _ (blob_MustParse s)).
  { intros. unfold blob_MustParse. destruct (blob_Parse s); [apply Hret|apply Hpanic]. }
  unfold vivify.
  destruct (blobReceiver ≫= StreamingFetcher); [|apply Hret].
  apply Hbind; [apply Hget|]. intros s.
  destruct (schema_NewFileReader _ _); [|apply Hret].
  destruct (io_Copy _ _) as [[h n] [err|]]; [apply Hret|].
  destruct (negb _); [apply Hret|].
  destruct (blobReceiver ≫= Config_) as [config|]; [|apply Hret].
  destruct (HandlerFinder config) as [hf|]; [|apply Hret].
  destruct (hf "jsonsign") as [[JSONSignRoot sh] [err|]]; [apply Hret|].
  destruct sh as [[sigHelper|]|]; [|apply Hret|apply Hret].
  destruct (DiscoveryMap _ _ !! _) as [[| | publicKeyBlobRef | |]|]; try apply Hret.
  destruct (time_Parse_RFC3339 _); [|apply Hret].
  apply Hbind; [apply HM|]. intros signer.
  apply Hbind; [apply HS|]. intros [permanodeSigned [err|]]; [apply Hret|].
  apply Hbind; [apply HR|]. intros [gotP|err]; [|apply Hret].
  apply Hbind; [apply HM|]. intros signer'.
  apply Hbind; [apply HS|]. intros [claimSigned [err|]]; [apply Hret|].
  apply Hbind; [apply HR|]. intros [gotC|err]; apply Hret.
Qed.

Lemma silent_bind {A B : Type} (c : M A) (k : A → M B) :
  silent c → (∀ a, silent (k a)) → silent (c ≫= k).
Proof.
  intros Hc Hk w. unfold mbind, M_bind.
  destruct (Hc w) as (Hconn & t & Ht & He).
  destruct (c w) as [[a|msg] w1]; cbn [fst snd] in *.
  - destruct (Hk a w1) as (Hconn' & t' & Ht' & He').
    split; [congruence|]. exists (t ++ t'). rewrite Ht', Ht, app_assoc.
    split; [done|]. by rewrite clientErrors_app, He, He'.
  - eauto.
Qed.

Lemma silent_now {A : Type} (o : outcome A) : silent (λ w, (o, w)).
Proof. intros w. split; [done|]. exists []. by rewrite app_nil_r. Qed.

Lemma silent_callReceive (f : ReceiveFn) (ref : Ref) (data : string) :
  silent (callReceive f ref data).
Proof. intros w. rewrite callReceive_eq. split; [done|]. by eexists [_]. Qed.

Lemma silent_vivify (blobReceiver : option BlobReceiveConfiger) (fileblob : SizedRef) :
  silent (vivify blobReceiver fileblob).
Proof.
  apply (vivify_structural (@silent _)).
  - intros A a. exact (silent_now (Done a)).
  - intros A msg. exact (silent_now (Panic msg)).
  - intros. by apply silent_bind.
  - intros w. split; [done|]. exists []. by rewrite app_nil_r.
  - apply silent_callReceive.
  - intros sreq w. split; [done|]. by exists [CallSign sreq].
Qed.

Lemma storeOnly_bind {A B : Type} (c : M A) (k : A → M B) :
  storeOnly c → (∀ a, storeOnly (k a)) → storeOnly (c ≫= k).
Proof.
  intros Hc Hk w1 w2 Hsto. unfold mbind, M_bind.
  destruct (Hc w1 w2 Hsto) as [Ho Hs].
  destruct (c w1) as [[a|msg] w1'], (c w2) as [[a'|msg'] w2']; cbn [fst snd] in *; try done.
  - injection Ho as <-. by apply Hk.
  - by injection Ho as <-.
Qed.

Lemma storeOnly_vivify (blobReceiver : option BlobReceiveConfiger) (fileblob : SizedRef) :
  storeOnly (vivify blobReceiver fileblob).
Proof.
  apply (vivify_structural (@storeOnly _)).
  - by intros A a w1 w2.
  - by intros A msg w1 w2.
  - intros. by apply storeOnly_bind.
  - intros w1 w2 Hsto. cbn. by rewrite Hsto.
  - intros f ref data w1 w2 Hsto. rewrite !callReceive_eq. cbn. by rewrite Hsto.
  - by intros sreq w1 w2.
Qed.

Lemma DiscoveryMap_publicKeyBlobRef (h : Handler) (base : string) (v : JSON) :
  DiscoveryMap h base !! "publicKeyBlobRef" = Some v →
  Ref_Valid (pubKeyBlobRef h) = true ∧ v = JStr (Ref_String (pubKeyBlobRef h)).
Proof.
  unfold DiscoveryMap. destruct (Ref_Valid (pubKeyBlobRef h)); cbn zeta; intros Hv.
  - rewrite lookup_insert_ne, lookup_insert_eq in Hv by done. by injection Hv as <-.
  - exfalso. revert Hv. rewrite !lookup_insert_ne by done. by rewrite lookup_singleton_ne.
Qed.

Lemma Handler_Sign_done (h : Handler) (bb : Builder) (w : World) :
  ∃ r, (Handler_Sign h bb w).1 = Done r.
Proof.
  unfold Handler_Sign. destruct (Builder_JSON _); [|by eexists].
  destruct (Blob_ClaimDate _); [by eexists|]. destruct (negb _); by eexists.
Qed.

(** When the text of a valid ref parses, [vivify] does not panic. *)
Lemma vivify_done (blobReceiver : option BlobReceiveConfiger) (fileblob : SizedRef) (w : World) :
  StringParses →
  ∃ err, (vivify blobReceiver fileblob w).1 = Done err.
Proof.
  intros Hlaw. unfold vivify. destruct blobReceiver as [br|]; [|by eexists].
  cbn [mbind option_bind].
  destruct (StreamingFetcher br) as [sf|]; [|by eexists].
  mstep. unfold getStore.
  destruct (schema_NewFileReader _ _) as [fr|]; [|by eexists].
  unfold io_Copy. destruct (fr_Read fr) as [bytes [err|]]; [by eexists|].
  destruct (negb _); [by eexists|].
  destruct (Config_ br) as [config|]; [|by eexists].
  destruct (HandlerFinder config) as [hf|]; [|by eexists].
  destruct (hf "jsonsign") as [[JSONSignRoot sh] [err|]]; [by eexists|].
  destruct sh as [[sigHelper|]|]; [|by eexists|by eexists].
  destruct (DiscoveryMap sigHelper JSONSignRoot !! "publicKeyBlobRef") as [v|] eqn:Hdisco;
    [|by eexists].
  apply DiscoveryMap_publicKeyBlobRef in Hdisco as [Hvalid ->].
  destruct (time_Parse_RFC3339 _) as [claimDate|]; [|by eexists].
  unfold blob_MustParse. destruct (Hlaw _ Hvalid) as [signer ->]. mstep.
  cbn [BlobReceiver_ReceiveBlob].
  match goal with |- context [Handler_Sign sigHelper ?bb w] =>
    destruct (Handler_Sign_done sigHelper bb w) as [r Hr];
    destruct (Handler_Sign sigHelper bb w) as [o w1] end.
  cbn in Hr. subst o. destruct r as [permanodeSigned [err|]]; [by eexists|].
  rewrite callReceive_eq.
  destruct (ReceiveBlob br _ _ _) as [s1 [gotP|err]]; cbn [fst snd]; [|by eexists].
  match goal with |- context [Handler_Sign sigHelper ?bb ?w2] =>
    destruct (Handler_Sign_done sigHelper bb w2) as [r Hr];
    destruct (Handler_Sign sigHelper bb w2) as [o w3] end.
  cbn in Hr. subst o. destruct r as [claimSigned [err|]]; [by eexists|].
  rewrite callReceive_eq.
  destruct (ReceiveBlob br _ _ _) as [s2 [gotC|err]]; cbn [fst snd]; by eexists.
Qed.

(** ** The vivify step *)

Lemma vivify_on_store (blobReceiver : option BlobReceiveConfiger) (got : SizedRef) (w : World) :
  StringParses →
  ∃ err w' t,
    vivify blobReceiver got w = (Done err, w') ∧
    vivifyOn blobReceiver got (sto w) = (Done err, sto w') ∧
    conn w' = conn w ∧ trace w' = trace w ++ t ∧ clientErrors t = [].
Proof.
  intros Hlaw.
  destruct (vivify_done blobReceiver got w Hlaw) as [err Herr].
  destruct (silent_vivify blobReceiver got w) as (Hconn & t & Ht & He).
  destruct (storeOnly_vivify blobReceiver got w
              {| sto := sto w; trace := []; conn := newResponseWriter |} eq_refl) as [Ho Hs].
  unfold vivifyOn. rewrite <- Ho, <- Hs.
  destruct (vivify blobReceiver got w) as [o w']. cbn [fst snd] in *. subst o.
  by exists err, w', t.
Qed.

Lemma rw_HeaderAdd_status (rw : ResponseWriter) (key value : string) :
  rwStatus (rw_HeaderAdd key value rw) = rwStatus rw.
Proof. unfold rw_HeaderAdd. by destruct (rwStatus rw) eqn:Hs. Qed.

Lemma rw_HeaderAdd_body (rw : ResponseWriter) (key value : string) :
  rwBody (rw_HeaderAdd key value rw) = rwBody rw.
Proof. unfold rw_HeaderAdd. by destruct (rwStatus rw). Qed.

(** A header added before the status line is part of the response; one
    added after it is not. *)
Lemma headerValues_Add (rw : ResponseWriter) (key value : string) :
  headerValues (rw_HeaderAdd key value rw) key =
  headerValues rw key ++ match rwStatus rw with None => [value] | Some _ => [] end.
Proof.
  unfold headerValues, rw_HeaderAdd, Values_Add. destruct (rwStatus rw).
  - by rewrite app_nil_r.
  - cbn. by rewrite lookup_insert_eq.
Qed.

Lemma vivifyLoop_run (blobReceiver : option BlobReceiveConfiger) :
  StringParses →
  ∀ (blobs : list SizedRef) (errText : string) (w : World),
    ∃ w' t,
      let os := (vivifyAll blobReceiver blobs (sto w)).1 in
      vivifyLoop blobReceiver blobs errText w =
        (Done (foldl errTextAfter errText (vivifyErrors os)), w') ∧
      sto w' = (vivifyAll blobReceiver blobs (sto w)).2 ∧
      trace w' = trace w ++ t ∧
      clientErrors t = vivifyErrors os ∧
      rwStatus (conn w') = rwStatus (conn w) ∧
      rwBody (conn w') = rwBody (conn w) ∧
      headerValues (conn w') "X-Camlistore-Vivified" =
        headerValues (conn w) "X-Camlistore-Vivified" ++
        match rwStatus (conn w) with None => vivifiedRefs os | Some _ => [] end.
Proof.
  intros Hlaw. induction blobs as [|got rest IH]; intros errText w.
  - exists w, []. cbn. rewrite !app_nil_r. split_and!; try done.
    by destruct (rwStatus (conn w)); rewrite app_nil_r.
  - destruct (vivify_on_store blobReceiver got w Hlaw)
      as (err & w1 & t1 & Hrun & Hon & Hconn & Htr & Hce).
    cbn [vivifyLoop vivifyAll]. mstep. rewrite Hrun, Hon.
    destruct err as [err|].
    + rewrite addError_eq.
      destruct (IH (errTextAfter errText (msgVivify got err))
                  (logged w1 [Log "Client error: %s" [msgVivify got err]]))
        as (w' & t & Hloop & Hsto & Htr' & Hce' & Hst & Hbody & Hhdr).
      cbn [logged sto trace conn] in *.
      destruct (vivifyAll blobReceiver rest (sto w1)) as [os s''] eqn:Hall.
      cbn [fst snd] in *. exists w', (t1 ++ [Log "Client error: %s" [msgVivify got err]] ++ t).
      unfold msgVivify in Hloop |- *. rewrite Hloop.
      split_and!; try done.
      * rewrite Htr', Htr. by rewrite <- !app_assoc.
      * rewrite !clientErrors_app, Hce, Hce'. done.
      * congruence.
      * congruence.
      * rewrite Hhdr, Hconn. done.
    + unfold onConn at 1.
      match goal with |- context [vivifyLoop blobReceiver rest errText ?w2] =>
        destruct (IH errText w2) as (w' & t & Hloop & Hsto & Htr' & Hce' & Hst & Hbody & Hhdr) end.
      cbn [sto trace conn] in *.
      rewrite rw_HeaderAdd_status in Hst, Hhdr. rewrite rw_HeaderAdd_body in Hbody.
      rewrite headerValues_Add in Hhdr. rewrite Hconn in *.
      destruct (vivifyAll blobReceiver rest (sto w1)) as [os s''] eqn:Hall.
      cbn [fst snd] in *. exists w', (t1 ++ t).
      rewrite Hloop. split_and!; try done.
      * rewrite Htr', Htr. by rewrite <- !app_assoc.
      * rewrite !clientErrors_app, Hce, Hce'. done.
      * rewrite Hhdr, <- app_assoc. by destruct (rwStatus (conn w)).
Qed.

(** Whatever becomes of the vivify step, it sends no status line and writes
    nothing to the body. *)
Lemma vivifyLoop_conn (blobReceiver : option BlobReceiveConfiger) (blobs : list SizedRef) :
  ∀ (errText : string) (w : World),
    let w' := (vivifyLoop blobReceiver blobs errText w).2 in
    rwStatus (conn w') = rwStatus (conn w) ∧ rwBody (conn w') = rwBody (conn w).
Proof.
  induction blobs as [|got rest IH]; intros errText w; [done|].
  cbn zeta. cbn [vivifyLoop]. mstep.
  destruct (silent_vivify blobReceiver got w) as [Hconn _].
  destruct (vivify blobReceiver got w) as [[[err|]|msg] w1]; cbn [fst snd] in *.
  - rewrite addError_eq.
    match goal with |- context [vivifyLoop blobReceiver rest ?e ?w2] =>
      destruct (IH e w2) as [Hst Hbody] end.
    cbn [logged conn] in *. by rewrite Hst, Hbody, Hconn.
  - unfold onConn.
    match goal with |- context [vivifyLoop blobReceiver rest ?e ?w2] =>
      destruct (IH e w2) as [Hst Hbody] end.
    cbn [conn] in *. by rewrite Hst, Hbody, rw_HeaderAdd_status, rw_HeaderAdd_body, Hconn.
  - by rewrite Hconn.
Qed.

(** ** The error text is the recorded errors, joined by newlines *)

Lemma append_assoc (s1 s2 s3 : string) : (s1 +:+ s2) +:+ s3 = s1 +:+ s2 +:+ s3.
Proof.
  induction s1 as [|c s1 IH]; [done|].
  change (String c ((s1 +:+ s2) +:+ s3) = String c (s1 +:+ s2 +:+ s3)). by rewrite IH.
Qed.

Lemma concat_snoc (sep : string) (l : list string) (s : string) :
  l ≠ [] → String.concat sep (l ++ [s]) = String.concat sep l +:+ sep +:+ s.
Proof.
  induction l as [|x l IH]; [done|]. intros _. destruct l as [|y l]; [done|].
  change (String.concat sep ((x :: y :: l) ++ [s]))
    with (x +:+ sep +:+ String.concat sep ((y :: l) ++ [s])).
  rewrite IH by done.
  change (String.concat sep (x :: y :: l)) with (x +:+ sep +:+ String.concat sep (y :: l)).
  by rewrite !append_assoc.
Qed.

Lemma append_nonempty (s1 s2 : string) : s1 ≠ "" → s1 +:+ s2 ≠ "".
Proof. by destruct s1. Qed.

Lemma concat_nonempty (sep : string) (l : list string) :
  l ≠ [] → Forall (λ s, s ≠ "") l → String.concat sep l ≠ "".
Proof.
  destruct l as [|x l]; [done|]. intros _ Hne. apply Forall_cons in Hne as [Hx _].
  destruct l; [done|]. by apply append_nonempty.
Qed.

Lemma errText_join (msgs : list string) :
  Forall (λ s, s ≠ "") msgs →
  foldl errTextAfter "" msgs = String.concat nl msgs.
Proof.
  induction msgs as [|s msgs IH] using rev_ind; [done|].
  intros Hne. apply Forall_app in Hne as [Hne _].
  rewrite foldl_app. cbn [foldl]. rewrite IH by done. unfold errTextAfter.
  destruct msgs as [|x msgs]; [done|].
  rewrite concat_snoc by done.
  pose proof (concat_nonempty nl (x :: msgs) ltac:(done) Hne) as Hc.
  apply String.eqb_neq in Hc. by rewrite Hc.
Qed.

Lemma ingestLoop_effects (blobReceiver : option BlobReceiveConfiger) (parts : MultipartReader) :
  ∀ (receivedBlobs : list SizedRef) (errText : string) (w : World),
    ∃ t,
      let run := ingestLoop blobReceiver parts receivedBlobs errText w in
      conn run.2 = conn w ∧
      trace run.2 = trace w ++ t ∧
      Forall (λ s, s ≠ "") (clientErrors t) ∧
      ∀ r e rest, run.1 = Done (r, e, rest) → e = foldl errTextAfter errText (clientErrors t).
Proof.
  induction parts as [|x parts IH]; intros receivedBlobs errText w; cbn zeta.
  { rewrite ingestLoop_eof. exists []. rewrite app_nil_r. split_and!; try done.
    by intros rb0 e0 rest0 [= _ <- _]. }
  iteration blobReceiver x.
  - rewrite (ingestLoop_receive _ _ _ _ _ _ _ _ _ eq_refl Hd Hp). cbn zeta.
    destruct (ReceiveBlob _ _ _ (sto w)) as [s' [got|err]]; cbn [fst snd].
    + match goal with |- context [ingestLoop _ parts ?rb errText ?w1] =>
        destruct (IH rb errText w1) as (t & Hconn & Htr & Hne & He) end.
      cbn [conn trace] in *. eexists (_ ++ t). rewrite Htr, <- app_assoc.
      split_and!; [done|done| |].
      * by rewrite clientErrors_app.
      * intros rb0 e0 rest0 Hrun. rewrite clientErrors_app. by apply (He rb0 e0 rest0).
    + eexists. split_and!; [done|done| |].
      * cbn. by repeat constructor.
      * by intros rb0 e0 rest0 [= _ <- _].
  - rewrite (ingestLoop_nil_receiver _ _ _ _ _ _ _ _ eq_refl Hd Hp).
    exists []. rewrite app_nil_r. by split_and!.
  - rewrite (ingestLoop_bad_name _ _ _ _ _ _ _ Hd Hp).
    match goal with |- context [ingestLoop _ parts ?rb ?e1 ?w1] =>
      destruct (IH rb e1 w1) as (t & Hconn & Htr & Hne & He) end.
    cbn [logged conn trace] in *. eexists (_ ++ t). rewrite Htr, <- app_assoc.
    split_and!; [done|done| |].
    * rewrite clientErrors_app. apply Forall_app. split; [|done]. cbn. by repeat constructor.
    * intros rb0 e0 rest0 Hrun. rewrite clientErrors_app. by apply (He rb0 e0 rest0).
  - rewrite (ingestLoop_other_disposition _ _ _ _ _ _ _ _ Hd) by done.
    eexists. split_and!; [done|done| |].
    * cbn. by repeat constructor.
    * by intros rb0 e0 rest0 [= _ <- _].
  - rewrite (ingestLoop_unparsed_disposition _ _ _ _ _ _ _ Hd).
    eexists. split_and!; [done|done| |].
    * cbn. by repeat constructor.
    * by intros rb0 e0 rest0 [= _ <- _].
  - rewrite ingestLoop_read_error.
    eexists. split_and!; [done|done| |].
    * cbn. by repeat constructor.
    * by intros rb0 e0 rest0 [= _ <- _].
Qed.

(** ** The upload handler, end to end *)

Lemma ingestLoop_done (r : BlobReceiveConfiger) (parts : MultipartReader) :
  ∀ (receivedBlobs : list SizedRef) (errText : string) (w : World),
    ∃ x, (ingestLoop (Some r) parts receivedBlobs errText w).1 = Done x.
Proof.
  induction parts as [|x parts IH]; intros receivedBlobs errText w.
  { by eexists. }
  pose (blobReceiver := Some r). change (Some r) with blobReceiver.
  assert (Hbr : blobReceiver = Some r) by done. clearbody blobReceiver.
  iteration blobReceiver x.
  - injection Hbr as ->. 
    rewrite (ingestLoop_receive _ _ _ _ _ _ _ _ _ eq_refl Hd Hp). cbn zeta.
    destruct (ReceiveBlob _ _ _ (sto w)) as [s' [got|err]]; cbn [fst snd]; [apply IH|by eexists].
  - done.
  - rewrite (ingestLoop_bad_name _ _ _ _ _ _ _ Hd Hp). subst. apply IH.
  - rewrite (ingestLoop_other_disposition _ _ _ _ _ _ _ _ Hd) by done. by eexists.
  - rewrite (ingestLoop_unparsed_disposition _ _ _ _ _ _ _ Hd). by eexists.
  - rewrite ingestLoop_read_error. by eexists.
Qed.

(** [commonUploadResponse] on a receiver that has a configuration: the
    upload URL is added when the base URL can be built, and otherwise the
    error is logged and returned with the partial map. *)
Lemma commonUploadResponse_configured (r : BlobReceiveConfiger) (config : Config)
    (req : Request) (w : World) :
  Config_ r = Some config →
  commonUploadResponse (Some r) req w =
  match httputil_BaseURL (URLBase config) req with
  | Ok baseURL =>
    (Done (Some (configResponse (Some (baseURL +:+ "/camli/upload"))), None), w)
  | Err err =>
    (Done (Some (configResponse None), Some ("Cannot build uploadUrl: " +:+ err)),
     logged w [Log ("Cannot build uploadUrl: " +:+ err) []])
  end.
Proof.
  intros Hc. unfold commonUploadResponse. rewrite Hc.
  by destruct (httputil_BaseURL _ _).
Qed.

Lemma vivifyErrors_nonempty (os : list (SizedRef * outcome (option error))) :
  Forall (λ s, s ≠ "") (vivifyErrors os).
Proof.
  apply Forall_forall. intros s [[got o] [_ Hs]]%list_elem_of_omap. cbn in Hs.
  destruct o as [[err|]|]; try done. by injection Hs as <-.
Qed.

Lemma handleMultiPartUpload_run (req : Request) (blobReceiver : option BlobReceiveConfiger)
    (r : BlobReceiveConfiger) (config : Config) (parts : MultipartReader) (w : World) :
  isUpload req →
  Multipart req = Ok parts →
  rebind req blobReceiver = Some r →
  Config_ r = Some config →
  (vivifyRequested req = true → StringParses) →
  ∃ receivedBlobs errText rest w1 t1 w' t2,
    ingestLoop (Some r) parts [] "" w = (Done (receivedBlobs, errText, rest), w1) ∧
    trace w1 = trace w ++ t1 ∧
    let run := vivifyAll (Some r) receivedBlobs (sto w1) in
    let os := if vivifyRequested req then run.1 else [] in
    let errors := clientErrors t1 ++ vivifyErrors os in
    handleMultiPartUpload req blobReceiver w = (Done tt, w') ∧
    trace w' = trace w1 ++ t2 ∧
    clientErrors t2 = vivifyErrors os ∧
    sto w' = (if vivifyRequested req then run.2 else sto w1) ∧
    match httputil_BaseURL (URLBase config) req with
    | Ok baseURL =>
      headerValues (conn w') "X-Camlistore-Vivified" =
        headerValues (conn w) "X-Camlistore-Vivified" ++
        match rwStatus (conn w) with None => vivifiedRefs os | Some _ => [] end ∧
      rwStatus (conn w') = Some (default StatusOK (rwStatus (conn w))) ∧
      rwBody (conn w') = rwBody (conn w) ++
        [JSONDoc (JObj (uploadResponse baseURL receivedBlobs errors))]
    | Err err =>
      headerValues (conn w') "X-Camlistore-Vivified" =
        headerValues (conn w) "X-Camlistore-Vivified" ∧
      rwStatus (conn w') = Some (default StatusInternalServerError (rwStatus (conn w))) ∧
      rwBody (conn w') = rwBody (conn w) ++
        [Text ("Cannot build uploadUrl: " +:+ err);
         JSONDoc (JObj (responseOn (configResponse None) receivedBlobs errors))]
    end.
Proof.
  intros [Hm Hpath] Hmp Hr Hcfg Hlaw.
  unfold handleMultiPartUpload. rewrite Hm, Hpath, Hmp, Hr.
  cbn [String.eqb Ascii.eqb Bool.eqb andb negb]. mstep.
  destruct (ingestLoop_done r parts [] "" w) as [[[receivedBlobs errText] rest] Hdone].
  destruct (ingestLoop_effects (Some r) parts [] "" w) as (t1 & Hconn & Htr & Hne & He).
  cbn zeta in *.
  destruct (ingestLoop (Some r) parts [] "" w) as [o w1]. cbn [fst snd] in *. subst o.
  specialize (He _ _ _ eq_refl).
  exists receivedBlobs, errText, rest, w1, t1.
  rewrite (commonUploadResponse_configured _ _ _ _ Hcfg).
  (* the state in which the response is assembled, and the map it starts from *)
  set (cur := httputil_BaseURL (URLBase config) req).
  pose (ret0 := match cur with
                | Ok baseURL => configResponse (Some (baseURL +:+ "/camli/upload"))
                | Err _ => configResponse None
                end).
  pose (w1' := match cur with
               | Ok _ => w1
               | Err err =>
                 {| sto := sto w1;
                    trace := trace w1 ++ [Log ("Cannot build uploadUrl: " +:+ err) []];
                    conn := rw_Write (Text ("Cannot build uploadUrl: " +:+ err))
                              (rw_WriteHeader StatusInternalServerError (conn w1)) |}
               end).
  pose (t0 := match cur with
              | Ok _ => []
              | Err err => [Log ("Cannot build uploadUrl: " +:+ err) []]
              end).
  assert (Hw1' : sto w1' = sto w1 ∧ trace w1' = trace w1 ++ t0 ∧ clientErrors t0 = []).
  { unfold w1', t0. destruct cur; cbn; by rewrite ?app_nil_r. }
  destruct Hw1' as (Hs1 & Htr1 & Hce1).
  set (os := if vivifyRequested req
             then (vivifyAll (Some r) receivedBlobs (sto w1)).1 else []).
  assert (Hviv : ∃ w2 t2,
    (if vivifyRequested req then vivifyLoop (Some r) receivedBlobs errText
     else mret errText) w1' =
      (Done (foldl errTextAfter errText (vivifyErrors os)), w2) ∧
    sto w2 = (if vivifyRequested req
              then (vivifyAll (Some r) receivedBlobs (sto w1)).2 else sto w1) ∧
    trace w2 = trace w1' ++ t2 ∧ clientErrors t2 = vivifyErrors os ∧
    rwStatus (conn w2) = rwStatus (conn w1') ∧ rwBody (conn w2) = rwBody (conn w1') ∧
    headerValues (conn w2) "X-Camlistore-Vivified" =
      headerValues (conn w1') "X-Camlistore-Vivified" ++
      match rwStatus (conn w1') with None => vivifiedRefs os | Some _ => [] end).
  { unfold os. destruct (vivifyRequested req) eqn:Hreq.
    - destruct (vivifyLoop_run (Some r) (Hlaw eq_refl) receivedBlobs errText w1')
        as (w2 & t2 & Hloop & Hsto & Htr2 & Hce & Hst & Hbody & Hhdr).
      rewrite Hs1 in *. by exists w2, t2.
    - exists w1', []. cbn. rewrite !app_nil_r. split_and!; try done.
      destruct (rwStatus _); symmetry; apply app_nil_r. }
  destruct Hviv as (w2 & t2 & Hloop & Hsto & Htr2 & Hce & Hst & Hbody & Hhdr).
  set (errors := clientErrors t1 ++ vivifyErrors os).
  assert (Hnonempty : Forall (λ s, s ≠ "") errors).
  { apply Forall_app. split; [done|]. apply vivifyErrors_nonempty. }
  assert (Hjoin : foldl errTextAfter errText (vivifyErrors os) = String.concat nl errors).
  { rewrite He, <- foldl_app. by apply errText_join. }
  exists {| sto := sto w2; trace := trace w2;
            conn := rw_Write (JSONDoc (JObj (responseOn ret0 receivedBlobs errors))) (conn w2) |},
    (t0 ++ t2).
  cbn zeta. split; [done|]. split; [done|].
  split.
  { assert (Hstep : ∀ k : World → outcome unit * World,
      (let (o, w'0) := (Done (Some ret0, None : option error), w1) in
       match o with Done a => k w'0 | Panic msg => (Panic msg, w'0) end) = k w1) by done.
    transitivity
      (let (o, w3) := (if vivifyRequested req then vivifyLoop (Some r) receivedBlobs errText
                       else mret errText) w1' in
       match o with
       | Done e =>
         let (o1, w4) :=
           (if negb (e =? "")%string
            then map_assign (Some (<["received" := JArr (receivedJSON <$> receivedBlobs)]> ret0))
                   "errorText" (JStr e)
            else mret (Some (<["received" := JArr (receivedJSON <$> receivedBlobs)]> ret0))) w3 in
         match o1 with
         | Done a1 => httputil_ReturnJSON (JSON_of_map a1) w4
         | Panic msg => (Panic msg, w4)
         end
       | Panic msg => (Panic msg, w3)
       end).
    { unfold w1', ret0, vivifyRequested. by destruct cur. }
    rewrite Hloop, Hjoin. unfold responseOn.
    destruct errors as [|m ms] eqn:Hms; [done|].
    assert (Hc : String.concat nl (m :: ms) ≠ "") by (by apply concat_nonempty).
    apply String.eqb_neq in Hc. by rewrite Hc. }
  cbn [trace sto conn].
  split; [by rewrite Htr2, Htr1, app_assoc|].
  split; [by rewrite clientErrors_app, Hce1, Hce|].
  split; [done|].
  assert (Hvals : headerValues (rw_Write (JSONDoc (JObj (responseOn ret0 receivedBlobs errors)))
                                  (conn w2)) "X-Camlistore-Vivified" =
                  headerValues (conn w2) "X-Camlistore-Vivified") by done.
  rewrite Hvals, Hhdr. clear Hvals.
  unfold w1', ret0 in *. cbn [rw_Write rwStatus rwBody]. rewrite Hst, Hbody.
  destruct cur as [baseURL|err]; cbn; rewrite Hconn; [done|].
  rewrite <- !app_assoc. by rewrite app_nil_r.
Qed.

Lemma responseOn_received (ret : gmap string JSON) (receivedBlobs : list SizedRef)
    (errors : list string) :
  responseOn ret receivedBlobs errors !! "received" =
  Some (JArr (receivedJSON <$> receivedBlobs)).
Proof.
  unfold responseOn. destruct errors; cbn zeta.
  - by rewrite lookup_insert_eq.
  - by rewrite lookup_insert_ne, lookup_insert_eq.
Qed.

Lemma responseOn_errorText (uploadUrl : option string) (receivedBlobs : list SizedRef)
    (errors : list string) :
  responseOn (configResponse uploadUrl) receivedBlobs errors !! "errorText" =
  match errors with
  | [] => None
  | _ :: _ => Some (JStr (String.concat nl errors))
  end.
Proof.
  unfold responseOn, configResponse. destruct errors; cbn zeta.
  - destruct uploadUrl; rewrite !lookup_insert_ne by done; by rewrite lookup_singleton_ne.
  - by rewrite lookup_insert_eq.
Qed.

Lemma FramingError_clientErrors (blobReceiver : option BlobReceiveConfiger) (mimePart : Part)
    (s : Store) (msg : string) (s' : Store) (calls : list Event) :
  FramingError blobReceiver mimePart s msg s' calls → clientErrors calls = [].
Proof. by intros [| |]. Qed.

(** C2 (amended).  After parts that were received, at a part whose
    disposition does not parse or is not form-data, or whose blob the
    storage fails to receive, the loop records the error and stops: its
    result is the blobs received from the earlier parts, and the rest of the
    stream is handed back without having been read, whatever it holds.  When
    the common response can be built (the receiver has a configuration and
    the base URL is known), the handler answers with status 200 and one
    JSON object that reports exactly those blobs under [received] and
    starts its [errorText] with the recorded error; the text of a valid ref
    has to parse only if the request asks for vivification. *)
Theorem framing_error_abandons_stream
    (r : BlobReceiveConfiger) (pre : MultipartReader) (mimePart : Part)
    (rest : MultipartReader) (w : World) (blobs : list SizedRef) (t : list Event)
    (s1 : Store) (msg : string) (s' : Store) (calls : list Event) :
  Received r pre (sto w) blobs t s1 →
  FramingError (Some r) mimePart s1 msg s' calls →
  (∀ receivedBlobs errText,
     ingestLoop (Some r) (pre ++ Ok mimePart :: rest) receivedBlobs errText w =
     (Done (receivedBlobs ++ blobs, errTextAfter errText msg, rest),
      {| sto := s';
         trace := trace w ++ t ++ calls ++ [Log "Client error: %s" [msg]];
         conn := conn w |})) ∧
  (∀ req blobReceiver config baseURL,
     isUpload req →
     Multipart req = Ok (pre ++ Ok mimePart :: rest) →
     rebind req blobReceiver = Some r →
     Config_ r = Some config →
     httputil_BaseURL (URLBase config) req = Ok baseURL →
     (vivifyRequested req = true → StringParses) →
     rwStatus (conn w) = None →
     ∃ w' later,
       let ret := uploadResponse baseURL blobs (msg :: later) in
       handleMultiPartUpload req blobReceiver w = (Done tt, w') ∧
       rwStatus (conn w') = Some StatusOK ∧
       rwBody (conn w') = rwBody (conn w) ++ [JSONDoc (JObj ret)] ∧
       ret !! "received" = Some (JArr (receivedJSON <$> blobs)) ∧
       ret !! "errorText" = Some (JStr (String.concat nl (msg :: later)))).
Proof.
  intros Hpre Hframing.
  assert (Hloop : ∀ receivedBlobs errText,
    ingestLoop (Some r) (pre ++ Ok mimePart :: rest) receivedBlobs errText w =
    (Done (receivedBlobs ++ blobs, errTextAfter errText msg, rest),
     {| sto := s';
        trace := trace w ++ t ++ calls ++ [Log "Client error: %s" [msg]];
        conn := conn w |})).
  { intros receivedBlobs errText.
    rewrite (ingestLoop_received _ _ _ _ _ _ Hpre) by done.
    rewrite (ingestLoop_framing_error (Some r) mimePart _ msg s' calls) by done.
    cbn [sto trace conn]. by rewrite <- !app_assoc. }
  split; [exact Hloop|].
  intros req blobReceiver config baseURL Hup Hmp Hr Hcfg Hbase Hlaw Hfresh.
  destruct (handleMultiPartUpload_run req blobReceiver r config _ w Hup Hmp Hr Hcfg Hlaw)
    as (rb & e & rs & w1 & t1 & w' & t2 & Hrun1 & Htr1 & Hrun & _ & _ & _ & Hresp).
  rewrite Hloop in Hrun1. injection Hrun1 as <- <- <- <-.
  cbn [trace] in Htr1. apply app_inv_head in Htr1 as <-.
  rewrite Hbase, Hfresh in Hresp. destruct Hresp as (_ & Hst & Hbody).
  rewrite !clientErrors_app, (Received_clientErrors _ _ _ _ _ _ Hpre),
    (FramingError_clientErrors _ _ _ _ _ _ Hframing) in Hbody.
  cbn [clientErrors String.eqb Ascii.eqb Bool.eqb app] in Hbody.
  eexists w', _. cbn zeta. split; [done|]. split; [done|]. split; [exact Hbody|].
  split; [apply responseOn_received|apply responseOn_errorText].
Qed.

(** The status of the answer to a multipart upload: none when the handler
    faulted before it answered, or else that of a success or of a server
    error. *)
Lemma handleMultiPartUpload_status (req : Request) (blobReceiver : option BlobReceiveConfiger)
    (parts : MultipartReader) (w : World) :
  isUpload req →
  Multipart req = Ok parts →
  rwStatus (conn w) = None →
  rwStatus (conn (handleMultiPartUpload req blobReceiver w).2) ∈
    [None; Some StatusOK; Some StatusInternalServerError].
Proof.
  intros [Hm Hpath] Hmp Hfresh. unfold handleMultiPartUpload. rewrite Hm, Hpath, Hmp.
  cbn [String.eqb Ascii.eqb Bool.eqb andb negb]. mstep.
  set (br := rebind req blobReceiver).
  destruct (ingestLoop_effects br parts [] "" w) as (t & Hconn & _). cbn zeta in Hconn.
  destruct (ingestLoop br parts [] "" w) as [[[[received errText] rest]|msg] w1];
    cbn [fst snd] in *.
  2:{ rewrite Hconn, Hfresh. by repeat constructor. }
  (* the vivify step and the JSON answer, before or after a server error *)
  assert (Hfinish : ∀ (ret : gmap string JSON) (w2 : World),
    rwStatus (conn w2) = None ∨ rwStatus (conn w2) = Some StatusInternalServerError →
    rwStatus (conn
      ((errText ← (if (Values_Get (Header req) "X-Camlistore-Vivify" =? "1")%string
                   then vivifyLoop br received errText else mret errText);
        ret ← (if negb (errText =? "")%string
               then map_assign (Some ret) "errorText" (JStr errText)
               else mret (Some ret));
        httputil_ReturnJSON (JSON_of_map ret)) w2).2) ∈
    [None; Some StatusOK; Some StatusInternalServerError]).
  { intros ret w2 Hw2. mstep.
    assert (Hout : ∀ e w3, rwStatus (conn w3) = rwStatus (conn w2) →
      rwStatus (conn
        (let (o, w4) := (if negb (e =? "")%string
                         then map_assign (Some ret) "errorText" (JStr e)
                         else mret (Some ret)) w3 in
         match o with
         | Done a => httputil_ReturnJSON (JSON_of_map a) w4
         | Panic msg => (Panic msg, w4)
         end).2) ∈ [None; Some StatusOK; Some StatusInternalServerError]).
    { intros e w3 Hw3. destruct (negb _); cbn; rewrite Hw3;
        destruct Hw2 as [->| ->]; by repeat constructor. }
    destruct (_ =? "1")%string.
    - destruct (vivifyLoop_conn br received errText w2) as [Hst _]. cbn zeta in Hst.
      destruct (vivifyLoop br received errText w2) as [[e|msg] w3]; cbn [fst snd] in *.
      + by apply Hout.
      + rewrite Hst. destruct Hw2 as [->| ->]; by repeat constructor.
    - by apply Hout. }
  unfold commonUploadResponse.
  destruct br as [r|].
  - destruct (Config_ r) as [config|].
    + destruct (httputil_BaseURL _ _) as [baseURL|err].
      * mstep. cbn [map_assign]. mstep.
        match goal with |- context [map_assign (Some ?m) "errorText"] =>
          apply (Hfinish m) end.
        left. by rewrite Hconn.
      * unfold log_Printf, emit, httputil_ServeError, onConn. mstep. cbn [map_assign]. mstep.
        match goal with |- context [map_assign (Some ?m) "errorText"] =>
          apply (Hfinish m) end.
        right. cbn. by rewrite Hconn, Hfresh.
    + unfold log_Printf, emit, httputil_ServeError, onConn. mstep. cbn.
      rewrite Hconn, Hfresh. by repeat constructor.
  - unfold log_Printf, emit, httputil_ServeError, onConn. mstep. cbn.
    rewrite Hconn, Hfresh. by repeat constructor.
Qed.

(** C3 (amended).  When the request is a multipart upload and the common
    response could be built (the receiver has a configuration and the base
    URL is known), the answer is status 200 with one JSON object, whatever
    errors occurred in the stream or in vivification; the object has an
    [errorText] exactly when errors were recorded, and it is their messages
    in order of occurrence, joined by newlines.  Whatever the receiver and
    the stream, a client error is answered only when the request is
    malformed: not a POST under the upload path, or without a multipart
    body; and such a request is always answered so. *)
Theorem upload_answers_200_with_error_text
    (req : Request) (blobReceiver : option BlobReceiveConfiger) (w : World) :
  rwStatus (conn w) = None →
  (∀ r config baseURL parts,
     isUpload req →
     Multipart req = Ok parts →
     rebind req blobReceiver = Some r →
     Config_ r = Some config →
     httputil_BaseURL (URLBase config) req = Ok baseURL →
     StringParses →
     ∃ w' t receivedBlobs,
       handleMultiPartUpload req blobReceiver w = (Done tt, w') ∧
       trace w' = trace w ++ t ∧
       rwStatus (conn w') = Some StatusOK ∧
       rwBody (conn w') = rwBody (conn w) ++
         [JSONDoc (JObj (uploadResponse baseURL receivedBlobs (clientErrors t)))] ∧
       uploadResponse baseURL receivedBlobs (clientErrors t) !! "errorText" =
         match clientErrors t with
         | [] => None
         | _ :: _ => Some (JStr (String.concat nl (clientErrors t)))
         end) ∧
  (∀ code,
     rwStatus (conn (handleMultiPartUpload req blobReceiver w).2) = Some code →
     isClientError code = true →
     ¬ isUpload req ∨ ∃ err, Multipart req = Err err) ∧
  ((¬ isUpload req ∨ ∃ err, Multipart req = Err err) →
     ∃ w', handleMultiPartUpload req blobReceiver w = (Done tt, w') ∧
           rwStatus (conn w') = Some StatusBadRequest ∧
           isClientError StatusBadRequest = true).
Proof.
  intros Hfresh. split_and!.
  - intros r config baseURL parts Hup Hmp Hr Hcfg Hbase Hlaw.
    destruct (handleMultiPartUpload_run req blobReceiver r config parts w Hup Hmp Hr Hcfg
                (λ _, Hlaw))
      as (rb & e & rs & w1 & t1 & w' & t2 & Hloop & Htr1 & Hrun & Htr2 & Hce & _ & Hresp).
    rewrite Hbase, Hfresh in Hresp. destruct Hresp as (_ & Hst & Hbody).
    exists w', (t1 ++ t2), rb.
    rewrite clientErrors_app, Hce.
    split_and!; try done.
    + by rewrite Htr2, Htr1, app_assoc.
    + apply responseOn_errorText.
  - intros code Hcode H4xx.
    destruct (decide (Method req = "POST")) as [Hm|]; [|left; by intros [? _]].
    destruct (strings_Contains (URL_Path req) "/camli/upload") eqn:Hpath;
      [|left; intros [_ Hp]; congruence].
    destruct (Multipart req) as [parts|err] eqn:Hmp; [|right; by exists err].
    exfalso.
    pose proof (handleMultiPartUpload_status req blobReceiver parts w
                  (conj Hm Hpath) Hmp Hfresh) as Hst.
    rewrite Hcode in Hst.
    apply elem_of_cons in Hst as [?|Hst]; [done|].
    apply elem_of_cons in Hst as [[= ->]|Hst]; [by vm_compute in H4xx|].
    apply elem_of_cons in Hst as [[= ->]|Hst]; [by vm_compute in H4xx|].
    by apply elem_of_nil in Hst.
  - intros Hbad. unfold handleMultiPartUpload.
    destruct (negb _) eqn:Hcheck.
    + eexists. split; [reflexivity|]. cbn. by rewrite Hfresh.
    + destruct Hbad as [Hno|[err Herr]].
      * exfalso. apply Hno. apply negb_false_iff, andb_true_iff in Hcheck as [Hm Hp].
        split; [by apply String.eqb_eq|done].
      * rewrite Herr. eexists. split; [reflexivity|]. cbn. by rewrite Hfresh.
Qed.

Lemma vivifyAll_blobs (blobReceiver : option BlobReceiveConfiger) (blobs : list SizedRef)
    (s : Store) :
  (vivifyAll blobReceiver blobs s).1.*1 = blobs.
Proof.
  revert s. induction blobs as [|got rest IH]; intros s; [done|].
  cbn [vivifyAll]. destruct (vivifyOn blobReceiver got s) as [o s'].
  specialize (IH s'). destruct (vivifyAll blobReceiver rest s') as [os s''].
  cbn in *. by rewrite IH.
Qed.

(** C4 (amended).  When the request carries [X-Camlistore-Vivify: 1] and
    the common response could be built (the receiver has a configuration and
    the base URL is known), [vivify] is run on every received blob, in order,
    each on the store the former left.  The response, of status 200, has one
    [X-Camlistore-Vivified] header per blob whose vivification succeeded,
    carrying its ref, and the message of each failure follows the errors of
    the ingestion loop in the error text. *)
Theorem vivify_header_vivifies_each_received_blob
    (req : Request) (blobReceiver : option BlobReceiveConfiger)
    (r : BlobReceiveConfiger) (config : Config) (baseURL : string)
    (parts : MultipartReader) (w : World) :
  isUpload req →
  Multipart req = Ok parts →
  rebind req blobReceiver = Some r →
  Config_ r = Some config →
  httputil_BaseURL (URLBase config) req = Ok baseURL →
  StringParses →
  rwStatus (conn w) = None →
  Values_Get (Header req) "X-Camlistore-Vivify" = "1" →
  ∃ receivedBlobs errText rest w1 t1 w' t2,
    ingestLoop (Some r) parts [] "" w = (Done (receivedBlobs, errText, rest), w1) ∧
    trace w1 = trace w ++ t1 ∧
    handleMultiPartUpload req blobReceiver w = (Done tt, w') ∧
    trace w' = trace w1 ++ t2 ∧
    let run := vivifyAll (Some r) receivedBlobs (sto w1) in
    let errors := clientErrors t1 ++ vivifyErrors run.1 in
    run.1.*1 = receivedBlobs ∧
    sto w' = run.2 ∧
    clientErrors t2 = vivifyErrors run.1 ∧
    headerValues (conn w') "X-Camlistore-Vivified" =
      headerValues (conn w) "X-Camlistore-Vivified" ++ vivifiedRefs run.1 ∧
    rwStatus (conn w') = Some StatusOK ∧
    rwBody (conn w') = rwBody (conn w) ++
      [JSONDoc (JObj (uploadResponse baseURL receivedBlobs errors))] ∧
    uploadResponse baseURL receivedBlobs errors !! "errorText" =
      match errors with
      | [] => None
      | _ :: _ => Some (JStr (String.concat nl errors))
      end.
Proof.
  intros Hup Hmp Hr Hcfg Hbase Hlaw Hfresh Hhdr.
  destruct (handleMultiPartUpload_run req blobReceiver r config parts w Hup Hmp Hr Hcfg
              (λ _, Hlaw))
    as (rb & e & rs & w1 & t1 & w' & t2 & Hloop & Htr1 & Hrun & Htr2 & Hce & Hsto & Hresp).
  assert (Hreq : vivifyRequested req = true).
  { unfold vivifyRequested. by rewrite Hhdr. }
  rewrite Hreq, Hbase, Hfresh in *. destruct Hresp as (Hvals & Hst & Hbody).
  exists rb, e, rs, w1, t1, w', t2. cbn zeta. split_and!; try done.
  - apply vivifyAll_blobs.
  - apply responseOn_errorText.
Qed.

(** C10.  When [commonUploadResponse] returns an error, the handler serves
    it and goes on.  The returned map is nil exactly when the configer or
    its configuration is nil, and then the assignment of [received] panics;
    otherwise the base URL could not be built, and a second response, the
    JSON object, is written after the error. *)
Theorem commonUploadResponse_error_does_not_return
    (req : Request) (blobReceiver : option BlobReceiveConfiger) (parts : MultipartReader)
    (w w1 w2 : World) (receivedBlobs : list SizedRef) (errText : string)
    (rest : MultipartReader) (ret : option (gmap string JSON)) (err : error) :
  isUpload req →
  Multipart req = Ok parts →
  ingestLoop (rebind req blobReceiver) parts [] "" w = (Done (receivedBlobs, errText, rest), w1) →
  commonUploadResponse (rebind req blobReceiver) req w1 = (Done (ret, Some err), w2) →
  (ret = None ↔
     rebind req blobReceiver = None ∨
     ∃ r, rebind req blobReceiver = Some r ∧ Config_ r = None) ∧
  (ret = None →
     handleMultiPartUpload req blobReceiver w =
     (Panic "assignment to entry in nil map",
      {| sto := sto w2; trace := trace w2;
         conn := rw_Write (Text err) (rw_WriteHeader StatusInternalServerError (conn w2)) |})) ∧
  (ret ≠ None → StringParses →
     ∃ w' doc,
       handleMultiPartUpload req blobReceiver w = (Done tt, w') ∧
       rwBody (conn w') = rwBody (conn w) ++ [Text err; JSONDoc doc]).
Proof.
  intros Hup Hmp Hloop Hcur.
  assert (Hpanic : ret = None →
    handleMultiPartUpload req blobReceiver w =
    (Panic "assignment to entry in nil map",
     {| sto := sto w2; trace := trace w2;
        conn := rw_Write (Text err) (rw_WriteHeader StatusInternalServerError (conn w2)) |})).
  { intros ->. destruct Hup as [Hm Hpath]. unfold handleMultiPartUpload.
    rewrite Hm, Hpath, Hmp. cbn [String.eqb Ascii.eqb Bool.eqb andb negb]. mstep.
    rewrite Hloop, Hcur. reflexivity. }
  destruct (rebind req blobReceiver) as [r|] eqn:Hr.
  - destruct (Config_ r) as [config|] eqn:Hcfg.
    + rewrite (commonUploadResponse_configured _ _ _ _ Hcfg) in Hcur.
      destruct (httputil_BaseURL (URLBase config) req) as [baseURL|e] eqn:Hbase; [done|].
      injection Hcur as <- <- <-.
      split; [|split; [done|]].
      { split; [done|]. intros [?|(r' & [= <-] & ?)]; congruence. }
      intros _ Hlaw.
      destruct (handleMultiPartUpload_run req blobReceiver r config parts w Hup Hmp Hr Hcfg
                  (λ _, Hlaw))
        as (rb & e' & rs & w1' & t1 & w' & t2 & _ & _ & Hrun & _ & _ & _ & Hresp).
      rewrite Hbase in Hresp. destruct Hresp as (_ & _ & Hbody).
      by eexists w', _.
    + unfold commonUploadResponse in Hcur. rewrite Hcfg in Hcur. injection Hcur as <- <- <-.
      split_and!; [|by apply Hpanic|done].
      split; [|done]. intros _. right. by exists r.
  - unfold commonUploadResponse in Hcur. injection Hcur as <- <- <-.
    split_and!; [|by apply Hpanic|done].
    split; [|done]. intros _. by left.
Qed.

(** * Further properties of the code *)

(** ** The ingestion loop *)

Lemma storedBlobs_app (t1 t2 : list Event) :
  storedBlobs (t1 ++ t2) = storedBlobs t1 ++ storedBlobs t2.
Proof. apply omap_app. Qed.

(** X1.  The sequence the loop returns is the sequence it was given followed
    by the blobs its [ReceiveBlob] calls stored, one per successful call and
    in the order of the calls; what it hands back unread is a suffix of the
    stream; and it leaves the response writer alone. *)
Theorem ingestLoop_returns_what_was_stored
    (blobReceiver : option BlobReceiveConfiger) (parts : MultipartReader)
    (receivedBlobs : list SizedRef) (errText : string) (w : World) :
  let run := ingestLoop blobReceiver parts receivedBlobs errText w in
  ∃ t,
    trace run.2 = trace w ++ t ∧
    conn run.2 = conn w ∧
    ∀ received errText' rest,
      run.1 = Done (received, errText', rest) →
      received = receivedBlobs ++ storedBlobs t ∧ rest `suffix_of` parts.
Proof.
  revert receivedBlobs errText w.
  induction parts as [|x parts IH]; intros receivedBlobs errText w; cbn zeta.
  { rewrite ingestLoop_eof. exists []. rewrite !app_nil_r. split_and!; try done.
    intros rb0 e0 rest0 [= <- _ <-]. cbn. by rewrite ?app_nil_r. }
  iteration blobReceiver x.
  - rewrite (ingestLoop_receive _ _ _ _ _ _ _ _ _ eq_refl Hd Hp). cbn zeta.
    destruct (ReceiveBlob _ _ _ (sto w)) as [s' [got|err]]; cbn [fst snd].
    + match goal with |- context [ingestLoop _ parts ?rb errText ?w1] =>
        destruct (IH rb errText w1) as (t & Htr & Hconn & Hres) end.
      cbn [conn trace] in *. eexists (_ ++ t). rewrite Htr, <- app_assoc.
      split_and!; [done|done|].
      intros rb0 e0 rest0 Hrun. destruct (Hres _ _ _ Hrun) as [-> Hsuf].
      rewrite storedBlobs_app, <- app_assoc. split; [done|]. by apply suffix_cons_r.
    + eexists. split_and!; [done|done|].
      intros rb0 e0 rest0 [= <- _ <-]. cbn. rewrite ?app_nil_r.
      split; [done|]. by apply suffix_cons_r.
  - rewrite (ingestLoop_nil_receiver _ _ _ _ _ _ _ _ eq_refl Hd Hp).
    exists []. rewrite app_nil_r. by split_and!.
  - rewrite (ingestLoop_bad_name _ _ _ _ _ _ _ Hd Hp).
    match goal with |- context [ingestLoop _ parts ?rb ?e1 ?w1] =>
      destruct (IH rb e1 w1) as (t & Htr & Hconn & Hres) end.
    cbn [logged conn trace] in *. eexists (_ ++ t). rewrite Htr, <- app_assoc.
    split_and!; [done|done|].
    intros rb0 e0 rest0 Hrun. destruct (Hres _ _ _ Hrun) as [-> Hsuf].
    rewrite storedBlobs_app. split; [done|]. by apply suffix_cons_r.
  - rewrite (ingestLoop_other_disposition _ _ _ _ _ _ _ _ Hd) by done.
    eexists. split_and!; [done|done|].
    intros rb0 e0 rest0 [= <- _ <-]. cbn. rewrite ?app_nil_r.
    split; [done|]. by apply suffix_cons_r.
  - rewrite (ingestLoop_unparsed_disposition _ _ _ _ _ _ _ Hd).
    eexists. split_and!; [done|done|].
    intros rb0 e0 rest0 [= <- _ <-]. cbn. rewrite ?app_nil_r.
    split; [done|]. by apply suffix_cons_r.
  - rewrite ingestLoop_read_error.
    eexists. split_and!; [done|done|].
    intros rb0 e0 rest0 [= <- _ <-]. cbn. rewrite ?app_nil_r.
    split; [done|]. by apply suffix_cons_r.
Qed.

Lemma errTextAfter_nonempty (errText msg : string) : msg ≠ "" → errTextAfter errText msg ≠ "".
Proof.
  intros Hmsg. unfold errTextAfter. destruct (errText =? "")%string eqn:He; [done|].
  apply String.eqb_neq in He. by apply append_nonempty.
Qed.

(** X2.  When the loop starts with an empty error text and ends with one,
    it read the stream to its end and received every part of it: nothing is
    handed back unread, and the result has one more blob per part. *)
Theorem ingestLoop_without_error_received_every_part
    (blobReceiver : option BlobReceiveConfiger) (parts : MultipartReader)
    (receivedBlobs received : list SizedRef) (rest : MultipartReader) (w w' : World) :
  ingestLoop blobReceiver parts receivedBlobs "" w = (Done (received, "", rest), w') →
  rest = [] ∧
  length received = (length receivedBlobs + length parts)%nat ∧
  clientErrors (drop (length (trace w)) (trace w')) = [].
Proof.
  intros Hrun.
  assert (Hgen : ∀ parts receivedBlobs errText w,
    ingestLoop blobReceiver parts receivedBlobs errText w = (Done (received, "", rest), w') →
    errText = "" ∧ rest = [] ∧
    length received = (length receivedBlobs + length parts)%nat).
  { clear. induction parts as [|x parts IH]; intros receivedBlobs errText w.
    { rewrite ingestLoop_eof. intros [= <- -> <- _]. cbn. split_and!; [done|done|lia]. }
    iteration blobReceiver x.
    - rewrite (ingestLoop_receive _ _ _ _ _ _ _ _ _ eq_refl Hd Hp). cbn zeta.
      destruct (ReceiveBlob _ _ _ (sto w)) as [s' [got|err]]; cbn [fst snd].
      + intros Hrun. destruct (IH _ _ _ Hrun) as (-> & -> & Hlen).
        rewrite length_app in Hlen. cbn in *. split_and!; [done|done|lia].
      + intros [= _ He _ _]. exfalso. revert He. by apply errTextAfter_nonempty.
    - by rewrite (ingestLoop_nil_receiver _ _ _ _ _ _ _ _ eq_refl Hd Hp).
    - rewrite (ingestLoop_bad_name _ _ _ _ _ _ _ Hd Hp).
      intros Hrun. destruct (IH _ _ _ Hrun) as (He & _). exfalso. revert He.
      by apply errTextAfter_nonempty.
    - rewrite (ingestLoop_other_disposition _ _ _ _ _ _ _ _ Hd) by done.
      intros [= _ He _ _]. exfalso. revert He. by apply errTextAfter_nonempty.
    - rewrite (ingestLoop_unparsed_disposition _ _ _ _ _ _ _ Hd).
      intros [= _ He _ _]. exfalso. revert He. by apply errTextAfter_nonempty.
    - rewrite ingestLoop_read_error.
      intros [= _ He _ _]. exfalso. revert He. by apply errTextAfter_nonempty. }
  destruct (Hgen _ _ _ _ Hrun) as (_ & -> & Hlen). split_and!; [done|done|].
  destruct (ingestLoop_effects blobReceiver parts receivedBlobs "" w)
    as (t & _ & Htr & Hne & He). cbn zeta in *. rewrite Hrun in Htr, He. cbn [fst snd] in *.
  rewrite Htr, drop_app_length.
  specialize (He _ _ _ eq_refl). rewrite errText_join in He by done.
  destruct (clientErrors t) as [|m ms] eqn:Hce; [done|].
  exfalso. symmetry in He. revert He. by apply concat_nonempty.
Qed.

(** X3.  The loop calls [ReceiveBlob] at most once per part of the stream,
    and a call that fails is its last: the calls are a run of calls that
    stored their blob, followed by at most one that did not. *)
Theorem ingestLoop_failed_receive_is_last
    (blobReceiver : option BlobReceiveConfiger) (parts : MultipartReader)
    (receivedBlobs : list SizedRef) (errText : string) (w : World) :
  let run := ingestLoop blobReceiver parts receivedBlobs errText w in
  ∃ t stored failed,
    trace run.2 = trace w ++ t ∧
    List.filter isReceiveCall t = stored ++ failed ∧
    Forall (λ e, isWrite e = true) stored ∧
    Forall (λ e, isWrite e = false) failed ∧
    (length failed ≤ 1)%nat ∧
    (length (stored ++ failed) ≤ length parts)%nat.
Proof.
  revert receivedBlobs errText w.
  induction parts as [|x parts IH]; intros receivedBlobs errText w; cbn zeta.
  { rewrite ingestLoop_eof. exists [], [], []. rewrite !app_nil_r.
    split_and!; try done; cbn; lia. }
  iteration blobReceiver x.
  - rewrite (ingestLoop_receive _ _ _ _ _ _ _ _ _ eq_refl Hd Hp). cbn zeta.
    destruct (ReceiveBlob _ _ _ (sto w)) as [s' [got|err]]; cbn [fst snd].
    + match goal with |- context [ingestLoop _ parts ?rb errText ?w1] =>
        destruct (IH rb errText w1) as (t & stored & failed & Htr & Hf & Hs & Hfl & Hl1 & Hl) end.
      cbn [trace] in *.
      eexists (_ ++ t), (_ :: stored), failed. rewrite Htr, <- app_assoc.
      split; [done|]. rewrite List.filter_app, Hf. cbn.
      split; [done|]. split; [by constructor|]. split; [done|]. split; [done|].
      cbn in *. lia.
    + eexists _, [], [_]. split; [done|]. cbn. split; [done|].
      split_and!; [done|by repeat constructor|lia|lia].
  - rewrite (ingestLoop_nil_receiver _ _ _ _ _ _ _ _ eq_refl Hd Hp).
    exists [], [], []. rewrite app_nil_r. split_and!; try done; cbn; lia.
  - rewrite (ingestLoop_bad_name _ _ _ _ _ _ _ Hd Hp).
    match goal with |- context [ingestLoop _ parts ?rb ?e1 ?w1] =>
      destruct (IH rb e1 w1) as (t & stored & failed & Htr & Hf & Hs & Hfl & Hl1 & Hl) end.
    cbn [logged trace] in *.
    eexists (_ ++ t), stored, failed. rewrite Htr, <- app_assoc.
    split; [done|]. rewrite List.filter_app, Hf. cbn.
    split_and!; try done. lia.
  - rewrite (ingestLoop_other_disposition _ _ _ _ _ _ _ _ Hd) by done.
    eexists _, [], []. split; [done|]. cbn. split_and!; try done; lia.
  - rewrite (ingestLoop_unparsed_disposition _ _ _ _ _ _ _ Hd).
    eexists _, [], []. split; [done|]. cbn. split_and!; try done; lia.
  - rewrite ingestLoop_read_error.
    eexists _, [], []. split; [done|]. cbn. split_and!; try done; lia.
Qed.

Lemma ingestionEvent_cons (x : result Part) (parts : MultipartReader) (e : Event) :
  ingestionEvent parts e → ingestionEvent (x :: parts) e.
Proof.
  destruct e as [| ref data res | |]; cbn; try done.
  intros (p & params & Hin & H). exists p, params. split; [by right|done].
Qed.

(** X4.  The loop only logs and calls [ReceiveBlob], and each of these calls
    is for a form-data part of the stream, under the ref that the part's
    name parses to and with the part's body: it never stores under another
    ref, never signs and never stats. *)
Theorem ingestLoop_stores_under_declared_names
    (blobReceiver : option BlobReceiveConfiger) (parts : MultipartReader)
    (receivedBlobs : list SizedRef) (errText : string) (w : World) :
  let run := ingestLoop blobReceiver parts receivedBlobs errText w in
  ∃ t, trace run.2 = trace w ++ t ∧ Forall (ingestionEvent parts) t.
Proof.
  revert receivedBlobs errText w.
  induction parts as [|x parts IH]; intros receivedBlobs errText w; cbn zeta.
  { rewrite ingestLoop_eof. exists []. by rewrite !app_nil_r. }
  iteration blobReceiver x.
  - rewrite (ingestLoop_receive _ _ _ _ _ _ _ _ _ eq_refl Hd Hp). cbn zeta.
    assert (Hcall : ∀ res, ingestionEvent (Ok mimePart :: parts)
                             (CallReceiveBlob r (PartBody mimePart) res)).
    { intros res. exists mimePart, params. split; [by left|done]. }
    destruct (ReceiveBlob _ _ _ (sto w)) as [s' [got|err]]; cbn [fst snd].
    + match goal with |- context [ingestLoop _ parts ?rb errText ?w1] =>
        destruct (IH rb errText w1) as (t & Htr & Hall) end.
      cbn [trace] in *. eexists (_ ++ t). rewrite Htr, <- app_assoc. split; [done|].
      apply Forall_app. split; [by repeat constructor|].
      eapply Forall_impl; [exact Hall|]. apply ingestionEvent_cons.
    + eexists. split; [done|]. by repeat constructor.
  - rewrite (ingestLoop_nil_receiver _ _ _ _ _ _ _ _ eq_refl Hd Hp).
    exists []. by rewrite app_nil_r.
  - rewrite (ingestLoop_bad_name _ _ _ _ _ _ _ Hd Hp).
    match goal with |- context [ingestLoop _ parts ?rb ?e1 ?w1] =>
      destruct (IH rb e1 w1) as (t & Htr & Hall) end.
    cbn [logged trace] in *. eexists (_ ++ t). rewrite Htr, <- app_assoc. split; [done|].
    apply Forall_app. split; [by repeat constructor|].
    eapply Forall_impl; [exact Hall|]. apply ingestionEvent_cons.
  - rewrite (ingestLoop_other_disposition _ _ _ _ _ _ _ _ Hd) by done.
    eexists. split; [done|]. by repeat constructor.
  - rewrite (ingestLoop_unparsed_disposition _ _ _ _ _ _ _ Hd).
    eexists. split; [done|]. by repeat constructor.
  - rewrite ingestLoop_read_error.
    eexists. split; [done|]. by repeat constructor.
Qed.

(** ** The upload handler *)

Lemma ingestLoop_quiet (blobReceiver : option BlobReceiveConfiger) (parts : MultipartReader) :
  ∀ (receivedBlobs : list SizedRef) (errText : string) (w : World),
    let run := ingestLoop blobReceiver parts receivedBlobs errText w in
    ∃ t,
      trace run.2 = trace w ++ t ∧
      conn run.2 = conn w ∧
      List.filter isSignCall t = [] ∧
      (blobReceiver = None → sto run.2 = sto w ∧ List.filter isReceiveCall t = []).
Proof.
  induction parts as [|x parts IH]; intros receivedBlobs errText w; cbn zeta.
  { rewrite ingestLoop_eof. exists []. by rewrite !app_nil_r. }
  iteration blobReceiver x.
  - rewrite (ingestLoop_receive _ _ _ _ _ _ _ _ _ eq_refl Hd Hp). cbn zeta.
    destruct (ReceiveBlob _ _ _ (sto w)) as [s' [got|err]]; cbn [fst snd].
    + match goal with |- context [ingestLoop _ parts ?rb errText ?w1] =>
        destruct (IH rb errText w1) as (t & Htr & Hconn & Hsign & _) end.
      cbn [trace conn] in *. eexists (_ ++ t). rewrite Htr, <- app_assoc.
      split_and!; [done|done| |done]. by rewrite List.filter_app, Hsign.
    + eexists. by split_and!.
  - rewrite (ingestLoop_nil_receiver _ _ _ _ _ _ _ _ eq_refl Hd Hp).
    exists []. by rewrite app_nil_r.
  - rewrite (ingestLoop_bad_name _ _ _ _ _ _ _ Hd Hp).
    match goal with |- context [ingestLoop _ parts ?rb ?e1 ?w1] =>
      destruct (IH rb e1 w1) as (t & Htr & Hconn & Hsign & Hnil) end.
    cbn [logged trace conn sto] in *. eexists (_ ++ t). rewrite Htr, <- app_assoc.
    split_and!; [done|done| |].
    + by rewrite List.filter_app, Hsign.
    + intros Hnone. destruct (Hnil Hnone) as [Hsto Hrecv].
      split; [done|]. by rewrite List.filter_app, Hrecv.
  - rewrite (ingestLoop_other_disposition _ _ _ _ _ _ _ _ Hd) by done.
    eexists. by split_and!.
  - rewrite (ingestLoop_unparsed_disposition _ _ _ _ _ _ _ Hd).
    eexists. by split_and!.
  - rewrite ingestLoop_read_error. eexists. by split_and!.
Qed.


(** X6.  Unless the request carries [X-Camlistore-Vivify: 1], the handler
    makes no signing request and adds no [X-Camlistore-Vivified] header,
    whatever the receiver and the stream. *)
Theorem upload_without_vivify_header_signs_nothing
    (req : Request) (blobReceiver : option BlobReceiveConfiger) (w : World) :
  vivifyRequested req = false →
  let w' := (handleMultiPartUpload req blobReceiver w).2 in
  ∃ t,
    trace w' = trace w ++ t ∧
    List.filter isSignCall t = [] ∧
    headerValues (conn w') "X-Camlistore-Vivified" =
      headerValues (conn w) "X-Camlistore-Vivified".
Proof.
  intros Hviv. unfold vivifyRequested in Hviv. unfold handleMultiPartUpload.
  destruct (negb _).
  { by eexists [_]. }
  destruct (Multipart req) as [parts|err].
  2:{ exists []. by rewrite app_nil_r. }
  mstep. rewrite Hviv.
  destruct (ingestLoop_quiet (rebind req blobReceiver) parts [] "" w)
    as (t & Htr & Hconn & Hsign & _). cbn zeta in *.
  destruct (ingestLoop _ parts [] "" w) as [[[[received errText] rest]|msg] w1];
    cbn [fst snd] in *.
  2:{ exists t. by rewrite Hconn. }
  unfold commonUploadResponse.
  destruct (rebind req blobReceiver) as [r|].
  - destruct (Config_ r) as [config|].
    + destruct (httputil_BaseURL _ _) as [baseURL|err].
      * exists t. cbn. destruct (negb _); cbn; by rewrite Hconn.
      * exists (t ++ [Log ("Cannot build uploadUrl: " +:+ err) []]).
        unfold log_Printf, emit. mstep. cbn.
        destruct (negb _); cbn; rewrite Htr, Hconn, List.filter_app, Hsign;
          by rewrite <- app_assoc.
    + eexists (t ++ [_]). unfold log_Printf, emit. mstep. cbn.
      rewrite Htr, Hconn, List.filter_app, Hsign. by rewrite <- app_assoc.
  - eexists (t ++ [_]). unfold log_Printf, emit. mstep. cbn.
    rewrite Htr, Hconn, List.filter_app, Hsign. by rewrite <- app_assoc.
Qed.

(** X7.  When the receiver is re-bound to the request and the re-bound
    storage is not itself a [BlobReceiveConfiger], the handler works on a
    [mixAndMatch] of the new receiver and the old configuration, which is no
    streaming fetcher: the vivify step then fails for every blob, records
    one error per blob, and touches neither the store nor the response. *)
Theorem rebound_receiver_without_fetcher_vivifies_nothing
    (req : Request) (oldRC : BlobReceiveConfiger) (cw : Request → Wrapped)
    (newRC : ReceiveFn) (blobs : list SizedRef) (errText : string) (w : World) :
  ContextWrapper oldRC = Some cw →
  cw req = OnlyReceiver newRC →
  let blobReceiver := rebind req (Some oldRC) in
  let msgs := (λ got, msgVivify got "BlobReceiver is not a StreamingFetcher") <$> blobs in
  (∃ r, blobReceiver = Some r ∧ ReceiveBlob r = newRC ∧ Config_ r = Config_ oldRC) ∧
  vivifyLoop blobReceiver blobs errText w =
  (Done (foldl errTextAfter errText msgs),
   logged w ((λ msg, Log "Client error: %s" [msg]) <$> msgs)).
Proof.
  intros Hcw Hnew. cbn zeta.
  assert (Hr : rebind req (Some oldRC) =
               Some (mkBlobReceiveConfiger newRC (Config_ oldRC) None None)).
  { unfold rebind. cbn [mbind option_bind]. rewrite Hcw.
    unfold wrapReceiveConfiger. by rewrite Hnew. }
  rewrite Hr. split; [by eexists|].
  revert errText w. induction blobs as [|got blobs IH]; intros errText w.
  - unfold logged. cbn. rewrite app_nil_r. by destruct w.
  - cbn [vivifyLoop fmap list_fmap foldl]. mstep.
    unfold vivify at 1. cbn [mbind option_bind StreamingFetcher]. mstep.
    rewrite addError_eq, IH. unfold logged, msgVivify. cbn [sto trace conn].
    by rewrite <- app_assoc.
Qed.

(** X15.  When the base URL cannot be built, the handler has served the
    error before it comes to the vivify step: vivification still runs on the
    received blobs, but a header added after the status line is no part of
    the response, which keeps the status of the error and reports no blob
    as vivified. *)
Theorem upload_after_served_error_adds_no_header
    (req : Request) (blobReceiver : option BlobReceiveConfiger)
    (r : BlobReceiveConfiger) (config : Config) (err : error)
    (parts : MultipartReader) (w : World) :
  isUpload req →
  Multipart req = Ok parts →
  rebind req blobReceiver = Some r →
  Config_ r = Some config →
  httputil_BaseURL (URLBase config) req = Err err →
  StringParses →
  rwStatus (conn w) = None →
  ∃ receivedBlobs errText rest w1 w',
    ingestLoop (Some r) parts [] "" w = (Done (receivedBlobs, errText, rest), w1) ∧
    handleMultiPartUpload req blobReceiver w = (Done tt, w') ∧
    sto w' = (if vivifyRequested req
              then (vivifyAll (Some r) receivedBlobs (sto w1)).2 else sto w1) ∧
    rwStatus (conn w') = Some StatusInternalServerError ∧
    headerValues (conn w') "X-Camlistore-Vivified" =
      headerValues (conn w) "X-Camlistore-Vivified".
Proof.
  intros Hup Hmp Hr Hcfg Hbase Hlaw Hfresh.
  destruct (handleMultiPartUpload_run req blobReceiver r config parts w Hup Hmp Hr Hcfg
              (λ _, Hlaw))
    as (rb & e & rs & w1 & t1 & w' & t2 & Hloop & _ & Hrun & _ & _ & Hsto & Hresp).
  rewrite Hbase, Hfresh in Hresp. destruct Hresp as (Hvals & Hst & _).
  by exists rb, e, rs, w1, w'.
Qed.

(** ** Vivification, step by step *)

Lemma Handler_Sign_cases (h : Handler) (bb : Builder) (w : World) :
  (∃ signed err, Handler_Sign h bb w = (Done (signed, Some err), w)) ∨
  (∃ sreq,
     Builder_JSON (SetSigner (pubKeyBlobRef h) bb) = Ok (UnsignedJSON sreq) ∧
     sreq_Fetcher sreq = pubKeyFetcher h ∧
     ServerMode sreq = true ∧
     SecretKeyringPath sreq = secretRing h ∧
     SignatureTime sreq = bb_claimDate bb ∧
     Handler_Sign h bb w = (Done (jsonsign_Sign sreq), logged w [CallSign sreq])).
Proof.
  unfold Handler_Sign, Blob_ClaimDate. cbn [SetSigner bb_claimDate].
  destruct (Builder_JSON _) as [unsigned|err]; [|left; by eexists _, _].
  destruct (bb_claimDate bb) as [t|]; rewrite ?IsMissingField_MissingFieldError; cbn [negb];
    right; eexists (Build_SignRequest _ _ _ _ _); by split_and!.
Qed.


(** X9.  What a successful [vivify] published: a permanode planned from
    the bytes read from the file, whose number is the size the file
    declares, and a claim setting [camliContent] of the ref under which that
    permanode was uploaded to the ref of the file blob; both carry the key
    of the sign handler found under [jsonsign] as signer, and each was
    uploaded under the SHA-1 ref of its signed text. *)
Theorem vivify_links_claim_to_permanode
    (blobReceiver : option BlobReceiveConfiger) (fileblob : SizedRef) (w w' : World) :
  vivify blobReceiver fileblob w = (Done None, w') →
  ∃ r sf fr bytes config hf root sigHelper claimDate sreqP sreqC permanodeSigned claimSigned
      gotP gotC,
    blobReceiver = Some r ∧
    StreamingFetcher r = Some sf ∧
    schema_NewFileReader (λ ref, sf ref (sto w)) (sr_Ref fileblob) = Ok fr ∧
    fr_Read fr = (bytes, None) ∧
    len bytes = fr_Size fr ∧
    Config_ r = Some config ∧
    HandlerFinder config = Some hf ∧
    hf "jsonsign" = (root, Some (SignHandler sigHelper), None) ∧
    Ref_Valid (pubKeyBlobRef sigHelper) = true ∧
    Builder_JSON {| bb_m := bb_m (schema_NewHashPlannedPermanode bytes);
                    bb_camliSigner := Some (pubKeyBlobRef sigHelper);
                    bb_claimDate := Some claimDate |} = Ok (UnsignedJSON sreqP) ∧
    jsonsign_Sign sreqP = (permanodeSigned, None) ∧
    Builder_JSON {| bb_m := bb_m (schema_NewSetAttributeClaim
                                    (blob_SHA1FromString permanodeSigned)
                                    "camliContent" (Ref_String (sr_Ref fileblob)));
                    bb_camliSigner := Some (pubKeyBlobRef sigHelper);
                    bb_claimDate := Some claimDate |} = Ok (UnsignedJSON sreqC) ∧
    jsonsign_Sign sreqC = (claimSigned, None) ∧
    trace w' = trace w ++
      [CallSign sreqP;
       CallReceiveBlob (blob_SHA1FromString permanodeSigned) permanodeSigned (Ok gotP);
       CallSign sreqC;
       CallReceiveBlob (blob_SHA1FromString claimSigned) claimSigned (Ok gotC)] ∧
    sto w' =
      (ReceiveBlob r (blob_SHA1FromString claimSigned) claimSigned
         (ReceiveBlob r (blob_SHA1FromString permanodeSigned) permanodeSigned (sto w)).1).1.
Proof.
  unfold vivify. destruct blobReceiver as [br|]; [|done]. cbn [mbind option_bind].
  destruct (StreamingFetcher br) as [sf|] eqn:Hsf; [|done].
  mstep. unfold getStore.
  destruct (schema_NewFileReader _ _) as [fr|] eqn:Hfr; [|done].
  unfold io_Copy. destruct (fr_Read fr) as [bytes [err|]] eqn:Hread; [done|].
  destruct (Z.eqb_spec (len bytes) (fr_Size fr)) as [Hlen|]; [|done]. cbn [negb].
  destruct (Config_ br) as [config|] eqn:Hcfg; [|done].
  destruct (HandlerFinder config) as [hf|] eqn:Hhf; [|done].
  destruct (hf "jsonsign") as [[JSONSignRoot sh] err] eqn:Hfind.
  destruct err; [done|]. destruct sh as [[sigHelper|]|]; [|done|done].
  destruct (DiscoveryMap sigHelper JSONSignRoot !! "publicKeyBlobRef") as [v|] eqn:Hdisco.
  2:{ done. }
  apply DiscoveryMap_publicKeyBlobRef in Hdisco as [Hvalid ->].
  destruct (time_Parse_RFC3339 _) as [claimDate|] eqn:Htime; [|done].
  unfold blob_MustParse.
  destruct (blob_Parse (Ref_String (pubKeyBlobRef sigHelper))) as [signer|] eqn:Hparse; [|done].
  mstep. cbn [BlobReceiver_ReceiveBlob].
  match goal with |- context [Handler_Sign sigHelper ?bb w] =>
    destruct (Handler_Sign_cases sigHelper bb w)
      as [(signed & err & ->)|(sreqP & HjsonP & _ & _ & _ & HtimeP & ->)] end; [done|].
  destruct (jsonsign_Sign sreqP) as [permanodeSigned [err|]] eqn:HSP; [done|].
  rewrite callReceive_eq. cbn [logged sto trace conn].
  destruct (ReceiveBlob br _ _ (sto w)) as [s1 [gotP|]] eqn:HrecvP; cbn [fst snd]; [|done].
  match goal with |- context [Handler_Sign sigHelper ?bb ?w1] =>
    destruct (Handler_Sign_cases sigHelper bb w1)
      as [(signed & err & ->)|(sreqC & HjsonC & _ & _ & _ & HtimeC & ->)] end; [done|].
  destruct (jsonsign_Sign sreqC) as [claimSigned [err|]] eqn:HSC; [done|].
  rewrite callReceive_eq. cbn [logged sto trace conn].
  destruct (ReceiveBlob br _ _ s1) as [s2 [gotC|]] eqn:HrecvC; cbn [fst snd]; [|done].
  intros [= <-].
  exists br, sf, fr, bytes, config, hf, JSONSignRoot, sigHelper, claimDate, sreqP, sreqC,
    permanodeSigned, claimSigned, gotP, gotC.
  cbn [sto trace]. rewrite HrecvP. cbn [fst]. rewrite HrecvC. cbn [fst].
  split_and!; try done.
  by rewrite <- !app_assoc.
Qed.

(** ** The common response and the discovery document *)


(** X11.  The discovery document always has the keys [publicKeyId],
    [signHandler] and [verifyHandler], the handlers under the base path; it
    has [publicKeyBlobRef] and [publicKey] exactly when the handler's key
    ref is valid, and never any other key. *)
Theorem DiscoveryMap_keys (h : Handler) (base : string) :
  let m := DiscoveryMap h base in
  m !! "publicKeyId" = Some (JStr (KeyIdString (entity h))) ∧
  m !! "signHandler" = Some (JStr (base +:+ "camli/sig/sign")) ∧
  m !! "verifyHandler" = Some (JStr (base +:+ "camli/sig/verify")) ∧
  m !! "publicKeyBlobRef" =
    (if Ref_Valid (pubKeyBlobRef h) then Some (JStr (Ref_String (pubKeyBlobRef h))) else None) ∧
  m !! "publicKey" =
    (if Ref_Valid (pubKeyBlobRef h)
     then Some (JStr (base +:+ pubKeyBlobRefServeSuffix h)) else None) ∧
  dom m =
    {[ "publicKeyId"; "signHandler"; "verifyHandler" ]} ∪
    (if Ref_Valid (pubKeyBlobRef h) then {[ "publicKeyBlobRef"; "publicKey" ]} else ∅).
Proof.
  unfold DiscoveryMap. destruct (Ref_Valid (pubKeyBlobRef h)); cbn zeta.
  - split_and!.
    + by rewrite !lookup_insert_ne, lookup_insert_eq by done.
    + rewrite !lookup_insert_ne by done. by rewrite lookup_insert_eq.
    + rewrite !lookup_insert_ne by done. by rewrite lookup_singleton_eq.
    + by rewrite lookup_insert_ne, lookup_insert_eq by done.
    + by rewrite lookup_insert_eq.
    + rewrite !dom_insert_L, dom_singleton_L. set_solver.
  - split_and!.
    + by rewrite lookup_insert_eq.
    + rewrite lookup_insert_ne by done. by rewrite lookup_insert_eq.
    + rewrite !lookup_insert_ne by done. by rewrite lookup_singleton_eq.
    + rewrite !lookup_insert_ne by done. by rewrite lookup_singleton_ne.
    + rewrite !lookup_insert_ne by done. by rewrite lookup_singleton_ne.
    + rewrite !dom_insert_L, dom_singleton_L. set_solver.
Qed.

(** ** The sign handler's HTTP interface *)

Lemma handleSign_eq (h : Handler) (req : Request) (w : World) :
  let jsonStr := FormValue req "json" in
  let badReq (s : string) : outcome unit * World :=
    (Done tt,
     {| sto := sto w;
        trace := trace w ++ [Log "bad request: %s" [s]];
        conn := rw_Write (Text s) (rw_WriteHeader StatusBadRequest (conn w)) |}) in
  handleSign h req w =
  if (jsonStr =? "")%string then
    badReq ("missing " +:+ dquote +:+ "json" +:+ dquote +:+ " parameter")
  else if len jsonStr >? kMaxJSONLength then
    badReq ("parameter " +:+ dquote +:+ "json" +:+ dquote +:+ " too large")
  else
    match jsonsign_Sign (signRequestFor h jsonStr) with
    | (_, Some err) =>
      (Done tt,
       {| sto := sto w;
          trace := trace w ++ [CallSign (signRequestFor h jsonStr);
                               Log "bad request: %s" [err]];
          conn := rw_Write (Text err) (rw_WriteHeader StatusBadRequest (conn w)) |})
    | (signedJSON, None) =>
      (Done tt,
       {| sto := sto w;
          trace := trace w ++ [CallSign (signRequestFor h jsonStr)];
          conn := rw_Write (Text signedJSON) (conn w) |})
    end.
Proof.
  cbn zeta. unfold handleSign.
  destruct (FormValue req "json" =? "")%string; [reflexivity|].
  destruct (len (FormValue req "json") >? kMaxJSONLength); [reflexivity|].
  mstep. unfold SignRequest_Sign, emit. mstep. fold (signRequestFor h (FormValue req "json")).
  destruct (jsonsign_Sign _) as [signedJSON [err|]]; [|reflexivity].
  unfold http_Error, log_Printf, emit, onConn. mstep. cbn. by rewrite <- app_assoc.
Qed.

(** X12.  The signing primitive is reached by one route only: a request
    to the sign handler makes a signing request only if it is a POST to
    [camli/sig/sign] whose [json] field is not empty and not longer than
    [kMaxJSONLength]; it then makes exactly one, over that payload, in
    server mode, with the handler's key ring and no signature time. *)
Theorem ServeHTTP_signs_only_posted_payload (h : Handler) (req : Request) (w : World) :
  ∃ t,
    trace (ServeHTTP h req w).2 = trace w ++ t ∧
    (List.filter isSignCall t = [] ∨
     (Method req = "POST" ∧
      httputil_PathSuffix req = "camli/sig/sign" ∧
      FormValue req "json" ≠ "" ∧
      len (FormValue req "json") ≤ kMaxJSONLength ∧
      List.filter isSignCall t = [CallSign (signRequestFor h (FormValue req "json"))])).
Proof.
  unfold ServeHTTP.
  destruct (Method req =? "GET")%string.
  { exists []. rewrite app_nil_r. split; [|by left].
    destruct (_ =? "")%string; [done|]. destruct (_ =? _)%string; [done|].
    destruct (_ || _); [done|]. by destruct (_ =? _)%string. }
  destruct (String.eqb_spec (Method req) "POST") as [Hm|]; [|exists []; rewrite app_nil_r; by split; [|left]].
  destruct (String.eqb_spec (httputil_PathSuffix req) "camli/sig/sign") as [Hp|].
  - rewrite handleSign_eq. cbn zeta.
    destruct (String.eqb_spec (FormValue req "json") "") as [|Hne].
    { eexists [_]. split; [done|]. by left. }
    destruct (Z.gtb_spec (len (FormValue req "json")) kMaxJSONLength) as [|Hle].
    { eexists [_]. split; [done|]. by left. }
    destruct (jsonsign_Sign _) as [signedJSON [err|]].
    + eexists [_; _]. split; [done|]. right. by split_and!.
    + eexists [_]. split; [done|]. right. by split_and!.
  - exists []. rewrite app_nil_r. split; [|by left].
    destruct (_ =? _)%string; [|done].
    unfold handleVerify. by destruct (_ =? _)%string.
Qed.

(** X13.  Serving a request never panics and never touches the storage:
    the store is unchanged and no [ReceiveBlob] or [StatBlob] call is made.
    Unless the request is the GET of the public key, which is handed to the
    key handler, a status line has been sent when it returns. *)
Theorem ServeHTTP_answers_without_storage (h : Handler) (req : Request) (w : World) :
  ∃ w' t,
    ServeHTTP h req w = (Done tt, w') ∧
    sto w' = sto w ∧
    trace w' = trace w ++ t ∧
    List.filter isStorageCall t = [] ∧
    (¬ (Method req = "GET" ∧ httputil_PathSuffix req = pubKeyBlobRefServeSuffix h) →
     is_Some (rwStatus (conn w'))).
Proof.
  unfold ServeHTTP.
  destruct (String.eqb_spec (Method req) "GET") as [Hm|].
  { destruct (_ =? "")%string.
    { eexists _, []. rewrite app_nil_r. by split_and!. }
    destruct (String.eqb_spec (httputil_PathSuffix req) (pubKeyBlobRefServeSuffix h)).
    { eexists _, []. rewrite app_nil_r. split_and!; try done. intros Hn. by destruct Hn. }
    destruct (_ || _).
    { eexists _, []. rewrite app_nil_r. by split_and!. }
    destruct (_ =? _)%string; eexists _, []; rewrite app_nil_r; by split_and!. }
  destruct (Method req =? "POST")%string.
  2:{ eexists _, []. rewrite app_nil_r. by split_and!. }
  destruct (_ =? "camli/sig/sign")%string.
  - rewrite handleSign_eq. cbn zeta.
    destruct (_ =? "")%string; [eexists _, [_]; by split_and!|].
    destruct (_ >? _); [eexists _, [_]; by split_and!|].
    destruct (jsonsign_Sign _) as [signedJSON [err|]].
    + eexists _, [_; _]. by split_and!.
    + eexists _, [_]. by split_and!.
  - destruct (_ =? _)%string.
    + unfold handleVerify. destruct (_ =? "")%string;
        eexists _, []; rewrite app_nil_r; by split_and!.
    + eexists _, []. rewrite app_nil_r. by split_and!.
Qed.

(** X14.  A sign request whose [json] field is not empty and at most
    [kMaxJSONLength] bytes long, the bound included, is handed to the
    signing primitive once: when that succeeds the signed text is the body
    of a successful response, and when it fails its error is answered as a
    client error and logged. *)
Theorem handleSign_signs_accepted_payload (h : Handler) (req : Request) (w : World) :
  FormValue req "json" ≠ "" →
  len (FormValue req "json") ≤ kMaxJSONLength →
  rwStatus (conn w) = None →
  let sreq := signRequestFor h (FormValue req "json") in
  ∃ w',
    handleSign h req w = (Done tt, w') ∧
    sto w' = sto w ∧
    match jsonsign_Sign sreq with
    | (signedJSON, None) =>
      trace w' = trace w ++ [CallSign sreq] ∧
      rwStatus (conn w') = Some StatusOK ∧
      rwBody (conn w') = rwBody (conn w) ++ [Text signedJSON]
    | (_, Some err) =>
      trace w' = trace w ++ [CallSign sreq; Log "bad request: %s" [err]] ∧
      rwStatus (conn w') = Some StatusBadRequest ∧
      rwBody (conn w') = rwBody (conn w) ++ [Text err]
    end.
Proof.
  intros Hne Hle Hfresh. cbn zeta. rewrite handleSign_eq. cbn zeta.
  apply String.eqb_neq in Hne. rewrite Hne.
  destruct (Z.gtb_spec (len (FormValue req "json")) kMaxJSONLength); [lia|].
  destruct (jsonsign_Sign _) as [signedJSON [err|]]; eexists; split; try reflexivity;
    cbn; rewrite Hfresh; by split_and!.
Qed.

(** ** Publishing the key, and construction *)

(** X16.  [uploadPublicKey] reports what happened at the destination: it
    returns nil when the stat finds the blob, leaving the store as it was,
    or when the write that follows a failed stat stores it; the error it
    returns is that of a refused write.  After it returned nil, a
    destination that finds what it stored has the blob. *)
Theorem uploadPublicKey_result (h : Handler) (dest : Storage) (key : string) (w : World) :
  let ref := pubKeyBlobRef h in
  let stat := sto_StatBlob dest ref (sto w) in
  let write := sto_ReceiveBlob dest ref key (sto w) in
  ∃ err w',
    uploadPublicKey h dest key w = (Done err, w') ∧
    match stat, write.2 with
    | Ok _, _ =>
      err = None ∧ sto w' = sto w ∧ trace w' = trace w ++ [CallStatBlob ref stat]
    | Err _, Ok got =>
      err = None ∧ sto w' = write.1 ∧
      trace w' = trace w ++ [CallStatBlob ref stat; CallReceiveBlob ref key (Ok got)]
    | Err _, Err e =>
      err = Some e ∧ sto w' = write.1 ∧
      trace w' = trace w ++ [CallStatBlob ref stat; CallReceiveBlob ref key (Err e)]
    end ∧
    (err = None → StatFindsReceived dest → ∃ sr, sto_StatBlob dest ref (sto w') = Ok sr).
Proof.
  cbn zeta. unfold uploadPublicKey. mstep. unfold getStore, emit.
  destruct (sto_StatBlob dest (pubKeyBlobRef h) (sto w)) as [sr|e0] eqn:Hstat.
  - eexists _, _. split; [reflexivity|]. cbn. split; [done|]. intros _ _. by exists sr.
  - rewrite callReceive_eq. cbn [sto trace conn].
    destruct (sto_ReceiveBlob dest _ _ _) as [s1 [got|e1]] eqn:Hrecv; cbn [fst snd].
    + eexists _, _. split; [reflexivity|]. cbn. rewrite <- app_assoc. split; [done|].
      intros _ Hlaw. by apply (Hlaw _ _ _ _ _ Hrecv).
    + eexists _, _. split; [reflexivity|]. cbn. rewrite <- app_assoc. by split.
Qed.

Lemma uploadPublicKey_exists_after (h : Handler) (dest : Storage) (key : string) (w : World) :
  StatFindsReceived dest →
  (uploadPublicKey h dest key w).1 = Done None →
  ∃ sr, sto_StatBlob dest (pubKeyBlobRef h) (sto (uploadPublicKey h dest key w).2) = Ok sr.
Proof.
  intros Hlaw. unfold uploadPublicKey. mstep. unfold getStore, emit.
  destruct (sto_StatBlob dest (pubKeyBlobRef h) (sto w)) as [sr|e0] eqn:Hstat.
  - intros _. by exists sr.
  - rewrite callReceive_eq. cbn [sto trace conn].
    destruct (sto_ReceiveBlob dest _ _ _) as [s1 [got|e1]] eqn:Hrecv; cbn [fst snd]; [|done].
    intros _. by apply (Hlaw _ _ _ _ _ Hrecv).
Qed.

(** What the constructor has in hand once the configuration is valid, the
    entity is found and its armored key is in the memory store. *)
Lemma newJSONSignFromConfig_eq (env : Startup) (ld : Loader) (conf : jsonconfig_Obj)
    (w : World) (h_entity : Entity) (h_pubKeyBlobRef : Ref) (ms : Fetcher) :
  Validate conf = None →
  jsonsign_EntityFromSecring env (RequiredString conf "keyId")
    (secretRingPath env (OptionalString conf "secretRing" "")) = Ok h_entity →
  MemoryStore_AddBlob env (jsonsign_ArmoredPublicKey env h_entity).1 =
    Ok (h_pubKeyBlobRef, ms) →
  let key := (jsonsign_ArmoredPublicKey env h_entity).1 in
  let h (dest : option Storage) : Handler :=
    {| secretRing := OptionalString conf "secretRing" "";
       pubKeyBlobRef := h_pubKeyBlobRef;
       pubKeyFetcher := ms;
       pubKeyBlobRefServeSuffix := "camli/" +:+ Ref_String h_pubKeyBlobRef;
       pubKeyHandler := gethandler_ServeHTTP env ms;
       pubKeyDest := dest;
       pubKeyWritten := false;
       entity := h_entity |} in
  newJSONSignFromConfig env ld conf w =
  if (OptionalString conf "publicKeyDest" "" =? "")%string then (Done (Ok (h None)), w)
  else
    match GetStorage ld (OptionalString conf "publicKeyDest" "") with
    | Err err => (Done (Err err), w)
    | Ok None => (Done (Ok (h None)), w)
    | Ok (Some loaded) =>
      let run := uploadPublicKey (h (Some (ls_Storage loaded))) (publishTo ld loaded) key w in
      match run.1 with
      | Done None => (Done (Ok (h (Some (ls_Storage loaded)))), run.2)
      | Done (Some err) =>
        (Done (Err ("Error seeding self public key in storage: " +:+ err)), run.2)
      | Panic msg => (Panic msg, run.2)
      end
    end.
Proof.
  intros Hv He Hm. cbn zeta. unfold newJSONSignFromConfig. rewrite Hv, He.
  destruct (jsonsign_ArmoredPublicKey env h_entity) as [armored aerr]. cbn [fst] in *.
  rewrite Hm. destruct (_ =? "")%string; [reflexivity|]. cbn [negb].
  destruct (GetStorage ld _) as [[loaded|]|err]; [|reflexivity|reflexivity].
  mstep. fold (publishTo ld loaded).
  destruct (uploadPublicKey _ _ _ w) as [[[err|]|msg] w1]; reflexivity.
Qed.

(** X17.  When the constructor returns a handler and a destination was
    configured and loaded, the public key is at the destination the key was
    published to (a destination that finds what it stored): the stat of the
    handler's key ref succeeds there.  The handler serves the key under
    [camli/] followed by the text of that ref. *)
Theorem newJSONSignFromConfig_publishes_key
    (env : Startup) (ld : Loader) (conf : jsonconfig_Obj) (w w' : World)
    (h : Handler) (loaded : LoadedStorage) :
  newJSONSignFromConfig env ld conf w = (Done (Ok h), w') →
  OptionalString conf "publicKeyDest" "" ≠ "" →
  GetStorage ld (OptionalString conf "publicKeyDest" "") = Ok (Some loaded) →
  StatFindsReceived (publishTo ld loaded) →
  (∃ sr, sto_StatBlob (publishTo ld loaded) (pubKeyBlobRef h) (sto w') = Ok sr) ∧
  pubKeyDest h = Some (ls_Storage loaded) ∧
  pubKeyBlobRefServeSuffix h = "camli/" +:+ Ref_String (pubKeyBlobRef h) ∧
  secretRing h = OptionalString conf "secretRing" "".
Proof.
  intros Hrun Hdest Hload Hlaw.
  destruct (Validate conf) as [e|] eqn:Hv.
  { unfold newJSONSignFromConfig in Hrun. by rewrite Hv in Hrun. }
  destruct (jsonsign_EntityFromSecring env (RequiredString conf "keyId")
              (secretRingPath env (OptionalString conf "secretRing" ""))) as [ent|e] eqn:He.
  2:{ unfold newJSONSignFromConfig in Hrun. by rewrite Hv, He in Hrun. }
  destruct (MemoryStore_AddBlob env (jsonsign_ArmoredPublicKey env ent).1)
    as [[ref ms]|e] eqn:Hm.
  2:{ unfold newJSONSignFromConfig in Hrun. rewrite Hv, He in Hrun.
      destruct (jsonsign_ArmoredPublicKey env ent) as [armored aerr]. cbn [fst] in Hm.
      by rewrite Hm in Hrun. }
  rewrite (newJSONSignFromConfig_eq env ld conf w ent ref ms Hv He Hm) in Hrun.
  cbn zeta in Hrun. apply String.eqb_neq in Hdest. rewrite Hdest, Hload in Hrun.
  match type of Hrun with context [uploadPublicKey ?h0 ?d ?k w] =>
    pose proof (uploadPublicKey_exists_after h0 d k w Hlaw) as Hok;
    revert Hrun Hok;
    destruct (uploadPublicKey h0 d k w) as [[[err|]|msg] w1] end;
    cbn [fst snd]; intros Hrun Hok; try done.
  injection Hrun as <- <-. split_and!; try done. by apply Hok.
Qed.




End Properties.

(** * The properties on the concrete instance *)

Section Instances.
#[local] Existing Instance Demo.types.
#[local] Existing Instance Demo.externals.

Lemma demo_StringParses : StringParses.
Proof.
  intros r Hr. change (is_Some (Demo.parseRef r)).
  change (strings_HasPrefix r "sha1-" = true) in Hr.
  unfold Demo.parseRef. by rewrite Hr.
Qed.

Lemma demo_StatFindsReceived : StatFindsReceived Demo.storage.
Proof.
  intros ref data s s' got. cbn. unfold Demo.receive, Demo.stat.
  destruct (ref =? Demo.digest data)%string; [|done].
  intros [= <- _]. rewrite lookup_insert_eq. by eexists.
Qed.

Lemma demo_Received_A :
  Received Demo.receiver [Ok Demo.partA] ∅ [Demo.blobA] Demo.receivedA Demo.storedA.
Proof.
  eapply received_part; [reflexivity..|constructor].
Qed.

Lemma demo_Received_C :
  Received Demo.receiver [Ok Demo.partC] Demo.storedA [Demo.blobC] Demo.receivedC Demo.storedAC.
Proof.
  eapply received_part; [reflexivity..|constructor].
Qed.

(** The example of the interface: of the parts A, B, C, where the name of
    B is no blob ref, A and C are handed to the store and are the result,
    and the error of B is the only one recorded. *)
Lemma unparsable_name_skips_one_part_witness :
  let msg := "Ignoring form key " +:+ dquote +:+ "not-a-ref" +:+ dquote in
  ingestLoop (Some Demo.receiver) [Ok Demo.partA; Ok Demo.partB; Ok Demo.partC] [] ""
    (Demo.world ∅) =
  (Done ([Demo.blobA; Demo.blobC], msg, []),
   {| sto := Demo.storedAC;
      trace := Demo.receivedA ++ [Log "Client error: %s" [msg]] ++ Demo.receivedC;
      conn := newResponseWriter |}) ∧
  clientErrors (Demo.receivedA ++ [Log "Client error: %s" [msg]] ++ Demo.receivedC) = [msg].
Proof.
  exact (proj1 (proj2 (unparsable_name_skips_one_part (Some Demo.receiver) Demo.partB
                         {[ "name" := "not-a-ref" ]} eq_refl eq_refl))
           Demo.receiver [Ok Demo.partA] [Ok Demo.partC] [] "" (Demo.world ∅)
           _ _ _ _ _ _ eq_refl demo_Received_A demo_Received_C).
Defined.

Example upload_A_B_C :
  let run := ingestLoop (Some Demo.receiver) [Ok Demo.partA; Ok Demo.partB; Ok Demo.partC]
               [] "" (Demo.world ∅) in
  receivedOf run = Some [Demo.blobA; Demo.blobC] ∧
  sto run.2 = {[ "sha1-hello" := "hello"; "sha1-hi" := "hi" ]} ∧
  clientErrors (trace run.2) = ["Ignoring form key " +:+ dquote +:+ "not-a-ref" +:+ dquote].
Proof. vm_compute. done. Qed.

Lemma demo_isUpload (hdr : gmap string (list string)) (parts : MultipartReader) :
  isUpload (Demo.upload hdr parts).
Proof. by split. Qed.

(** After the part A was received, a part that is not form data, a part
    without disposition and a part the store refuses each end the loop: the
    result is A, the part C behind them is handed back unread, and for the
    first of them the handler reports A and the error. *)
Lemma framing_error_abandons_stream_witness :
  let run (mimePart : Part) :=
    ingestLoop (Some Demo.receiver) [Ok Demo.partA; Ok mimePart; Ok Demo.partC] [] ""
      (Demo.world ∅) in
  let stopped (msg : string) (calls : list Event) :=
    (Done ([Demo.blobA], msg, [Ok Demo.partC]),
     {| sto := Demo.storedA;
        trace := Demo.receivedA ++ calls ++ [Log "Client error: %s" [msg]];
        conn := newResponseWriter |}) in
  let refused := msgReceive ("sha1-hey" : Ref) "digest mismatch" in
  (run Demo.attachment = stopped (msgBadDisposition "attachment") [] ∧
   ∃ w' later,
     let ret := uploadResponse "http://localhost:3179" [Demo.blobA]
                  (msgBadDisposition "attachment" :: later) in
     handleMultiPartUpload
       (Demo.upload ∅ [Ok Demo.partA; Ok Demo.attachment; Ok Demo.partC])
       (Some Demo.receiver) (Demo.world ∅) = (Done tt, w') ∧
     rwStatus (conn w') = Some StatusOK ∧
     rwBody (conn w') = [JSONDoc (JObj ret)] ∧
     ret !! "received" = Some (JArr [receivedJSON Demo.blobA]) ∧
     ret !! "errorText" =
       Some (JStr (String.concat nl (msgBadDisposition "attachment" :: later)))) ∧
  run Demo.bare = stopped "invalid Content-Disposition" [] ∧
  run Demo.tampered =
    stopped refused [CallReceiveBlob ("sha1-hey" : Ref) "you" (Err "digest mismatch")].
Proof.
  intros run stopped refused.
  pose (abandoned := λ mimePart msg calls,
    framing_error_abandons_stream Demo.receiver [Ok Demo.partA] mimePart [Ok Demo.partC]
      (Demo.world ∅) [Demo.blobA] Demo.receivedA Demo.storedA msg Demo.storedA calls
      demo_Received_A).
  split_and!.
  - refine (proj1 (abandoned Demo.attachment _ [] _) [] "").
    apply (framing_other_kind _ _ _ "attachment" ∅); [reflexivity|discriminate].
  - refine (proj2 (abandoned Demo.attachment _ [] _) _ (Some Demo.receiver) Demo.config
              "http://localhost:3179" (demo_isUpload _ _) eq_refl eq_refl eq_refl eq_refl
              (λ _, demo_StringParses) eq_refl).
    apply (framing_other_kind _ _ _ "attachment" ∅); [reflexivity|discriminate].
  - refine (proj1 (abandoned Demo.bare _ [] _) [] "").
    by apply (framing_unparsed _ _ _ "mime: no media type").
  - refine (proj1 (abandoned Demo.tampered refused _ _) [] "").
    by apply (framing_receive (Some Demo.receiver) Demo.tampered Demo.storedA Demo.receiver
                {[ "name" := "sha1-hey" ]} _ Demo.storedA "digest mismatch").
Defined.

(** The example request is answered with status 200 and its errors; a POST
    without a multipart body is answered with a client error. *)
Lemma upload_answers_200_with_error_text_witness :
  (∃ w' t receivedBlobs,
     handleMultiPartUpload Demo.request (Some Demo.receiver) (Demo.world ∅) = (Done tt, w') ∧
     trace w' = trace (Demo.world ∅) ++ t ∧
     rwStatus (conn w') = Some StatusOK ∧
     rwBody (conn w') = rwBody (conn (Demo.world ∅)) ++
       [JSONDoc (JObj (uploadResponse "http://localhost:3179" receivedBlobs (clientErrors t)))] ∧
     uploadResponse "http://localhost:3179" receivedBlobs (clientErrors t) !! "errorText" =
       match clientErrors t with
       | [] => None
       | _ :: _ => Some (JStr (String.concat nl (clientErrors t)))
       end) ∧
  (let req := Demo.post "/bs/camli/upload" ∅ in
   rwStatus (conn (handleMultiPartUpload req (Some Demo.receiver) (Demo.world ∅)).2) =
     Some 400 ∧
   isClientError 400 = true ∧
   (¬ isUpload req ∨ ∃ err, Multipart req = Err err)).
Proof.
  split.
  - exact (proj1 (upload_answers_200_with_error_text Demo.request (Some Demo.receiver)
                    (Demo.world ∅) eq_refl)
             Demo.receiver Demo.config "http://localhost:3179" _
             (demo_isUpload _ _) eq_refl eq_refl eq_refl eq_refl demo_StringParses).
  - split; [reflexivity|]. split; [reflexivity|].
    exact (proj1 (proj2 (upload_answers_200_with_error_text (Demo.post "/bs/camli/upload" ∅)
                           (Some Demo.receiver) (Demo.world ∅) eq_refl)) 400 eq_refl eq_refl).
Defined.

(** On the example request every received blob is passed to [vivify]. *)
Lemma vivify_header_vivifies_each_received_blob_witness :
  ∃ receivedBlobs errText rest w1 t1 w' t2,
    ingestLoop (Some Demo.receiver) [Ok Demo.partA; Ok Demo.partB; Ok Demo.partC] [] ""
      (Demo.world ∅) = (Done (receivedBlobs, errText, rest), w1) ∧
    trace w1 = trace (Demo.world ∅) ++ t1 ∧
    handleMultiPartUpload Demo.request (Some Demo.receiver) (Demo.world ∅) = (Done tt, w') ∧
    trace w' = trace w1 ++ t2 ∧
    let run := vivifyAll (Some Demo.receiver) receivedBlobs (sto w1) in
    let errors := clientErrors t1 ++ vivifyErrors run.1 in
    run.1.*1 = receivedBlobs ∧
    sto w' = run.2 ∧
    clientErrors t2 = vivifyErrors run.1 ∧
    headerValues (conn w') "X-Camlistore-Vivified" =
      headerValues (conn (Demo.world ∅)) "X-Camlistore-Vivified" ++ vivifiedRefs run.1 ∧
    rwStatus (conn w') = Some StatusOK ∧
    rwBody (conn w') = rwBody (conn (Demo.world ∅)) ++
      [JSONDoc (JObj (uploadResponse "http://localhost:3179" receivedBlobs errors))] ∧
    uploadResponse "http://localhost:3179" receivedBlobs errors !! "errorText" =
      match errors with
      | [] => None
      | _ :: _ => Some (JStr (String.concat nl errors))
      end.
Proof.
  exact (vivify_header_vivifies_each_received_blob Demo.request (Some Demo.receiver)
           Demo.receiver Demo.config "http://localhost:3179" _ (Demo.world ∅)
           (demo_isUpload _ _) eq_refl eq_refl eq_refl eq_refl demo_StringParses
           eq_refl eq_refl).
Defined.

(** On the example request, the first blob is vivified and the second is
    not: one header, one error after that of the skipped part. *)
Example upload_A_B_C_vivified :
  let w' := (handleMultiPartUpload Demo.request (Some Demo.receiver) (Demo.world ∅)).2 in
  headerValues (conn w') "X-Camlistore-Vivified" = ["sha1-hello"] ∧
  clientErrors (trace w') =
    ["Ignoring form key " +:+ dquote +:+ "not-a-ref" +:+ dquote;
     "Error vivifying blob sha1-hi: Could not read all file of blobref sha1-hi. "
     +:+ "Wanted 5, got 2" +:+ nl] ∧
  length (List.filter isSignCall (trace w')) = 2%nat.
Proof. vm_compute. done. Qed.

Lemma vivify_size_mismatch_publishes_nothing_witness :
  ∃ err, vivify (Some Demo.receiver) Demo.blobC (Demo.world {[ "sha1-hi" := "hi" ]}) =
         (Done (Some err), Demo.world {[ "sha1-hi" := "hi" ]}).
Proof.
  refine (vivify_size_mismatch_publishes_nothing (Some Demo.receiver) Demo.blobC
            (Demo.world {[ "sha1-hi" := "hi" ]}) Demo.fetch
            {| fr_Size := 5;
               fr_FileSchema := {| UnixMtime := "2013-01-01T00:00:00Z";
                                   FileName := "hello.txt" |};
               fr_Read := ("hi", None) |} eq_refl eq_refl _).
  vm_compute. discriminate.
Defined.

Lemma vivify_one_claim_date_witness :
  let run := vivify (Some Demo.receiver) Demo.blobA (Demo.world {[ "sha1-hello" := "hello" ]}) in
  ∃ claimDate sreqP sreqC,
    run.1 = Done None ∧
    claimDate = "2013-01-01T00:00:00Z" ∧
    SignatureTime sreqP = Some claimDate ∧
    SignatureTime sreqC = Some claimDate ∧
    List.filter isSignCall (trace run.2) = [CallSign sreqP; CallSign sreqC].
Proof.
  intros run.
  assert (Hrun : vivify (Some Demo.receiver) Demo.blobA
                   (Demo.world {[ "sha1-hello" := "hello" ]}) = (Done None, run.2)).
  { vm_compute. reflexivity. }
  destruct (vivify_one_claim_date _ _ _ _ Hrun)
    as (sf & fr & claimDate & bbP & bbC & sreqP & sreqC & gotP & gotC &
        Hsf & Hfr & Htime & _ & _ & HtP & _ & _ & HtC & Htr).
  exists claimDate, sreqP, sreqC. split; [reflexivity|].
  injection Hsf as <-. injection Hfr as <-. injection Htime as <-.
  split; [reflexivity|]. split; [exact HtP|]. split; [exact HtC|].
  rewrite Htr. reflexivity.
Defined.


(** Publishing the key three times to an empty store: one stat that fails,
    one write, and then two stats that find the blob. *)
Example republish_three_times :
  trace (republish 3 Demo.signer Demo.storage "pubkey" (Demo.world ∅)).2 =
  [CallStatBlob "sha1-pubkey" (Err "file does not exist");
   CallReceiveBlob "sha1-pubkey" "pubkey" (Ok {| sr_Ref := "sha1-pubkey" : Ref; sr_Size := 6 |});
   CallStatBlob "sha1-pubkey" (Ok {| sr_Ref := "sha1-pubkey" : Ref; sr_Size := 6 |});
   CallStatBlob "sha1-pubkey" (Ok {| sr_Ref := "sha1-pubkey" : Ref; sr_Size := 6 |})].
Proof. vm_compute. reflexivity. Qed.

(** A write that the store refuses is attempted again by the next
    invocation: what happens at most once is a write that stores the blob. *)
Example republish_retries_refused_write :
  trace (republish 2 Demo.signer Demo.storage "another key" (Demo.world ∅)).2 =
  [CallStatBlob "sha1-pubkey" (Err "file does not exist");
   CallReceiveBlob "sha1-pubkey" "another key" (Err "digest mismatch");
   CallStatBlob "sha1-pubkey" (Err "file does not exist");
   CallReceiveBlob "sha1-pubkey" "another key" (Err "digest mismatch")].
Proof. vm_compute. reflexivity. Qed.

Lemma verify_post_always_200_witness :
  ServeHTTP Demo.signer
    (Demo.post "camli/sig/verify" {[ "sjson" := ["not signed"] ]}) (Demo.world ∅) =
  (Done tt,
   {| sto := ∅;
      trace := [];
      conn := {| rwHeader := ∅;
                 rwStatus := Some StatusOK;
                 rwBody := [] ++ [JSONDoc (JObj (verifyResponse (Err "bad signature")))] |} |}).
Proof.
  refine (verify_post_always_200 Demo.signer
            (Demo.post "camli/sig/verify" {[ "sjson" := ["not signed"] ]}) (Demo.world ∅)
            eq_refl eq_refl _ eq_refl).
  vm_compute. discriminate.
Defined.

Lemma len_append (s1 s2 : string) : len (s1 +:+ s2) = len s1 + len s2.
Proof.
  unfold len. induction s1 as [|c s1 IH]; [done|].
  change (Z.of_nat (S (String.length (s1 +:+ s2))) =
          Z.of_nat (S (String.length s1)) + Z.of_nat (String.length s2)).
  lia.
Qed.

Lemma len_doubled (k : nat) (s : string) : len (Demo.doubled k s) = 2 ^ Z.of_nat k * len s.
Proof.
  revert s. induction k as [|k IH]; intros s.
  - cbn [Demo.doubled]. lia.
  - cbn [Demo.doubled]. rewrite IH, len_append, Nat2Z.inj_succ, Z.pow_succ_r by lia. lia.
Qed.

Lemma len_oversized : len Demo.oversized = kMaxJSONLength + 1.
Proof.
  unfold Demo.oversized.
  change (len (String "{" (Demo.doubled 20 "a"))) with (len ("{" +:+ Demo.doubled 20 "a")).
  rewrite len_append, len_doubled. reflexivity.
Qed.

Lemma FormValue_singleton (path key value : string) :
  FormValue (Demo.post path {[ key := [value] ]}) key = value.
Proof. unfold FormValue, Values_Get. cbn [Demo.post Form]. by rewrite lookup_singleton_eq. Qed.

Lemma handleSign_rejects_oversized_witness :
  let req := Demo.post "camli/sig/sign" {[ "json" := [Demo.oversized] ]} in
  let msg := "parameter " +:+ dquote +:+ "json" +:+ dquote +:+ " too large" in
  len (FormValue req "json") > kMaxJSONLength ∧
  handleSign Demo.signer req (Demo.world ∅) =
  (Done tt,
   {| sto := ∅;
      trace := [] ++ [Log "bad request: %s" [msg]];
      conn := rw_Write (Text msg) (rw_WriteHeader StatusBadRequest newResponseWriter) |}).
Proof.
  intros req msg.
  assert (Hlen : len (FormValue req "json") > kMaxJSONLength).
  { unfold req. rewrite FormValue_singleton, len_oversized. lia. }
  split; [exact Hlen|].
  exact (handleSign_rejects_oversized Demo.signer req (Demo.world ∅) Hlen).
Defined.

Lemma commonUploadResponse_error_does_not_return_witness :
  let req := Demo.upload ∅ [] in
  let err := "Cannot build uploadUrl: configer.Config is nil" in
  handleMultiPartUpload req (Some Demo.unconfigured) (Demo.world ∅) =
  (Panic "assignment to entry in nil map",
   {| sto := ∅;
      trace := [Log "%v" [err]];
      conn := rw_Write (Text err) (rw_WriteHeader StatusInternalServerError newResponseWriter) |}).
Proof.
  intros req err.
  refine (proj1 (proj2 (commonUploadResponse_error_does_not_return req
            (Some Demo.unconfigured) [] (Demo.world ∅) (Demo.world ∅)
            {| sto := ∅; trace := [Log "%v" [err]]; conn := newResponseWriter |}
            [] "" [] None err _ eq_refl eq_refl eq_refl)) eq_refl).
  by split.
Defined.

(** When the base URL cannot be built, the error and then the JSON object
    are both written, under the status of the error. *)
Example upload_without_base_URL :
  let w' := (handleMultiPartUpload (Demo.upload ∅ []) (Some Demo.hostless) (Demo.world ∅)).2 in
  rwStatus (conn w') = Some StatusInternalServerError ∧
  rwBody (conn w') =
    [Text "Cannot build uploadUrl: no host";
     JSONDoc (JObj (responseOn (configResponse None) [] []))].
Proof. vm_compute. done. Qed.

(** ** Where the claims as stated fail *)

(** C2 as stated: the part A is received and stored, the loop stops at the
    part that is not form data, and the receiver has no configuration: the
    answer is the server error alone, and A is reported nowhere. *)
Lemma framing_error_received_not_reported :
  let req := Demo.upload ∅ [Ok Demo.partA; Ok Demo.attachment; Ok Demo.partC] in
  let run := handleMultiPartUpload req (Some Demo.unconfigured) (Demo.world ∅) in
  isUpload req ∧
  Multipart req = Ok [Ok Demo.partA; Ok Demo.attachment; Ok Demo.partC] ∧
  receiveCalls run.2 = [CallReceiveBlob "sha1-hello" "hello" (Ok Demo.blobA)] ∧
  sto run.2 = Demo.storedA ∧
  clientErrors (trace run.2) = [msgBadDisposition "attachment"] ∧
  rwStatus (conn run.2) = Some StatusInternalServerError ∧
  rwBody (conn run.2) = [Text "Cannot build uploadUrl: configer.Config is nil"].
Proof. vm_compute. done. Defined.

(** C3 as stated: a request that parses as multipart, answered with a
    server error because the upload URL cannot be built. *)
Lemma upload_multipart_answered_500 :
  let req := Demo.upload ∅ [Ok Demo.partA] in
  isUpload req ∧
  Multipart req = Ok [Ok Demo.partA] ∧
  ∃ w', handleMultiPartUpload req (Some Demo.hostless) (Demo.world ∅) = (Done tt, w') ∧
        rwStatus (conn w') = Some StatusInternalServerError ∧
        rwStatus (conn w') ≠ Some StatusOK.
Proof.
  split; [by split|]. split; [done|].
  eexists. split; [vm_compute; reflexivity|]. split; [reflexivity|discriminate].
Defined.

(** C4 as stated: the header is present, with a value other than [1]; the
    received blob, which [vivify] would accept, is not passed to it. *)
Lemma vivify_header_present_not_vivified :
  let req := Demo.upload {[ "X-Camlistore-Vivify" := ["true"] ]} [Ok Demo.partA] in
  let run := handleMultiPartUpload req (Some Demo.receiver) (Demo.world ∅) in
  Header req !! "X-Camlistore-Vivify" = Some ["true"] ∧
  run.1 = Done tt ∧
  (vivifyOn (Some Demo.receiver) Demo.blobA (sto run.2)).1 = Done None ∧
  List.filter isSignCall (trace run.2) = [] ∧
  receiveCalls run.2 = [CallReceiveBlob "sha1-hello" "hello" (Ok Demo.blobA)] ∧
  headerValues (conn run.2) "X-Camlistore-Vivified" = [] ∧
  clientErrors (trace run.2) = [].
Proof. vm_compute. done. Defined.


(** C8 as stated: a POST to the verify endpoint without [sjson], answered
    with a client error. *)
Lemma verify_post_without_sjson_400 :
  let req := Demo.post "camli/sig/verify" ∅ in
  Method req = "POST" ∧
  httputil_PathSuffix req = "camli/sig/verify" ∧
  ServeHTTP Demo.signer req (Demo.world ∅) =
  (Done tt,
   {| sto := ∅;
      trace := [];
      conn := {| rwHeader := ∅;
                 rwStatus := Some StatusBadRequest;
                 rwBody := [Text ("missing " +:+ dquote +:+ "sjson" +:+ dquote
                                  +:+ " parameter")] |} |}).
Proof. vm_compute. done. Defined.

(** ** The further properties on the concrete instance *)

Lemma ingestLoop_without_error_received_every_part_witness :
  let run := ingestLoop (Some Demo.receiver) [Ok Demo.partA; Ok Demo.partC] [] ""
               (Demo.world ∅) in
  run.1 = Done ([Demo.blobA; Demo.blobC], "", []) ∧
  length [Demo.blobA; Demo.blobC] = 2%nat ∧
  clientErrors (trace run.2) = [].
Proof.
  intros run.
  assert (Hrun : ingestLoop (Some Demo.receiver) [Ok Demo.partA; Ok Demo.partC] [] ""
                   (Demo.world ∅) = (Done ([Demo.blobA; Demo.blobC], "", []), run.2)).
  { vm_compute. reflexivity. }
  split; [exact (f_equal fst Hrun)|].
  exact (proj2 (ingestLoop_without_error_received_every_part (Some Demo.receiver)
                  [Ok Demo.partA; Ok Demo.partC] [] [Demo.blobA; Demo.blobC] []
                  (Demo.world ∅) run.2 Hrun)).
Defined.


Lemma upload_without_vivify_header_signs_nothing_witness :
  let req := Demo.upload {[ "X-Camlistore-Vivify" := ["0"] ]} [Ok Demo.partA] in
  let w' := (handleMultiPartUpload req (Some Demo.receiver) (Demo.world ∅)).2 in
  ∃ t,
    trace w' = trace (Demo.world ∅) ++ t ∧
    List.filter isSignCall t = [] ∧
    headerValues (conn w') "X-Camlistore-Vivified" =
      headerValues (conn (Demo.world ∅)) "X-Camlistore-Vivified".
Proof.
  exact (upload_without_vivify_header_signs_nothing
           (Demo.upload {[ "X-Camlistore-Vivify" := ["0"] ]} [Ok Demo.partA])
           (Some Demo.receiver) (Demo.world ∅) eq_refl).
Defined.

(** The example upload to a receiver without base URL, asking for
    vivification: the blob is vivified in the store, and no header says so. *)
Lemma upload_after_served_error_adds_no_header_witness :
  let req := Demo.upload {[ "X-Camlistore-Vivify" := ["1"] ]} [Ok Demo.partA] in
  ∃ receivedBlobs errText rest w1 w',
    ingestLoop (Some Demo.hostless) [Ok Demo.partA] [] "" (Demo.world ∅) =
      (Done (receivedBlobs, errText, rest), w1) ∧
    handleMultiPartUpload req (Some Demo.hostless) (Demo.world ∅) = (Done tt, w') ∧
    sto w' = (vivifyAll (Some Demo.hostless) receivedBlobs (sto w1)).2 ∧
    rwStatus (conn w') = Some StatusInternalServerError ∧
    headerValues (conn w') "X-Camlistore-Vivified" =
      headerValues (conn (Demo.world ∅)) "X-Camlistore-Vivified".
Proof.
  exact (upload_after_served_error_adds_no_header
           (Demo.upload {[ "X-Camlistore-Vivify" := ["1"] ]} [Ok Demo.partA])
           (Some Demo.hostless) Demo.hostless
           {| URLBase := ""; HandlerFinder := Some Demo.finder |} "no host" _ (Demo.world ∅)
           (demo_isUpload _ _) eq_refl eq_refl eq_refl eq_refl demo_StringParses eq_refl).
Defined.

Example upload_hostless_vivified :
  let req := Demo.upload {[ "X-Camlistore-Vivify" := ["1"] ]} [Ok Demo.partA] in
  let w' := (handleMultiPartUpload req (Some Demo.hostless) (Demo.world ∅)).2 in
  size (sto w') = 3%nat ∧
  length (List.filter isSignCall (trace w')) = 2%nat ∧
  rwHeader (conn w') = ∅.
Proof. vm_compute. done. Qed.

Lemma rebound_receiver_without_fetcher_vivifies_nothing_witness :
  let blobReceiver := rebind Demo.request (Some Demo.wrapping) in
  let msgs := (λ got, msgVivify got "BlobReceiver is not a StreamingFetcher")
                <$> [Demo.blobA; Demo.blobC] in
  (∃ r, blobReceiver = Some r ∧ ReceiveBlob r = Demo.receive ∧
        Config_ r = Config_ Demo.wrapping) ∧
  vivifyLoop blobReceiver [Demo.blobA; Demo.blobC] "" (Demo.world ∅) =
  (Done (foldl errTextAfter "" msgs),
   logged (Demo.world ∅) ((λ msg, Log "Client error: %s" [msg]) <$> msgs)).
Proof.
  exact (rebound_receiver_without_fetcher_vivifies_nothing Demo.request Demo.wrapping
           (λ _, OnlyReceiver Demo.receive) Demo.receive [Demo.blobA; Demo.blobC] ""
           (Demo.world ∅) eq_refl eq_refl).
Defined.

Lemma vivify_links_claim_to_permanode_witness :
  let run := vivify (Some Demo.receiver) Demo.blobA (Demo.world {[ "sha1-hello" := "hello" ]}) in
  ∃ permanodeSigned claimSigned gotP gotC sreqP sreqC,
    jsonsign_Sign sreqP = (permanodeSigned, None) ∧
    jsonsign_Sign sreqC = (claimSigned, None) ∧
    trace run.2 =
      [CallSign sreqP;
       CallReceiveBlob (blob_SHA1FromString permanodeSigned) permanodeSigned (Ok gotP);
       CallSign sreqC;
       CallReceiveBlob (blob_SHA1FromString claimSigned) claimSigned (Ok gotC)].
Proof.
  intros run.
  assert (Hrun : vivify (Some Demo.receiver) Demo.blobA
                   (Demo.world {[ "sha1-hello" := "hello" ]}) = (Done None, run.2)).
  { vm_compute. reflexivity. }
  destruct (vivify_links_claim_to_permanode _ _ _ _ Hrun)
    as (r & sf & fr & bytes & config & hf & root & sigHelper & claimDate & sreqP & sreqC &
        permanodeSigned & claimSigned & gotP & gotC &
        _ & _ & _ & _ & _ & _ & _ & _ & _ & _ & HSP & _ & HSC & Htr & _).
  by exists permanodeSigned, claimSigned, gotP, gotC, sreqP, sreqC.
Defined.

(** The example file, vivified: the claim sets [camliContent] of the
    permanode's ref, and both are in the store next to the file. *)
Example vivify_hello :
  let run := vivify (Some Demo.receiver) Demo.blobA (Demo.world {[ "sha1-hello" := "hello" ]}) in
  let permanode := "hello,sha1-pubkey,2013-01-01T00:00:00Z,sig@2013-01-01T00:00:00Z" in
  let claim := "sha1-" +:+ permanode +:+ ".camliContent=sha1-hello,sha1-pubkey,"
               +:+ "2013-01-01T00:00:00Z,sig@2013-01-01T00:00:00Z" in
  run.1 = Done None ∧
  sto run.2 = {[ "sha1-hello" := "hello";
                 "sha1-" +:+ permanode := permanode;
                 "sha1-" +:+ claim := claim ]}.
Proof. vm_compute. done. Qed.

Lemma handleSign_signs_accepted_payload_witness :
  let req := Demo.post "camli/sig/sign" {[ "json" := ["{}"] ]} in
  ∃ w',
    handleSign Demo.signer req (Demo.world ∅) = (Done tt, w') ∧
    sto w' = sto (Demo.world ∅) ∧
    trace w' = trace (Demo.world ∅) ++ [CallSign (signRequestFor Demo.signer "{}")] ∧
    rwStatus (conn w') = Some StatusOK ∧
    rwBody (conn w') = rwBody (conn (Demo.world ∅)) ++ [Text "{},sig@now"].
Proof.
  intros req.
  refine (handleSign_signs_accepted_payload Demo.signer req (Demo.world ∅) _ _ eq_refl).
  - vm_compute. discriminate.
  - vm_compute. discriminate.
Defined.


Lemma newJSONSignFromConfig_publishes_key_witness :
  let run := newJSONSignFromConfig Demo.startup Demo.loader Demo.conf (Demo.world ∅) in
  let h := Demo.signer in
  run.1 = Done (Ok h) ∧
  (∃ sr, sto_StatBlob Demo.storage (pubKeyBlobRef h) (sto run.2) = Ok sr) ∧
  pubKeyDest h = Some Demo.storage ∧
  pubKeyBlobRefServeSuffix h = "camli/" +:+ Ref_String (pubKeyBlobRef h) ∧
  secretRing h = OptionalString Demo.conf "secretRing" "".
Proof.
  intros run h.
  assert (Hrun : newJSONSignFromConfig Demo.startup Demo.loader Demo.conf (Demo.world ∅) =
                 (Done (Ok h), run.2)).
  { vm_compute. reflexivity. }
  split; [exact (f_equal fst Hrun)|].
  refine (newJSONSignFromConfig_publishes_key Demo.startup Demo.loader Demo.conf
            (Demo.world ∅) run.2 h {| ls_Storage := Demo.storage; ls_ContextWrapper := None |}
            Hrun _ eq_refl demo_StatFindsReceived).
  vm_compute. discriminate.
Defined.


(** Two startups against an empty store: the first stats and writes the
    key, the second only stats. *)
Example two_startups :
  let w1 := (newJSONSignFromConfig Demo.startup Demo.loader Demo.conf (Demo.world ∅)).2 in
  let w2 := (newJSONSignFromConfig Demo.startup Demo.loader Demo.conf w1).2 in
  trace w2 =
  [CallStatBlob "sha1-pubkey" (Err "file does not exist");
   CallReceiveBlob "sha1-pubkey" "pubkey" (Ok {| sr_Ref := "sha1-pubkey" : Ref; sr_Size := 6 |});
   CallStatBlob "sha1-pubkey" (Ok {| sr_Ref := "sha1-pubkey" : Ref; sr_Size := 6 |})].
Proof. vm_compute. reflexivity. Qed.

End Instances.
